(** * svina: batch docking driver (main.cpp)

    A shallow embedding of the driver of svina (QuickVina 2 with the
    screening additions): the annealed local refinement
    [refine_structure], the curation of the result pool in [do_search]
    ([remove_redundant] and the selection of the modes that are written),
    the choice made by [main_procedure] about the scoring grid, and the two
    batch schedulers of [main]: the fork based fan-out and the MPI
    governor/worker farm; with them the helpers [default_output],
    [get_occurrence] and [check_occurrence], the writer
    [write_all_output] and the randomization [do_randomization].

    Conventions.
    - [fl] is [double] in the source.  A finite [double] is modelled by
      the rational it is worth, so that comparisons are exact.  The one
      addition the driver makes on energies is [fl_add], the IEEE 754
      binary64 sum (round to nearest, ties to even) as the Standard
      Library's [SpecFloat] defines it.  The five slope constants of the
      annealing are integers far below 2^53 and therefore exact in
      binary64.  A NaN is outside the model.
    - [sz] is [std::size_t]; sizes of containers and loop indices are
      [nat].  [int] and [unsigned] values are [Z] with the wrap-around
      written out where a conversion narrows.
    - Collaborators that live in other translation units (the model, the
      quasi-Newton minimizer, the Monte-Carlo search, the grid
      evaluators) are the fields of two interfaces, [Types] and
      [Collab].
    - The first part of the file holds the definitions, module by module;
      the second part holds the statements and proofs. *)

From Stdlib Require Import List ZArith QArith Bool Lia String Ascii.
From Stdlib Require Import Floats.SpecFloat.
Import ListNotations.

Close Scope Q_scope.

Definition fl := Q.
Definition sz := nat.

(** [x < y] on [fl], as a boolean test. *)
Definition fl_lt (x y : fl) : bool := negb (Qle_bool y x).

(** [x >= y] on [fl]. *)
Definition fl_ge (x y : fl) : bool := Qle_bool y x.

(** The binary64 number nearest to a rational (ties to even); a rational
    that is the value of a [double] is that [double]. *)
Definition to_binary64 (x : fl) : spec_float :=
  match Qnum x with
  | Z0 => S754_zero false
  | Zpos n =>
      SFdiv 53 1024 (S754_finite false n 0) (S754_finite false (Qden x) 0)
  | Zneg n =>
      SFdiv 53 1024 (S754_finite true n 0) (S754_finite false (Qden x) 0)
  end.

(** The value of a binary64 number.  An infinity is given the value
    2^1024, of the one sign or the other, which lies beyond every finite
    [double]: it compares with the finite ones as the infinity does.  A
    NaN does not come out of the sum of two finite numbers. *)
Definition of_binary64 (f : spec_float) : fl :=
  match f with
  | S754_zero _ => 0%Q
  | S754_infinity s =>
      if s then inject_Z (- 2 ^ 1024) else inject_Z (2 ^ 1024)
  | S754_nan => 0%Q
  | S754_finite s m ex =>
      (inject_Z (if s then Z.neg m else Z.pos m) * (2 # 1) ^ ex)%Q
  end.

(** [x + y] on [fl]: the sum, rounded to binary64. *)
Definition fl_add (x y : fl) : fl :=
  of_binary64 (SFadd 53 1024 (to_binary64 x) (to_binary64 y)).

(** What is streamed into the [tee] log: text, integers, and numbers with
    the field width ([std::setw]) and precision they are printed with. *)
Inductive log_item :=
| L_str (s : string)
| L_int (n : Z)
| L_sz (width : nat) (n : nat)
| L_fl (width precision : nat) (x : fl)
| L_endl.

Definition tee := list log_item.

(** [doing] and [done]: progress messages, printed when [verbosity > 1]. *)
Definition doing (verbosity : Z) (str : string) (log : tee) : tee :=
  if (1 <? verbosity)%Z then log ++ [L_str str; L_str " ... "] else log.

Definition done (verbosity : Z) (log : tee) : tee :=
  if (1 <? verbosity)%Z then log ++ [L_str "done."; L_endl] else log.

(** A newline, and a text followed by one. *)
Definition nl : string := String (ascii_of_nat 10) EmptyString.

Definition line (s : string) : string := (s ++ nl)%string.

(** Conversions between the integer types of the source. *)
Definition to_sz (z : Z) : Z := (z mod 2 ^ 64)%Z.
Definition to_unsigned (z : Z) : Z := (z mod 2 ^ 32)%Z.
Definition to_int (z : Z) : Z := ((z + 2 ^ 31) mod 2 ^ 32 - 2 ^ 31)%Z.

(** ** The opaque types of the other translation units *)

Class Types := {
  model : Type;
  conf : Type;
  change : Type;
  vecv : Type;            (* coordinates of the movable heavy atoms *)
  precalculate : Type;
  scoring : Type;         (* [weighted_terms], a [scoring_function] *)
  terms : Type;           (* [everything] *)
  cache : Type;
  rng : Type
}.

Definition vec : Type := fl * fl * fl.

Record grid_dim := mk_grid_dim {
  gd_begin : fl;
  gd_end : fl;
  gd_n : nat
}.

(** [boost::array<grid_dim, 3>] *)
Definition grid_dims : Type := grid_dim * grid_dim * grid_dim.

Definition flv : Type := list fl.

(** ** The docking pipeline: [refine_structure], [remove_redundant],
       [do_search], [main_procedure] *)

Module Docking.

Section Defs.

Context {T : Types}.

(** [output_type]: a conformation with its energy and the coordinates of
    its movable heavy atoms. *)
Record output_type := mk_output {
  c : conf;
  e : fl;
  coords : vecv
}.

Definition output_container : Type := list output_type.

(** [non_cache], the exact evaluator: [slope] is its public penalty slope,
    the other two fields are what its constructor stores. *)
Record non_cache := mk_non_cache {
  nc_gd : grid_dims;
  nc_p : precalculate;
  slope : fl
}.

(** The implementations of the [igrid] interface that [main_procedure]
    hands to [do_search]. *)
Inductive igrid :=
| Ig_cache (c : cache)
| Ig_non_cache (nc : non_cache).

(** [parallel_mc], with the fields [main_procedure] sets. *)
Record parallel_mc := mk_parallel_mc {
  num_steps : Z;
  ssd_evals : Z;
  mc_min_rmsd : fl;
  num_saved_mins : Z;
  hunt_cap : vec;
  num_tasks : Z;
  num_threads : Z;
  display_progress : bool
}.

(** The objects [refine_structure] holds by reference while it runs. *)
Record state := mk_state {
  st_m : model;
  st_nc : non_cache;
  st_out : output_type;
  st_g : change
}.

Definition set_slope (nc : non_cache) (s : fl) : non_cache :=
  {| nc_gd := nc_gd nc; nc_p := nc_p nc; slope := s |}.

Definition with_nc (s : state) (nc : non_cache) : state :=
  {| st_m := st_m s; st_nc := nc; st_out := st_out s; st_g := st_g s |}.

Definition with_m (s : state) (m : model) : state :=
  {| st_m := m; st_nc := st_nc s; st_out := st_out s; st_g := st_g s |}.

Definition set_e (o : output_type) (x : fl) : output_type :=
  {| c := c o; e := x; coords := coords o |}.

Definition set_coords (o : output_type) (v : vecv) : output_type :=
  {| c := c o; e := e o; coords := v |}.

(** What the driver calls in the other translation units.  The constant
    [authentic_v] and the scoring function are arguments the driver only
    passes on; they are part of the collaborator where they are not
    listed. *)
Class Collab := {
  (* common.h, which is not among the sources: the energy that marks a
     rejected pose, and the test that an energy is not that one *)
  max_fl : fl;
  not_max : fl -> bool;
  (* quasi_newton::operator() with max_steps set; it receives m, nc, out
     and g by reference, so it is a state transformer *)
  quasi_newton_par : Z -> precalculate -> state -> state;
  (* model *)
  model_set : model -> conf -> model;
  get_heavy_atom_movable_coords : model -> vecv;
  get_initial_conf : model -> conf;
  no_coords : vecv;                 (* the empty coordinate vector *)
  change_zero : model -> change;
  num_movable_atoms : model -> Z;
  num_degrees_of_freedom : model -> Z;
  clash_penalty : model -> fl;
  eval_intramolecular : model -> precalculate -> conf -> fl * model;
  eval_adjusted :
    model -> scoring -> precalculate -> non_cache -> conf -> fl -> fl * model;
  rmsd_lower_bound : model -> model -> fl;
  rmsd_upper_bound : model -> model -> fl;
  (* non_cache::within *)
  within : non_cache -> model -> bool;
  (* conf::randomize *)
  conf_randomize : conf -> vec -> vec -> rng -> conf * rng;
  rng_seeded : Z -> rng;
  (* parallel_mc::operator() *)
  par_search :
    parallel_mc -> model -> output_container -> precalculate -> igrid ->
    precalculate -> igrid -> vec -> vec -> rng ->
    model * output_container * rng;
  (* ptr_vector::sort, by the order of output_type *)
  sort : output_container -> output_container;
  (* the RMSD between the coordinates of two poses, by which the pool is
     thinned (coords.cpp is not among the sources) *)
  rmsd : vecv -> vecv -> fl;
  (* the score-only branch of do_search: it evaluates the pose and logs
     the affinity and the term values; the boolean is false when one of
     its VINA_CHECKs threw *)
  score_only_report :
    model -> scoring -> precalculate -> terms -> flv -> tee -> model * tee * bool;
  (* the scoring function *)
  everything : terms;
  weighted_terms : terms -> flv -> scoring;
  mk_precalculate : scoring -> precalculate;
  widen : precalculate -> fl -> fl -> precalculate;
  (* cache *)
  mk_cache : grid_dims -> fl -> cache;
  populate : cache -> model -> precalculate -> cache
}.

Context {K : Collab}.

(** *** [refine_structure] *)

(** [100 * std::pow(10.0, 2.0*p)] *)
Definition anneal_slope (p : nat) : fl :=
  (inject_Z 100 * (inject_Z 10) ^ (2 * Z.of_nat p))%Q.

(** One record per pass through the loop body: the state handed to the
    minimizer, the state the minimizer left, the state after
    [m.set(out.c)], and the outcome of the [within] test. *)
Record attempt := mk_attempt {
  a_p : nat;
  a_call : state;
  a_ret : state;
  a_end : state;
  a_within : bool
}.

(** The body of [VINA_FOR(p, 5)], over the remaining values of [p]; the
    [break] is the branch that does not recurse. *)
Fixpoint anneal (max_steps : Z) (prec : precalculate) (ps : list nat)
    (s : state) : state * list attempt :=
  match ps with
  | [] => (s, [])
  | p :: ps' =>
      let s1 := with_nc s (set_slope (st_nc s) (anneal_slope p)) in
      let s2 := quasi_newton_par max_steps prec s1 in
      let s3 := with_m s2 (model_set (st_m s2) (c (st_out s2))) in
      let w := within (st_nc s3) (st_m s3) in
      let a := mk_attempt p s1 s2 s3 w in
      if w then (s3, [a])
      else let '(s', tr) := anneal max_steps prec ps' s3 in (s', a :: tr)
  end.

(** The loop body on its own: the state pass [p] starts the minimizer
    from, and what the pass makes of the state it is entered with. *)
Definition call_state (p : nat) (s : state) : state :=
  with_nc s (set_slope (st_nc s) (anneal_slope p)).

Definition pass (max_steps : Z) (prec : precalculate) (p : nat) (s : state)
  : attempt :=
  let s1 := call_state p s in
  let s2 := quasi_newton_par max_steps prec s1 in
  let s3 := with_m s2 (model_set (st_m s2) (c (st_out s2))) in
  mk_attempt p s1 s2 s3 (within (st_nc s3) (st_m s3)).

(** [refine_structure(m, prec, nc, out, cap, max_steps)], with the list
    of the passes it made. *)
Definition refine_structure (m : model) (prec : precalculate)
    (nc : non_cache) (out : output_type) (max_steps : Z)
  : state * list attempt :=
  let g := change_zero m in
  let slope_orig := slope nc in
  let '(s, tr) := anneal max_steps prec (seq 0 5) (mk_state m nc out g) in
  let out1 := set_coords (st_out s)
                (get_heavy_atom_movable_coords (st_m s)) in
  let out2 := if negb (within (st_nc s) (st_m s))
              then set_e out1 max_fl else out1 in
  (mk_state (st_m s) (set_slope (st_nc s) slope_orig) out2 (st_g s), tr).

(** *** [remove_redundant] *)

(** Modelled from the spec: [add_to_output_container] (declared in
    coords.h; its body is not among the sources).  A candidate is
    accepted into the pool only if its RMSD to every pose already
    accepted is at least [min_rmsd], otherwise it is discarded; the pool
    is capped at [max_size]. *)
Definition add_to_output_container (out : output_container)
    (t : output_type) (min_rmsd : fl) (max_size : sz) : output_container :=
  if forallb (fun a => fl_ge (rmsd (coords t) (coords a)) min_rmsd) out
  then if (List.length out <? max_size)%nat then out ++ [t] else out
  else out.

(** [VINA_FOR_IN(i, in) add_to_output_container(tmp, in[i], min_rmsd, in.size())],
    from the candidate at index [i] on. *)
Fixpoint remove_redundant_from (rest : output_container) (min_rmsd : fl)
    (size : sz) (tmp : output_container) : output_container :=
  match rest with
  | [] => tmp
  | t :: rest' =>
      remove_redundant_from rest' min_rmsd size
        (add_to_output_container tmp t min_rmsd size)
  end.

Definition remove_redundant (in_ : output_container) (min_rmsd : fl)
  : output_container :=
  remove_redundant_from in_ min_rmsd (List.length in_) [].

(** A pool in ascending order of energy. *)
Definition ascending (l : output_container) : Prop :=
  forall i j a b, (i <= j)%nat ->
    nth_error l i = Some a -> nth_error l j = Some b -> (e a <= e b)%Q.

(** [t] is closer than [min_rmsd] to [a]. *)
Definition close (min_rmsd : fl) (t a : output_type) : Prop :=
  (rmsd (coords t) (coords a) < min_rmsd)%Q.

(** Every pose of [l] is at least [min_rmsd] away from the poses before
    it in [l]. *)
Definition spaced (min_rmsd : fl) (l : output_container) : Prop :=
  forall i j a b, (i < j)%nat ->
    nth_error l i = Some a -> nth_error l j = Some b ->
    (min_rmsd <= rmsd (coords b) (coords a))%Q.

(** *** [write_all_output] and [do_randomization] *)

(** A remark is the text [vina_remark] builds in its [ostringstream]. *)
Definition remark : Type := list log_item.

Definition vina_remark (e lb ub : fl) : remark :=
  [L_str "REMARK VINA RESULT: "; L_fl 9 1 e; L_str "  "; L_fl 9 3 lb;
   L_str "  "; L_fl 9 3 ub; L_str nl].

(** What a run leaves on disk: the models written by [write_all_output]
    (number, remark, and the model as set when it was written), or the
    structure written by [do_randomization]. *)
Inductive file_body :=
| F_models (l : list (nat * remark * model))
| F_structure (m : model).

Definition out_file : Type := string * file_body.

(** [VINA_FOR(i, how_many) { m.set(out[i].c); m.write_model(f, i+1, remarks[i]); }] *)
Fixpoint write_models (m : model) (i how_many : nat) (out : output_container)
    (remarks : list remark) : model * list (nat * remark * model) :=
  match how_many, out, remarks with
  | S n, o :: out', r :: remarks' =>
      let m1 := model_set m (c o) in
      let '(m2, l) := write_models m1 (S i) n out' remarks' in
      (m2, (S i, r, m1) :: l)
  | _, _, _ => (m, [])
  end.

(** [write_all_output]; [None] when its [VINA_CHECK] throws
    [internal_error], before the file is opened. *)
Definition write_all_output (m : model) (out : output_container)
    (how_many : sz) (output_name : string) (remarks : list remark)
  : option (model * out_file) :=
  let how_many := if (List.length out <? how_many)%nat
                  then List.length out else how_many in
  if (how_many <=? List.length remarks)%nat then
    let '(m', l) := write_models m 0 how_many out remarks in
    Some (m', (output_name, F_models l))
  else None.

(** The loop of [do_randomization]: [attempts] random conformations, the
    one with the least clash penalty is kept. *)
Fixpoint randomize_loop (init_conf : conf) (corner1 corner2 : vec)
    (idx : list nat) (m : model) (generator : rng) (best_conf : conf)
    (best_clash_penalty : fl) : model * rng * conf * fl :=
  match idx with
  | [] => (m, generator, best_conf, best_clash_penalty)
  | i :: idx' =>
      let '(c1, generator1) := conf_randomize init_conf corner1 corner2 generator in
      let m1 := model_set m c1 in
      let penalty := clash_penalty m1 in
      if (i =? 0)%nat || fl_lt penalty best_clash_penalty
      then randomize_loop init_conf corner1 corner2 idx' m1 generator1 c1 penalty
      else randomize_loop init_conf corner1 corner2 idx' m1 generator1
             best_conf best_clash_penalty
  end.

Definition do_randomization (m : model) (out_name : string)
    (corner1 corner2 : vec) (seed : Z) (verbosity : Z) (log : tee)
  : model * tee * out_file :=
  let init_conf := get_initial_conf m in
  let generator := rng_seeded seed in
  let log1 := if (1 <? verbosity)%Z
              then log ++ [L_str "Using random seed: "; L_int seed; L_endl]
              else log in
  let attempts := (100 * 100) in
  let '(m1, _, best_conf, best_clash_penalty) :=
    randomize_loop init_conf corner1 corner2 (seq 0 attempts) m generator
      init_conf 0%Q in
  let m2 := model_set m1 best_conf in
  let log2 := if (1 <? verbosity)%Z
              then log1 ++ [L_str "Clash penalty: "; L_fl 0 6 best_clash_penalty; L_endl]
              else log1 in
  (m2, log2, (out_name, F_structure m2)).

(** *** [do_search] *)

(** What can be observed of the collaborators a run drives. *)
Inductive event :=
| Ev_populate (c : cache)                  (* cache::populate *)
| Ev_randomize                             (* do_randomization *)
| Ev_score                                 (* the score-only evaluation *)
| Ev_search (ig ig_widened : igrid)        (* parallel_mc::operator() *)
| Ev_refine (nc : non_cache).              (* refine_structure *)

Definition is_populate (ev : event) : bool :=
  match ev with
  | Ev_populate _ => true
  | _ => false
  end.

(** [VINA_FOR_IN(i, out_cont) refine_structure(m, prec, nc, out_cont[i], ...)] *)
Fixpoint refine_all (m : model) (prec : precalculate) (nc : non_cache)
    (max_steps : Z) (out_cont : output_container)
  : model * non_cache * output_container * list event :=
  match out_cont with
  | [] => (m, nc, [], [])
  | o :: rest =>
      let s := fst (refine_structure m prec nc o max_steps) in
      let '(m', nc', rest', evs) :=
        refine_all (st_m s) prec (st_nc s) max_steps rest in
      (m', nc', st_out s :: rest', Ev_refine nc :: evs)
  end.

(** [VINA_FOR_IN(i, out_cont) if(not_max(out_cont[i].e)) out_cont[i].e = m.eval_adjusted(...)] *)
Fixpoint rescore (m : model) (sf : scoring) (prec : precalculate)
    (nc : non_cache) (intramolecular : fl) (out_cont : output_container)
  : model * output_container :=
  match out_cont with
  | [] => (m, [])
  | o :: rest =>
      if not_max (e o) then
        let '(x, m1) := eval_adjusted m sf prec nc (c o) intramolecular in
        let '(m2, rest') := rescore m1 sf prec nc intramolecular rest in
        (m2, set_e o x :: rest')
      else
        let '(m2, rest') := rescore m sf prec nc intramolecular rest in
        (m2, o :: rest')
  end.

(** [out_cont[0].e]; the selection loop reads it only when the pool is
    not empty. *)
Definition front_e (out_cont : output_container) : fl :=
  match out_cont with
  | o :: _ => e o
  | [] => 0%Q
  end.

(** What the selection loop updates. *)
Record selection := mk_selection {
  sel_m : model;
  how_many : sz;
  remarks : list remark;
  sel_log : tee
}.

(** The test that leaves the selection loop. *)
Definition stop_selecting (out_cont : output_container) (num_modes : sz)
    (energy_range : fl) (how_many : sz) (o : output_type) : bool :=
  (num_modes <=? how_many)%nat
  || negb (not_max (e o))
  || fl_lt (fl_add (front_e out_cont) energy_range) (e o).

(** [VINA_FOR_IN(i, out_cont) { if(...) break; ++how_many; ... }], from
    index [i] on. *)
Fixpoint select_modes (out_cont : output_container) (ref : option model)
    (best_mode_model : model) (num_modes : sz) (energy_range : fl)
    (i : nat) (rest : output_container) (s : selection) : selection :=
  match rest with
  | [] => s
  | o :: rest' =>
      if stop_selecting out_cont num_modes energy_range (how_many s) o then s
      else
        let log1 := sel_log s ++ [L_sz 4 (i + 1); L_str "    "; L_fl 9 1 (e o)] in
        let m1 := model_set (sel_m s) (c o) in
        let r := match ref with Some r => r | None => best_mode_model end in
        let lb := rmsd_lower_bound m1 r in
        let ub := rmsd_upper_bound m1 r in
        let log2 := log1 ++ [L_str "  "; L_fl 9 3 lb; L_str "  "; L_fl 9 3 ub] in
        select_modes out_cont ref best_mode_model num_modes energy_range
          (S i) rest'
          {| sel_m := m1;
             how_many := S (how_many s);
             remarks := remarks s ++ [vina_remark (e o) lb ub];
             sel_log := log2 ++ [L_endl] |}
  end.

Definition warning_no_conformation : list log_item :=
  [L_str (line "WARNING: Could not find any conformations completely within the search space.");
   L_str "WARNING: Check that it is large enough for all movable atoms, including those in the flexible side chains.";
   L_endl].

(** What [do_search] leaves: the objects it received by reference, the
    file it wrote, the collaborators it drove, and whether it returned
    ([s_ok]) or threw [internal_error] from a [VINA_CHECK]; after a throw
    the other fields are as they stood then. *)
Record searched := mk_searched {
  s_m : model;
  s_nc : non_cache;
  s_log : tee;
  s_files : list out_file;
  s_events : list event;
  s_ok : bool
}.

(** The tail of the search branch: from the table header to the warning
    (the statements after [remove_redundant]). *)
Definition report_modes (m : model) (ref : option model) (nc : non_cache)
    (out_cont : output_container) (out_name : string) (energy_range : fl)
    (num_modes : sz) (verbosity : Z) (log : tee) (evs : list event)
  : searched :=
  let log1 := log ++ [L_str nl;
                      L_str (line "mode |   affinity | dist from best mode");
                      L_str (line "     | (kcal/mol) | rmsd l.b.| rmsd u.b.");
                      L_str (line "-----+------------+----------+----------")] in
  let best_mode_model :=
    match out_cont with
    | o :: _ => model_set m (c o)
    | [] => m
    end in
  let sel := select_modes out_cont ref best_mode_model num_modes energy_range
               0 out_cont (mk_selection m 0 [] log1) in
  let log2 := doing verbosity "Writing output" (sel_log sel) in
  match write_all_output (sel_m sel) out_cont (how_many sel) out_name
          (remarks sel) with
  | Some (m1, f) =>
      let log3 := done verbosity log2 in
      let log4 := if (how_many sel <? 1)%nat
                  then log3 ++ warning_no_conformation else log3 in
      mk_searched m1 nc log4 [f] evs true
  | None => mk_searched (sel_m sel) nc log2 [] evs false
  end.

(** [do_search].  The timing it prints to the standard output is left
    out.  Sorting keeps a pool that is not empty not empty; the case in
    which [sort] would return an empty pool is there for totality. *)
Definition do_search (m : model) (ref : option model) (sf : scoring)
    (prec : precalculate) (ig : igrid) (prec_widened : precalculate)
    (ig_widened : igrid) (nc : non_cache) (out_name : string)
    (corner1 corner2 : vec) (par : parallel_mc) (energy_range : fl)
    (num_modes : sz) (seed : Z) (verbosity : Z) (score_only local_only : bool)
    (log : tee) (t : terms) (weights : flv) : searched :=
  let c0 := get_initial_conf m in
  let e0 := max_fl in
  if score_only then
    let '(m1, log1, ok) := score_only_report m sf prec t weights log in
    mk_searched m1 nc log1 [] [Ev_score] ok
  else if local_only then
    let out := mk_output c0 e0 no_coords in
    let log1 := doing verbosity "Performing local search" log in
    let s := fst (refine_structure m prec nc out (ssd_evals par)) in
    let log2 := done verbosity log1 in
    let '(intramolecular_energy, m1) :=
      eval_intramolecular (st_m s) prec (c (st_out s)) in
    let '(e1, m2) :=
      eval_adjusted m1 sf prec (st_nc s) (c (st_out s)) intramolecular_energy in
    let log3 := log2 ++ [L_str "Affinity: "; L_fl 0 5 e1; L_str " (kcal/mol)"; L_endl] in
    let log4 := if negb (within (st_nc s) m2)
                then log3 ++ [L_str (line "WARNING: not all movable atoms are within the search space")]
                else log3 in
    let log5 := doing verbosity "Writing output" log4 in
    match write_all_output m2 [st_out s] 1 out_name [vina_remark e1 0%Q 0%Q] with
    | Some (m3, f) =>
        mk_searched m3 (st_nc s) (done verbosity log5) [f] [Ev_refine nc] true
    | None => mk_searched m2 (st_nc s) log5 [] [Ev_refine nc] false
    end
  else
    let generator := rng_seeded seed in
    let log1 := log ++ [L_str "Using random seed: "; L_int seed; L_endl] in
    let log2 := doing verbosity "Performing search" log1 in
    let '(m1, out_cont1, _) :=
      par_search par m [] prec ig prec_widened ig_widened corner1 corner2 generator in
    let log3 := done verbosity log2 in
    let log4 := doing verbosity "Refining results" log3 in
    let '(m2, nc2, out_cont2, evs) :=
      refine_all m1 prec nc (ssd_evals par) out_cont1 in
    let '(m3, out_cont3) :=
      match out_cont2 with
      | [] => (m2, out_cont2)
      | _ :: _ =>
          match sort out_cont2 with
          | [] => (m2, [])
          | (o0 :: _) as sorted =>
              let '(best_mode_intramolecular_energy, ma) :=
                eval_intramolecular m2 prec (c o0) in
              let '(mb, rescored) :=
                rescore ma sf prec nc2 best_mode_intramolecular_energy sorted in
              (mb, sort rescored)
          end
      end in
    let out_min_rmsd : fl := 1%Q in
    let out_cont4 := remove_redundant out_cont3 out_min_rmsd in
    let log5 := done verbosity log4 in
    report_modes m3 ref nc2 out_cont4 out_name energy_range num_modes
      verbosity log5 (Ev_search ig ig_widened :: evs).

(** *** [main_procedure] *)

(** What [main_procedure] leaves; [o_cache] is its local [cache c] as it
    stands at the end, on the path that constructs one; [o_ok] is false
    when it threw [internal_error]. *)
Record outcome := mk_outcome {
  o_m : model;
  o_log : tee;
  o_files : list out_file;
  o_events : list event;
  o_cache : option cache;
  o_ok : bool
}.

Definition outcome_of (evs : list event) (c : option cache) (s : searched)
  : outcome :=
  mk_outcome (s_m s) (s_log s) (s_files s) (evs ++ s_events s) c (s_ok s).

Definition main_procedure (m : model) (ref : option model)
    (out_name : string)
    (score_only local_only randomize_only no_cache : bool)
    (gd : grid_dims) (exhaustiveness : Z) (weights : flv)
    (cpu seed verbosity : Z) (num_modes : sz) (energy_range : fl)
    (log : tee) : outcome :=
  let log1 := doing verbosity "Setting up the scoring function" log in
  let t := everything in
  if negb (List.length weights =? 6) then mk_outcome m log1 [] [] None false else
  let wt := weighted_terms t weights in
  let prec := mk_precalculate wt in
  let left : fl := (1 # 4)%Q in
  let right : fl := (1 # 4)%Q in
  let prec_widened := widen prec left right in
  let log2 := done verbosity log1 in
  let '(gd0, gd1, gd2) := gd in
  let corner1 : vec := (gd_begin gd0, gd_begin gd1, gd_begin gd2) in
  let corner2 : vec := (gd_end gd0, gd_end gd1, gd_end gd2) in
  let heuristic :=
    to_sz (num_movable_atoms m + to_sz (10 * num_degrees_of_freedom m)) in
  let par :=
    {| num_steps := to_unsigned (to_sz (70 * 3 * to_sz (50 + heuristic)) / 2);
       ssd_evals := to_unsigned (to_sz (25 + num_movable_atoms m) / 3);
       mc_min_rmsd := 1%Q;
       num_saved_mins := 20;
       hunt_cap := (inject_Z 10, inject_Z 10, inject_Z 10);
       num_tasks := exhaustiveness;
       num_threads := cpu;
       display_progress := (1 <? verbosity)%Z |} in
  let slope : fl := inject_Z 1000000 in
  if randomize_only then
    let '(m1, log3, f) :=
      do_randomization m out_name corner1 corner2 seed verbosity log2 in
    mk_outcome m1 log3 [f] [Ev_randomize] None true
  else
    let nc := mk_non_cache gd prec slope in
    let nc_widened := mk_non_cache gd prec_widened slope in
    if no_cache then
      outcome_of [] None
        (do_search m ref wt prec (Ig_non_cache nc) prec_widened
           (Ig_non_cache nc_widened) nc out_name corner1 corner2 par
           energy_range num_modes seed verbosity score_only local_only
           log2 t weights)
    else
      let cache_needed := negb (score_only || randomize_only || local_only) in
      let log3 := if cache_needed
                  then doing verbosity "Analyzing the binding site" log2
                  else log2 in
      let c0 := mk_cache gd slope in
      let c1 := if cache_needed then populate c0 m prec else c0 in
      let evs := if cache_needed then [Ev_populate c0] else [] in
      let log4 := if cache_needed then done verbosity log3 else log3 in
      outcome_of evs (Some c1)
        (do_search m ref wt prec (Ig_cache c1) prec (Ig_cache c1) nc
           out_name corner1 corner2 par energy_range num_modes seed
           verbosity score_only local_only log4 t weights).

End Defs.

End Docking.

(** ** [std::ifstream] over the job file *)

Module Stream.

(** The stream: the bytes of the file, the read position, and the two
    state bits the schedulers look at. *)
Record ifstream := mk_ifstream {
  content : string;
  pos : nat;
  eofbit : bool;
  failbit : bool
}.

(** [std::ifstream infile(name)]: a file that cannot be opened leaves the
    stream failed. *)
Definition open (file : option string) : ifstream :=
  match file with
  | Some s => mk_ifstream s 0 false false
  | None => mk_ifstream EmptyString 0 false true
  end.

Fixpoint drop (n : nat) (s : string) : string :=
  match n, s with
  | S n', String _ s' => drop n' s'
  | _, _ => s
  end.

Definition is_newline (ch : ascii) : bool := Ascii.eqb ch (ascii_of_nat 10).

(** Characters up to the first newline: the line, how many characters
    were extracted (the newline included), and whether the end of the
    file was met before a newline. *)
Fixpoint read_line (s : string) : string * nat * bool :=
  match s with
  | EmptyString => (EmptyString, 0, true)
  | String ch s' =>
      if is_newline ch then (EmptyString, 1, false)
      else let '(l, n, at_end) := read_line s' in (String ch l, S n, at_end)
  end.

(** [std::getline(infile, path)] into a fresh string: on a stream that is
    not good it sets [failbit]; meeting the end of the file sets
    [eofbit], and [failbit] too when nothing was extracted. *)
Definition getline (f : ifstream) : ifstream * string :=
  if eofbit f || failbit f then
    (mk_ifstream (content f) (pos f) (eofbit f) true, EmptyString)
  else
    let '(l, n, at_end) := read_line (drop (pos f) (content f)) in
    (mk_ifstream (content f) (pos f + n) at_end (at_end && (n =? 0)), l).

Definition eof (f : ifstream) : bool := eofbit f.

(** [infile.tellg()]: [-1] on a failed stream (and, since C++11, on one
    that met the end of the file). *)
Definition tellg (f : ifstream) : Z :=
  if eofbit f || failbit f then (-1)%Z else Z.of_nat (pos f).

(** [infile.seekg(off)]: clears [eofbit]; does nothing on a failed
    stream; a negative position fails. *)
Definition seekg (f : ifstream) (off : Z) : ifstream :=
  if failbit f then mk_ifstream (content f) (pos f) false true
  else if (off <? 0)%Z then mk_ifstream (content f) (pos f) false true
  else mk_ifstream (content f) (Z.to_nat off) false false.

(** What is left to read. *)
Definition remaining (f : ifstream) : nat :=
  String.length (drop (pos f) (content f)).

(** [path.find_first_not_of(" \t\n\v\f\r") == std::string::npos] *)
Definition is_blank_char (ch : ascii) : bool :=
  let n := nat_of_ascii ch in
  (n =? 32) || (n =? 9) || (n =? 10) || (n =? 11) || (n =? 12) || (n =? 13).

Fixpoint only_blanks (s : string) : bool :=
  match s with
  | EmptyString => true
  | String ch s' => is_blank_char ch && only_blanks s'
  end.

(** The lines of a file, split at newlines; a final newline ends the last
    line and starts no new one. *)
Fixpoint lines_from (cur : string) (s : string) : list string :=
  match s with
  | EmptyString => if String.eqb cur EmptyString then [] else [cur]
  | String ch s' =>
      if is_newline ch then cur :: lines_from EmptyString s'
      else lines_from (cur ++ String ch EmptyString)%string s'
  end.

Definition lines (s : string) : list string := lines_from EmptyString s.

(** The number of lines with something other than blanks on them. *)
Definition count_non_blank (s : string) : nat :=
  List.length (filter (fun l => negb (only_blanks l)) (lines s)).

End Stream.

(** ** The fork based fan-out of [main] (batch mode without MPI) *)

Module Fork.

Import Stream.

(** What the operating system and the docking decide: the value each
    [fork()] returns in the process that is followed, which outstanding
    child each [wait()] reaps (an index among the children not yet
    reaped, in the order they were forked) and the status it stores, the
    draws of [random_int(1, 100000000, a)], and whether docking a ligand
    ends in an exception. *)
Record fork_oracle := mk_fork_oracle {
  fork_result : nat -> Z;
  wait_choice : nat -> nat;
  wait_status : nat -> Z;
  random_int : nat -> Z;
  dock_throws : string -> bool
}.

Inductive sched_event :=
| Forked (pid : Z) (path : string)
| Pushed (queue : list Z)             (* the queue after push *)
| Waited (reaped : Z) (queue : list Z) (* what wait() returned, the queue it was called with *)
| Popped (queue : list Z)             (* the queue after pop *)
| Docked (path outname : string) (seed : Z)
| End_of_file.

(** How the loop is left. *)
Inductive exit :=
| Parent_done         (* the job file is exhausted *)
| Child_done          (* the forked child, after its one docking *)
| Fork_failed         (* return 10 *)
| Out_of_fuel.

Record sched := mk_sched {
  infile : ifstream;
  i : Z;
  pid_queue : list Z;       (* front first *)
  children : list Z;        (* forked and not yet reaped, oldest first *)
  n_fork : nat;
  n_wait : nat;
  n_rand : nat;
  trace : list sched_event
}.

Fixpoint remove_nth {A : Type} (k : nat) (l : list A) : list A :=
  match k, l with
  | _, [] => []
  | 0, _ :: l' => l'
  | S k', x :: l' => x :: remove_nth k' l'
  end.

(** [wait(&status)]: blocks until any one child has terminated and reaps
    it; returns its pid and stores its status.  Without children it
    returns [-1] at once and stores nothing. *)
Definition wait (o : fork_oracle) (n : nat) (children : list Z)
  : Z * option Z * list Z :=
  match children with
  | [] => ((-1)%Z, None, [])
  | _ :: _ =>
      let k := wait_choice o n mod List.length children in
      (nth k children 0%Z, Some (wait_status o n), remove_nth k children)
  end.

(** [wait(&(pid_queue.front())); pid_queue.pop();] on a queue that is not
    empty: the status is written over the front entry, which is then
    removed. *)
Definition wait_and_pop (o : fork_oracle) (s : sched) : sched :=
  let '(reaped, status, children') := wait o (n_wait s) (children s) in
  let overwritten :=
    match status, pid_queue s with
    | Some st, _ :: rest => st :: rest
    | _, q => q
    end in
  let popped := tl overwritten in
  mk_sched (infile s) (i s) popped children' (n_fork s) (S (n_wait s))
    (n_rand s) (trace s ++ [Waited reaped (pid_queue s); Popped popped]).

(** [while(use_fork_parallelism == true && pid_queue.size() != 0) { wait; pop }];
    [k] bounds the passes by the length of the queue. *)
Fixpoint drain (o : fork_oracle) (use_fork_parallelism : bool) (k : nat)
    (s : sched) : sched :=
  match k with
  | 0 => s
  | S k' =>
      if use_fork_parallelism && negb (List.length (pid_queue s) =? 0)
      then drain o use_fork_parallelism k' (wait_and_pop o s)
      else s
  end.

(** [path.substr(path.find_last_of("/\\") + 1)] *)
Fixpoint base_from (cur s : string) : string :=
  match s with
  | EmptyString => cur
  | String ch s' =>
      if Ascii.eqb ch "/"%char || Ascii.eqb ch (ascii_of_nat 92)
      then base_from EmptyString s'
      else base_from (cur ++ String ch EmptyString)%string s'
  end.

Definition base_filename (path : string) : string :=
  base_from EmptyString path.

Definition outname (batch_out path : string) : string :=
  (batch_out ++ "/" ++ base_filename path ++ ".out.pdbqt")%string.

Definition log_event (s : sched) (ev : list sched_event) : sched :=
  mk_sched (infile s) (i s) (pid_queue s) (children s) (n_fork s)
    (n_wait s) (n_rand s) (trace s ++ ev).

(** The [while(true)] loop of the batch mode.  [fuel] bounds the number
    of passes; the loop is run with more fuel than the file has bytes. *)
Fixpoint scheduler (o : fork_oracle) (use_fork_parallelism : bool)
    (maxNbrOfFork : Z) (batch_out : string) (fuel : nat) (s : sched)
  : exit * sched :=
  match fuel with
  | 0 => (Out_of_fuel, s)
  | S fuel' =>
      let '(infile1, path) := getline (infile s) in
      let s1 := mk_sched infile1 (i s) (pid_queue s) (children s)
                  (n_fork s) (n_wait s) (n_rand s) (trace s) in
      if eof infile1 || String.eqb path EmptyString then
        let s2 := log_event s1 [End_of_file] in
        (Parent_done,
         drain o use_fork_parallelism (List.length (pid_queue s2)) s2)
      else
        let seed := random_int o (S (n_rand s1)) in
        let s2 := mk_sched infile1 (i s1) (pid_queue s1) (children s1)
                    (n_fork s1) (n_wait s1) (2 + n_rand s1) (trace s1) in
        let dock (s : sched) :=
          log_event s [Docked path (outname batch_out path) seed] in
        if use_fork_parallelism then
          let pid := fork_result o (n_fork s2) in
          let s3 := mk_sched infile1 (i s2) (pid_queue s2) (children s2)
                      (S (n_fork s2)) (n_wait s2) (n_rand s2) (trace s2) in
          if (pid =? 0)%Z then
            (* the child: one docking, then out of the loop *)
            (Child_done, dock s3)
          else if (0 <? pid)%Z then
            let q := pid_queue s3 ++ [pid] in
            let s4 := mk_sched infile1 (i s3) q (children s3 ++ [pid])
                        (n_fork s3) (n_wait s3) (n_rand s3)
                        (trace s3 ++ [Forked pid path; Pushed q]) in
            let s5 := if (to_sz maxNbrOfFork <=? Z.of_nat (List.length q))%Z
                      then wait_and_pop o s4 else s4 in
            scheduler o use_fork_parallelism maxNbrOfFork batch_out fuel' s5
          else
            (Fork_failed, s3)
        else
          let s3 := dock s2 in
          if dock_throws o path then
            scheduler o use_fork_parallelism maxNbrOfFork batch_out fuel' s3
          else
            scheduler o use_fork_parallelism maxNbrOfFork batch_out fuel'
              (mk_sched (infile s3) (to_int (i s3 + 1)) (pid_queue s3)
                 (children s3) (n_fork s3) (n_wait s3) (n_rand s3) (trace s3))
      end.

(** The batch mode of [main] up to the end of its loop. *)
Definition run (o : fork_oracle) (use_fork_parallelism : bool) (forknbr : Z)
    (batch_out : string) (job_file : option string) : exit * sched :=
  let f := open job_file in
  scheduler o use_fork_parallelism forknbr batch_out
    (S (String.length (content f)))
    (mk_sched f 0 [] [] 0 0 0 []).





(** A run of the environment: the children get the pids 101, 102, ...;
    each [wait()] reaps the second of the outstanding children when
    there are two or more (the younger one finishes first). *)
Definition younger_first : fork_oracle :=
  mk_fork_oracle (fun n => 101 + Z.of_nat n)%Z (fun _ => 1) (fun _ => 0%Z)
    (fun n => 1 + Z.of_nat n)%Z (fun _ => false).

End Fork.

(** ** The MPI governor/worker farm of [main] *)

Module Farm.

Import Stream.

(** [run_param]: the three [int]s of an assignment. *)
Record run_param := mk_run_param {
  random_seed : Z;
  seek_offset : Z;
  ligand_nbr : Z
}.

(** What the environment decides for the governor: the rank each
    [MPI_Recv(MPI_ANY_SOURCE)] hears from, the draws of
    [random_int(1, 100000000, a)], and the two [int]s of [end_code] that
    are never initialised. *)
Record farm_oracle := mk_farm_oracle {
  ready_source : nat -> nat;
  gov_random_int : nat -> Z;
  uninitialised : nat -> Z
}.

Inductive gov_event :=
| G_recv (src : nat)                    (* a ready message *)
| G_send (dest : nat) (p : run_param).  (* MPI_Isend or MPI_Send *)

(** The data-bound [while(true)] loop of the governor; [n] counts its
    passes, [fuel] bounds them. *)
Fixpoint governor_loop (o : farm_oracle) (fuel : nat) (infile : ifstream)
    (count : Z) (n : nat) (tr : list gov_event)
  : option (ifstream * Z * list gov_event) :=
  match fuel with
  | 0 => None
  | S fuel' =>
      let gseed := gov_random_int o (S n) in
      let seek_offset := to_int (tellg infile) in
      let ligand_nbr := count in
      let worker_idx := ready_source o n in
      let tr1 := tr ++ [G_recv worker_idx;
                        G_send worker_idx
                          (mk_run_param gseed seek_offset ligand_nbr)] in
      let '(infile1, path) := getline infile in
      let count1 := to_int (count + 1) in
      if eof infile1 || String.eqb path EmptyString || only_blanks path
      then Some (infile1, count1, tr1)
      else governor_loop o fuel' infile1 count1 (S n) tr1
  end.

(** [end_code]: only its offset is set. *)
Definition end_code (o : farm_oracle) : run_param :=
  mk_run_param (uninitialised o 0) (-1) (uninitialised o 1).

(** [for(int j = 1; j < rank_list.size(); j++) { MPI_Recv from j; MPI_Send end_code to j }] *)
Definition governor_drain (o : farm_oracle) (world_size : nat) : list gov_event :=
  flat_map (fun j => [G_recv j; G_send j (end_code o)])
    (seq 1 (world_size - 1)).

(** Rank 0 of a run with at least two ranks. *)
Definition governor (o : farm_oracle) (world_size : nat)
    (job_file : option string) : option (list gov_event) :=
  let f := open job_file in
  match governor_loop o (S (String.length (content f))) f 0 0 [] with
  | Some (_, _, tr) => Some (tr ++ governor_drain o world_size)
  | None => None
  end.

(** What the governor sent, and to one rank. *)
Fixpoint sends (tr : list gov_event) : list (nat * run_param) :=
  match tr with
  | [] => []
  | G_send dest p :: tr' => (dest, p) :: sends tr'
  | G_recv _ :: tr' => sends tr'
  end.

Definition is_sentinel (p : run_param) : bool := (seek_offset p =? -1)%Z.

Definition assignments (tr : list gov_event) : list (nat * run_param) :=
  filter (fun dp => negb (is_sentinel (snd dp))) (sends tr).

Definition sentinels (tr : list gov_event) : list (nat * run_param) :=
  filter (fun dp => is_sentinel (snd dp)) (sends tr).

Definition inbox (rank : nat) (tr : list gov_event) : list run_param :=
  map snd (filter (fun dp => fst dp =? rank) (sends tr)).

(** The worker. *)
Inductive worker_event :=
| W_ready (local_processed_counter : Z)   (* MPI_Send to the governor *)
| W_recv (p : run_param)
| W_dock (path outname : string) (seed : Z).

Inductive worker_exit :=
| W_finished          (* left the loop on the end signal *)
| W_waiting           (* blocked in MPI_Recv: nothing more was sent *)
| W_no_file.          (* return -1: the job file could not be opened *)

(** The [while(true)] loop of a worker over the messages the governor
    sends it, in the order they were sent.  Returns how the loop ended,
    what the worker did, and the messages it never received. *)
Fixpoint worker_loop (batch_out : string) (inbox : list run_param)
    (infile : ifstream) (local_processed_counter : Z)
    (tr : list worker_event)
  : worker_exit * list worker_event * list run_param :=
  match inbox with
  | [] => (W_waiting, tr ++ [W_ready local_processed_counter], [])
  | recv :: rest =>
      let tr1 := tr ++ [W_ready local_processed_counter; W_recv recv] in
      if (seek_offset recv =? -1)%Z then (W_finished, tr1, rest)
      else
        let infile1 := seekg infile (seek_offset recv) in
        let '(infile2, path) := getline infile1 in
        let tr2 := tr1 ++ [W_dock path (Fork.outname batch_out path)
                             (random_seed recv)] in
        worker_loop batch_out rest infile2
          (to_int (local_processed_counter + 1)) tr2
  end.

Definition worker (batch_out : string) (job_file : option string)
    (inbox : list run_param)
  : worker_exit * list worker_event * list run_param :=
  match job_file with
  | None => (W_no_file, [], inbox)
  | Some _ => worker_loop batch_out inbox (open job_file) 0 []
  end.

(** A job file as it is usually written: one ligand path per line, each
    line ended by a newline. *)
Fixpoint job_lines (paths : list string) : string :=
  match paths with
  | [] => EmptyString
  | p :: paths' => (p ++ nl ++ job_lines paths')%string
  end.

Fixpoint no_newline (s : string) : bool :=
  match s with
  | EmptyString => true
  | String ch s' => negb (is_newline ch) && no_newline s'
  end.

(** A ligand path: no newline in it, and something other than blanks. *)
Definition ligand_path (p : string) : Prop :=
  no_newline p = true /\ only_blanks p = false.

(** A run of the environment with one worker (rank 1). *)
Definition one_worker : farm_oracle :=
  mk_farm_oracle (fun _ => 1) (fun n => 1 + Z.of_nat n)%Z (fun _ => 0%Z).

End Farm.

(** ** A small instance

    One movable atom on a line and a search box [-5, 5]: a conformation
    is the coordinate of the atom.  The minimizer brings an atom that
    starts below 100 to the edge of the box once the slope has reached
    10^6, and leaves any other where it is. *)

Module Example.

Import Docking.

#[export] Instance line_types : Types := {|
  model := Z;
  conf := Z;
  change := unit;
  vecv := Z;
  precalculate := unit;
  scoring := unit;
  terms := unit;
  cache := bool;
  rng := Z
|}.

Definition dbl_max : fl := inject_Z (2 ^ 1024 - 2 ^ 971).

Definition minimize (max_steps : Z) (prec : unit) (s : state) : state :=
  let x := c (st_out s) in
  let x' := if (Z.abs x <? 100)%Z && fl_ge (slope (st_nc s)) (inject_Z (10 ^ 6))
            then Z.max (-5) (Z.min x 5) else x in
  mk_state x' (st_nc s) (mk_output x' (inject_Z (x' * x')) (coords (st_out s)))
    (st_g s).

Fixpoint insert_by_e (o : output_type) (l : output_container)
  : output_container :=
  match l with
  | [] => [o]
  | o' :: l' => if Qle_bool (e o) (e o') then o :: l else o' :: insert_by_e o l'
  end.

Definition sort_by_e (l : output_container) : output_container :=
  fold_right insert_by_e [] l.

(** What the search of the instance finds, whatever it is given: four
    candidates, at the coordinates 50, 200, 3 and 4. *)
Definition found : output_container :=
  [mk_output 50%Z 0%Q 0%Z; mk_output 200%Z 0%Q 0%Z;
   mk_output 3%Z 0%Q 0%Z; mk_output 4%Z 0%Q 0%Z].

#[export] Instance line_collab : Collab := {|
  max_fl := dbl_max;
  not_max := fun x => fl_lt x ((1 # 10) * dbl_max)%Q;
  quasi_newton_par := minimize;
  model_set := fun _ x => x;
  get_heavy_atom_movable_coords := fun m => m;
  get_initial_conf := fun m => m;
  no_coords := 0%Z;
  change_zero := fun _ => tt;
  num_movable_atoms := fun _ => 1%Z;
  num_degrees_of_freedom := fun _ => 1%Z;
  clash_penalty := fun _ => 0%Q;
  eval_intramolecular := fun m _ _ => (0%Q, m);
  eval_adjusted := fun m _ _ _ x _ => (inject_Z (x * x), x);
  rmsd_lower_bound := fun m r => inject_Z (Z.abs (m - r));
  rmsd_upper_bound := fun m r => inject_Z (Z.abs (m - r));
  within := fun _ m => (Z.abs m <=? 5)%Z;
  conf_randomize := fun x _ _ g => (x, g);
  rng_seeded := fun seed => seed;
  par_search := fun _ m out _ _ _ _ _ _ g => (m, out ++ found, g);
  sort := sort_by_e;
  rmsd := fun u v => inject_Z (Z.abs (u - v));
  score_only_report := fun m _ _ _ _ log => (m, log, true);
  everything := tt;
  weighted_terms := fun _ _ => tt;
  mk_precalculate := fun _ => tt;
  widen := fun p _ _ => p;
  mk_cache := fun _ _ => false;
  populate := fun _ _ _ => true
|}.

(** A pose at coordinate [x] with energy [en]. *)
Definition pose (x : Z) (en : Z) : output_type :=
  mk_output x (inject_Z en) x.

Definition box : grid_dims :=
  let d := mk_grid_dim (inject_Z (-5)) (inject_Z 5) 27 in (d, d, d).

Definition evaluator : non_cache := mk_non_cache box tt (inject_Z 1000000).

(** Three [double]s: 0.1, 0.2 and 0.30000000000000004, the [double]
    next above 0.3. *)
Definition tenth : fl := (3602879701896397 # 36028797018963968)%Q.
Definition fifth : fl := (3602879701896397 # 18014398509481984)%Q.
Definition above_three_tenths : fl :=
  (5404319552844596 # 18014398509481984)%Q.

End Example.

(** ** The command line of [main]: the default output name and the
       occurrence of options *)

Module Options.

(** [default_output]: the input name, without a final [.pdbqt], followed
    by [_out.pdbqt]. *)
Definition default_output (input_name : string) : string :=
  let tmp := input_name in
  let tmp :=
    if (6 <=? String.length tmp)%nat
       && String.eqb (substring (String.length tmp - 6) 6 tmp) ".pdbqt"
    then substring 0 (String.length tmp - 6) tmp   (* tmp.resize(tmp.size() - 6) *)
    else tmp in
  (tmp ++ "_out.pdbqt")%string.

(** [options_occurrence], with its default constructor and [operator+=]. *)
Record options_occurrence := mk_occurrence {
  some : bool;
  all : bool
}.

Definition no_occurrence : options_occurrence := mk_occurrence false true.

Definition plus (o x : options_occurrence) : options_occurrence :=
  mk_occurrence (some o || some x) (all o && all x).

(** The variables map, by what [vm.count(name)] returns, and an options
    description, by the long names of its options. *)
Definition variables_map : Type := string -> nat.

Definition options_description : Type := list string.

(** The loop of [get_occurrence] over the options from index [i] on. *)
Fixpoint get_occurrence_from (vm : variables_map) (d : options_description)
    (tmp : options_occurrence) : options_occurrence :=
  match d with
  | [] => tmp
  | name :: d' =>
      if negb (vm name =? 0)%nat
      then get_occurrence_from vm d' (mk_occurrence true (all tmp))
      else get_occurrence_from vm d' (mk_occurrence (some tmp) false)
  end.

Definition get_occurrence (vm : variables_map) (d : options_description)
  : options_occurrence :=
  get_occurrence_from vm d no_occurrence.

(** [check_occurrence]: what it writes to [std::cerr], one item per
    [<<]. *)
Fixpoint check_occurrence (vm : variables_map) (d : options_description)
  : list string :=
  match d with
  | [] => []
  | str :: d' =>
      if (vm str =? 0)%nat
      then ["Required parameter --"; str; line " is missing!"]%string
           ++ check_occurrence vm d'
      else check_occurrence vm d'
  end.

End Options.

(** ** The attempts of [do_randomization] *)

Module Randomization.

Import Docking.

Section Defs.

Context {T : Types} {K : Collab}.

(** The conformations [do_randomization] draws in [n] passes of its
    loop, each with the clash penalty of the model set to it. *)
Fixpoint randomized (init_conf : conf) (corner1 corner2 : vec) (n : nat)
    (m : model) (generator : rng) : list (conf * fl) :=
  match n with
  | 0 => []
  | S n' =>
      let '(c1, generator1) :=
        conf_randomize init_conf corner1 corner2 generator in
      let m1 := model_set m c1 in
      (c1, clash_penalty m1)
      :: randomized init_conf corner1 corner2 n' m1 generator1
  end.

End Defs.

End Randomization.

(** ** What a batch run shows: forks, dockings, lines of the job file *)

Module Batch.

Import Stream Fork.

(** The forks and the dockings a trace shows, in order. *)
Definition fork_of (ev : sched_event) : list (Z * string) :=
  match ev with
  | Forked pid path => [(pid, path)]
  | _ => []
  end.

Definition forks (tr : list sched_event) : list (Z * string) :=
  flat_map fork_of tr.

Definition docking_of (ev : sched_event) : list (string * string * Z) :=
  match ev with
  | Docked path outname seed => [(path, outname, seed)]
  | _ => []
  end.

Definition dockings (tr : list sched_event) : list (string * string * Z) :=
  flat_map docking_of tr.

(** A line the loop of the batch mode takes for a ligand: it is not
    empty (blanks count). *)
Definition job_line (p : string) : Prop :=
  Farm.no_newline p = true /\ p <> EmptyString.

(** The lines of a job file with their numbers, counted from [a]. *)
Definition numbered_from {A : Type} (a : nat) (l : list A) : list (nat * A) :=
  combine (seq a (List.length l)) l.

(** A good stream that stands after [pre], with [tail] left to read. *)
Definition at_line (f : ifstream) (pre tail : string) : Prop :=
  f = mk_ifstream (pre ++ tail) (String.length pre) false false.

(** Two states of the loop that differ at most in the stream. *)
Definition same_but_infile (s1 s2 : sched) : Prop :=
  i s1 = i s2 /\ pid_queue s1 = pid_queue s2 /\ children s1 = children s2 /\
  n_fork s1 = n_fork s2 /\ n_wait s1 = n_wait s2 /\ n_rand s1 = n_rand s2 /\
  trace s1 = trace s2.

(** Two runs of the environment: the process that is followed is the
    parent at the first [fork] and the child at the second; and the
    second [fork] fails. *)
Definition second_child : fork_oracle :=
  mk_fork_oracle (fun n => if (n =? 1)%nat then 0 else 101 + Z.of_nat n)%Z
    (fun _ => 0%nat) (fun _ => 0%Z) (fun n => 1 + Z.of_nat n)%Z
    (fun _ => false).

Definition second_fork_fails : fork_oracle :=
  mk_fork_oracle (fun n => if (n =? 1)%nat then -1 else 101 + Z.of_nat n)%Z
    (fun _ => 0%nat) (fun _ => 0%Z) (fun n => 1 + Z.of_nat n)%Z
    (fun _ => false).

(** The characters [find_last_of] looks for in a path. *)
Definition is_sep (ch : ascii) : bool :=
  Ascii.eqb ch "/"%char || Ascii.eqb ch (ascii_of_nat 92).

Fixpoint no_sep (s : string) : bool :=
  match s with
  | EmptyString => true
  | String ch s' => negb (is_sep ch) && no_sep s'
  end.

End Batch.

(** ** What the farm does with the lines of a job file *)

Module Assign.

Import Stream Farm.

(** Where line [j] of a job file starts: the bytes of the lines before
    it, each with its newline. *)
Definition line_offset (paths : list string) (j : nat) : Z :=
  Z.of_nat (String.length (job_lines (firstn j paths))).

(** Pass [j] of the data-bound loop of the governor over such a file:
    the request it hears and the assignment it answers with. *)
Definition data_pass (o : farm_oracle) (paths : list string) (j : nat)
  : list gov_event :=
  [G_recv (ready_source o j);
   G_send (ready_source o j)
     (mk_run_param (gov_random_int o (S j)) (line_offset paths j)
        (Z.of_nat j))].

(** The dockings a worker did, in order. *)
Definition dock_of (ev : worker_event) : list (string * string * Z) :=
  match ev with
  | W_dock path outname seed => [(path, outname, seed)]
  | _ => []
  end.

Definition docks (tr : list worker_event) : list (string * string * Z) :=
  flat_map dock_of tr.

(** The passes of the governor at which it heard from [rank]. *)
Definition passes_of (o : farm_oracle) (rank : nat) (k : nat) : list nat :=
  filter (fun j => ready_source o j =? rank)%nat (seq 0 (S k)).

End Assign.

(** * Statements and proofs *)

(** ** Comparisons on [fl] *)

Lemma fl_lt_true x y : fl_lt x y = true <-> (x < y)%Q.
Proof.
  unfold fl_lt. rewrite negb_true_iff. split.
  - intros H. apply Qnot_le_lt. intros Hle.
    apply Qle_bool_iff in Hle. congruence.
  - intros H. destruct (Qle_bool y x) eqn:E; [|reflexivity].
    apply Qle_bool_iff in E. exfalso. exact (Qlt_not_le _ _ H E).
Qed.

Lemma fl_lt_false x y : fl_lt x y = false <-> (y <= x)%Q.
Proof.
  unfold fl_lt. rewrite negb_false_iff. apply Qle_bool_iff.
Qed.

Lemma fl_ge_true x y : fl_ge x y = true <-> (y <= x)%Q.
Proof. unfold fl_ge. apply Qle_bool_iff. Qed.

Lemma fl_ge_false x y : fl_ge x y = false <-> (x < y)%Q.
Proof.
  unfold fl_ge. split.
  - intros H. apply Qnot_le_lt. intros Hle.
    apply Qle_bool_iff in Hle. congruence.
  - intros H. destruct (Qle_bool y x) eqn:E; [|reflexivity].
    apply Qle_bool_iff in E. exfalso. exact (Qlt_not_le _ _ H E).
Qed.

(** ** The annealed refinement *)

Module RefineFacts.

Import Docking.

Section Facts.

Context {T : Types} {K : Collab}.

Variables (max_steps : Z) (prec : precalculate).

Local Abbreviation pass := (Docking.pass max_steps prec).

Lemma anneal_cons p ps s :
  anneal max_steps prec (p :: ps) s =
  if a_within (pass p s) then (a_end (pass p s), [pass p s])
  else (fst (anneal max_steps prec ps (a_end (pass p s))),
        pass p s :: snd (anneal max_steps prec ps (a_end (pass p s)))).
Proof.
  cbn [anneal]. unfold pass, call_state. cbn [a_within a_end].
  destruct (within _ _); [reflexivity|].
  destruct (anneal _ _ _ _); reflexivity.
Qed.

Lemma anneal_length n p0 s :
  (List.length (snd (anneal max_steps prec (seq p0 n) s)) <= n)%nat.
Proof.
  revert p0 s. induction n as [|n IH]; intros p0 s.
  - cbn. lia.
  - cbn [seq]. rewrite anneal_cons.
    destruct (a_within (pass p0 s)); cbn [snd List.length].
    + lia.
    + specialize (IH (S p0) (a_end (pass p0 s))). lia.
Qed.

Lemma anneal_nonempty n p0 s :
  snd (anneal max_steps prec (seq p0 (S n)) s) <> [].
Proof.
  cbn [seq]. rewrite anneal_cons.
  destruct (a_within (pass p0 s)); cbn [snd]; discriminate.
Qed.

(** Every recorded pass is the loop body run at its index, on the state
    the previous pass left; the trace ends at the first pass whose
    [within] test succeeds. *)
Lemma anneal_nth n p0 s i a :
  nth_error (snd (anneal max_steps prec (seq p0 n) s)) i = Some a ->
  exists s0,
    a = pass (p0 + i) s0 /\
    (i = 0%nat -> s0 = s) /\
    (forall j b, i = S j ->
       nth_error (snd (anneal max_steps prec (seq p0 n) s)) j = Some b ->
       s0 = a_end b /\ a_within b = false) /\
    (a_within a = true ->
       List.length (snd (anneal max_steps prec (seq p0 n) s)) = S i) /\
    (a_within a = false -> (S i < n)%nat ->
       (S i < List.length (snd (anneal max_steps prec (seq p0 n) s)))%nat).
Proof.
  revert p0 s i a. induction n as [|n IH]; intros p0 s i a.
  - cbn. destruct i; discriminate.
  - cbn [seq]. rewrite anneal_cons.
    destruct (a_within (pass p0 s)) eqn:W; cbn [snd].
    + destruct i as [|i]; cbn [nth_error].
      * intros [= <-]. exists s. rewrite Nat.add_0_r.
        repeat split; try congruence; try discriminate.
      * destruct i; discriminate.
    + destruct i as [|i]; cbn [nth_error].
      * intros [= <-]. exists s. rewrite Nat.add_0_r.
        repeat split; try congruence; try discriminate.
        intros _ Hn. cbn [List.length].
        destruct n as [|n]; [lia|].
        pose proof (anneal_nonempty n (S p0) (a_end (pass p0 s))) as Hne.
        destruct (snd (anneal max_steps prec (seq (S p0) (S n)) _));
          [congruence | cbn; lia].
      * intros Hi. destruct (IH (S p0) _ i a Hi) as (s0 & Ha & H0 & Hprev & Ht & Hf).
        exists s0. replace (p0 + S i)%nat with (S p0 + i)%nat by lia.
        split; [exact Ha|]. split; [discriminate|].
        split; [|split].
        -- intros j b [= <-] Hb. destruct i as [|i].
           ++ cbn in Hb. injection Hb as <-. split; [auto | exact W].
           ++ cbn [nth_error] in Hb. apply (Hprev i b eq_refl Hb).
        -- intros Hw. cbn [List.length]. rewrite (Ht Hw). reflexivity.
        -- intros Hw Hlt. cbn [List.length].
           assert (S i < n)%nat as Hlt' by lia. specialize (Hf Hw Hlt'). lia.
Qed.

(** The state the loop leaves is the one its last pass left, and the
    [within] test after the loop sees what that pass saw. *)
Lemma anneal_last n p0 s :
  exists a,
    nth_error (snd (anneal max_steps prec (seq p0 (S n)) s))
      (List.length (snd (anneal max_steps prec (seq p0 (S n)) s)) - 1)
      = Some a /\
    fst (anneal max_steps prec (seq p0 (S n)) s) = a_end a /\
    within (st_nc (a_end a)) (st_m (a_end a)) = a_within a.
Proof.
  revert p0 s. induction n as [|n IH]; intros p0 s.
  - cbn [seq]. rewrite anneal_cons.
    destruct (a_within (pass p0 s)) eqn:W; cbn; exists (pass p0 s); auto.
  - remember (S n) as k. cbn [seq]. rewrite anneal_cons. subst k.
    destruct (a_within (pass p0 s)) eqn:W; cbn [fst snd List.length].
    + exists (pass p0 s). cbn. auto.
    + destruct (IH (S p0) (a_end (pass p0 s))) as (a & Hn & Hf & Hw).
      exists a. split; [|auto].
      pose proof (anneal_nonempty n (S p0) (a_end (pass p0 s))) as Hne.
      destruct (snd (anneal max_steps prec (seq (S p0) (S n)) _)) as [|b l] eqn:E;
        [congruence|].
      cbn [List.length] in *. replace (S (S (List.length l)) - 1)%nat
        with (S (S (List.length l) - 1)) by lia.
      exact Hn.
Qed.

Lemma refine_structure_eq m nc out :
  refine_structure m prec nc out max_steps =
  let r := anneal max_steps prec (seq 0 5) (mk_state m nc out (change_zero m)) in
  (mk_state (st_m (fst r)) (set_slope (st_nc (fst r)) (slope nc))
     (if negb (within (st_nc (fst r)) (st_m (fst r)))
      then set_e (set_coords (st_out (fst r))
                    (get_heavy_atom_movable_coords (st_m (fst r)))) max_fl
      else set_coords (st_out (fst r))
             (get_heavy_atom_movable_coords (st_m (fst r))))
     (st_g (fst r)),
   snd r).
Proof.
  unfold refine_structure. destruct (anneal _ _ _ _); reflexivity.
Qed.

Lemma anneal_slope_values p :
  (p < 5)%nat -> anneal_slope p = inject_Z (100 * 10 ^ (2 * Z.of_nat p)).
Proof.
  intros Hp.
  destruct p as [|[|[|[|[|p]]]]]; try reflexivity. lia.
Qed.

Example anneal_slopes :
  map anneal_slope (seq 0 5)
  = map inject_Z [100; 10 ^ 4; 10 ^ 6; 10 ^ 8; 10 ^ 10]%Z.
Proof. reflexivity. Qed.

(** C1.  Whatever [refine_structure] is called with, and however its loop
    is left (at the first pass, by the [break] of a later pass, or after
    the fifth pass with the energy overwritten), the slope of the
    [non_cache] evaluator after the call is its slope before the call. *)
Theorem refine_structure_restores_slope m nc out :
  slope (st_nc (fst (refine_structure m prec nc out max_steps))) = slope nc.
Proof.
  rewrite refine_structure_eq. reflexivity.
Qed.

(** C8.  The passes of the annealing loop of [refine_structure], by their
    index [p]: there are between one and five; pass [p] runs the
    minimizer with the slope set to 100 * 10^(2p), starting from the
    arguments of the call for [p = 0] and from the state the pass before
    left otherwise, a pass that is entered only if the [within] test of
    the pass before failed; the model is then set to the conformation
    the minimizer returned; and the pass after which [within] holds is the
    last one, while a pass before the fifth after which it fails is
    followed by another. *)
Theorem refine_structure_attempts m nc out :
  let tr := snd (refine_structure m prec nc out max_steps) in
  (1 <= List.length tr <= 5)%nat /\
  forall p a, nth_error tr p = Some a ->
    a_p a = p /\
    slope (st_nc (a_call a)) = inject_Z (100 * 10 ^ (2 * Z.of_nat p)) /\
    a_ret a = quasi_newton_par max_steps prec (a_call a) /\
    a_end a = with_m (a_ret a) (model_set (st_m (a_ret a)) (c (st_out (a_ret a)))) /\
    a_within a = within (st_nc (a_end a)) (st_m (a_end a)) /\
    (p = 0%nat ->
       a_call a = call_state 0 (mk_state m nc out (change_zero m))) /\
    (forall q b, p = S q -> nth_error tr q = Some b ->
       a_call a = call_state p (a_end b) /\ a_within b = false) /\
    (a_within a = true -> List.length tr = S p) /\
    (a_within a = false -> (p < 4)%nat -> (S p < List.length tr)%nat).
Proof.
  rewrite refine_structure_eq. cbn [snd].
  set (s0 := mk_state m nc out (change_zero m)).
  pose proof (anneal_length 5 0 s0) as Hlen.
  pose proof (anneal_nonempty 4 0 s0) as Hne.
  split.
  - destruct (snd (anneal max_steps prec (seq 0 5) s0)); [congruence|].
    cbn [List.length] in *. lia.
  - intros p a Hp.
    assert (p < 5)%nat as Hp5.
    { assert (nth_error (snd (anneal max_steps prec (seq 0 5) s0)) p <> None)
        as Hs by congruence.
      apply nth_error_Some in Hs. lia. }
    destruct (anneal_nth 5 0 s0 p a Hp) as (s1 & Ha & H0 & Hprev & Ht & Hf).
    cbn [Nat.add] in Ha. subst a. cbn [a_p a_call a_ret a_end a_within pass].
    repeat split.
    + unfold call_state. cbn. apply anneal_slope_values. exact Hp5.
    + intros ->. rewrite (H0 eq_refl). reflexivity.
    + destruct (Hprev q b H H1) as [-> _]. reflexivity.
    + destruct (Hprev q b H H1) as [_ Hb]. exact Hb.
    + exact Ht.
    + intros Hw Hlt. apply Hf; [exact Hw | lia].
Qed.

(** When every pass of the loop fails its [within] test, the energy of
    the pose is overwritten with [max_fl]. *)
Lemma refine_structure_rejects m nc out :
  Forall (fun a => a_within a = false)
    (snd (refine_structure m prec nc out max_steps)) ->
  e (st_out (fst (refine_structure m prec nc out max_steps))) = max_fl.
Proof.
  rewrite refine_structure_eq. cbn [fst snd].
  set (s0 := mk_state m nc out (change_zero m)).
  intros Hall.
  destruct (anneal_last 4 0 s0) as (a & Hn & Hfst & Hw).
  rewrite Forall_forall in Hall.
  specialize (Hall a (nth_error_In _ _ Hn)).
  rewrite Hfst, Hw, Hall. reflexivity.
Qed.

End Facts.

End RefineFacts.

(** ** The selection of the modes that are written *)

Module SelectFacts.

Import Docking.

Section Facts.

Context {T : Types} {K : Collab}.

Variables (out_cont : output_container) (ref : option model)
  (best_mode_model : model) (num_modes : sz) (energy_range : fl).

Local Abbreviation select :=
  (select_modes out_cont ref best_mode_model num_modes energy_range).

Local Abbreviation stop := (stop_selecting out_cont num_modes energy_range).

(** The loop, from index [i] on, with [how_many = i] on entry: it takes
    the first [k] poses of what is left, none of which meets the stop
    test, and the pose after them, if there is one, meets it. *)
Lemma select_modes_spec rest :
  forall i s, how_many s = i ->
  exists k,
    (k <= List.length rest)%nat /\
    how_many (select i rest s) = (i + k)%nat /\
    List.length (remarks (select i rest s)) = (List.length (remarks s) + k)%nat /\
    (forall j o, (j < k)%nat -> nth_error rest j = Some o ->
       stop (i + j)%nat o = false /\
       exists lb ub,
         nth_error (remarks (select i rest s)) (List.length (remarks s) + j)
         = Some (vina_remark (e o) lb ub)) /\
    (forall o, nth_error rest k = Some o -> stop (i + k)%nat o = true) /\
    (forall j r, (j < List.length (remarks s))%nat ->
       nth_error (remarks s) j = Some r ->
       nth_error (remarks (select i rest s)) j = Some r) /\
    (k = 0%nat -> select i rest s = s).
Proof.
  induction rest as [|o rest IH]; intros i s Hi.
  - exists 0%nat. cbn.
    split; [lia|]. split; [lia|]. split; [lia|].
    split; [intros j o' Hj; lia|].
    split; [intros o' Ho; discriminate|].
    split; auto.
  - cbn [select_modes]. destruct (stop_selecting _ _ _ (how_many s) o) eqn:St.
    + exists 0%nat. cbn [List.length].
      split; [lia|]. split; [lia|]. split; [lia|].
      split; [intros j o' Hj; lia|].
      split; [|split; auto].
      intros o' [= <-]. rewrite Nat.add_0_r, <- Hi. exact St.
    + match goal with |- context [select_modes _ _ _ _ _ (S i) rest ?s1] =>
        set (s' := s1) end.
      destruct (IH (S i) s') as (k & Hk & Hh & Hl & Hbefore & Hat & Hkeep & _).
      { unfold s'. cbn. lia. }
      assert (List.length (remarks s') = S (List.length (remarks s))) as Hrs.
      { unfold s'. cbn. rewrite length_app. cbn. lia. }
      exists (S k). cbn [List.length].
      split; [lia|]. split; [rewrite Hh; lia|]. split; [rewrite Hl, Hrs; lia|].
      split; [|split; [|split]].
      * intros j o' Hj Ho. destruct j as [|j]; cbn [nth_error] in Ho.
        -- injection Ho as <-. split.
           ++ rewrite Nat.add_0_r, <- Hi. exact St.
           ++ rewrite Nat.add_0_r.
              eexists _, _. apply Hkeep; [lia|].
              unfold s'. cbn [remarks]. rewrite nth_error_app2 by lia.
              rewrite Nat.sub_diag. reflexivity.
        -- destruct (Hbefore j o') as (Hs & lb & ub & Hr); [lia | exact Ho |].
           split.
           ++ replace (i + S j)%nat with (S i + j)%nat by lia. exact Hs.
           ++ exists lb, ub. rewrite Hrs in Hr.
              replace (List.length (remarks s) + S j)%nat
                with (S (List.length (remarks s)) + j)%nat by lia.
              exact Hr.
      * intros o' Ho. cbn [nth_error] in Ho.
        replace (i + S k)%nat with (S i + k)%nat by lia. apply Hat. exact Ho.
      * intros j r Hj Hr. apply Hkeep; [lia|].
        unfold s'. cbn [remarks]. rewrite nth_error_app1 by lia. exact Hr.
      * discriminate.
Qed.

Lemma stop_selecting_false j o :
  stop j o = false ->
  (j < num_modes)%nat /\ not_max (e o) = true /\
  (e o <= fl_add (front_e out_cont) energy_range)%Q.
Proof.
  unfold stop_selecting. intros H.
  apply orb_false_iff in H. destruct H as [H H3].
  apply orb_false_iff in H. destruct H as [H1 H2].
  apply Nat.leb_gt in H1. apply negb_false_iff in H2.
  apply fl_lt_false in H3. auto.
Qed.

Lemma stop_selecting_true j o :
  stop j o = true ->
  (num_modes <= j)%nat \/ not_max (e o) = false \/
  (fl_add (front_e out_cont) energy_range < e o)%Q.
Proof.
  unfold stop_selecting. intros H.
  apply orb_true_iff in H. destruct H as [H|H3].
  - apply orb_true_iff in H. destruct H as [H1|H2].
    + left. apply Nat.leb_le. exact H1.
    + right. left. apply negb_true_iff. exact H2.
  - right. right. apply fl_lt_true. exact H3.
Qed.

End Facts.

(** [write_models] writes the first [how_many] poses, numbered from
    [i + 1], each from the model set to the conformation of its pose. *)
Lemma write_models_spec {T : Types} {K : Collab} how_many :
  forall out remarks m i,
  (how_many <= List.length out)%nat ->
  (how_many <= List.length remarks)%nat ->
  List.length (snd (write_models m i how_many out remarks)) = how_many /\
  forall j o r, (j < how_many)%nat ->
    nth_error out j = Some o -> nth_error remarks j = Some r ->
    exists m0,
      nth_error (snd (write_models m i how_many out remarks)) j
      = Some (S (i + j), r, model_set m0 (c o)).
Proof.
  induction how_many as [|n IH]; intros out remarks m i Ho Hr.
  - cbn. split; [reflexivity | intros; lia].
  - destruct out as [|o out]; [cbn in Ho; lia|].
    destruct remarks as [|r remarks]; [cbn in Hr; lia|].
    cbn [write_models].
    destruct (write_models (model_set m (c o)) (S i) n out remarks)
      as [m2 l] eqn:E.
    cbn [List.length] in Ho, Hr.
    destruct (IH out remarks (model_set m (c o)) (S i)) as [Hl Hn];
      [lia | lia |].
    rewrite E in Hl, Hn. cbn [snd] in *. split.
    + cbn. lia.
    + intros j o' r' Hj Ho' Hr'. destruct j as [|j]; cbn [nth_error] in *.
      * injection Ho' as <-. injection Hr' as <-.
        exists m. rewrite Nat.add_0_r. reflexivity.
      * destruct (Hn j o' r') as (m0 & Hm0); [lia | auto | auto |].
        exists m0. replace (i + S j)%nat with (S i + j)%nat by lia. exact Hm0.
Qed.

(** What the tail of the search branch writes and logs. *)
Lemma report_modes_spec {T : Types} {K : Collab}
    m ref nc out_cont out_name energy_range num_modes verbosity log evs :
  let r := report_modes m ref nc out_cont out_name energy_range num_modes
             verbosity log evs in
  exists k written,
    s_ok r = true /\
    s_files r = [(out_name, F_models written)] /\
    List.length written = k /\
    (k <= List.length out_cont)%nat /\
    (forall j o, (j < k)%nat -> nth_error out_cont j = Some o ->
       ((j < num_modes)%nat /\ not_max (e o) = true /\
        (e o <= fl_add (front_e out_cont) energy_range)%Q) /\
       exists lb ub m0,
         nth_error written j
         = Some (S j, vina_remark (e o) lb ub, model_set m0 (c o))) /\
    (forall o, nth_error out_cont k = Some o ->
       (num_modes <= k)%nat \/ not_max (e o) = false \/
       (fl_add (front_e out_cont) energy_range < e o)%Q) /\
    (k = 0%nat -> exists l, s_log r = l ++ warning_no_conformation).
Proof.
  unfold report_modes.
  set (bmm := match out_cont with o :: _ => model_set m (c o) | [] => m end).
  set (log1 := log ++ _).
  set (s0 := mk_selection m 0 [] log1).
  destruct (select_modes_spec out_cont ref bmm num_modes energy_range
              out_cont 0 s0 eq_refl)
    as (k & Hk & Hh & Hl & Hbefore & Hat & _ & Hzero).
  set (sel := select_modes out_cont ref bmm num_modes energy_range 0 out_cont s0) in *.
  cbn [Nat.add remarks s0 List.length] in Hh, Hl, Hbefore, Hat.
  unfold write_all_output. rewrite Hh.
  replace (List.length out_cont <? k)%nat with false
    by (symmetry; apply Nat.ltb_ge; exact Hk).
  rewrite Hl, Nat.leb_refl.
  destruct (write_models (sel_m sel) 0 k out_cont (remarks sel)) as [m1 l] eqn:E.
  destruct (write_models_spec k out_cont (remarks sel) (sel_m sel) 0)
    as [Hwl Hwn]; [exact Hk | lia |].
  rewrite E in Hwl, Hwn. cbn [snd] in Hwl, Hwn.
  exists k, l. cbn [s_ok s_files s_log].
  split; [reflexivity|]. split; [reflexivity|]. split; [exact Hwl|].
  split; [exact Hk|]. split; [|split].
  - intros j o Hj Ho. destruct (Hbefore j o Hj Ho) as (Hs & lb & ub & Hr).
    split.
    + exact (stop_selecting_false _ _ _ _ _ Hs).
    + destruct (Hwn j o _ Hj Ho Hr) as (m0 & Hm0).
      exists lb, ub, m0. exact Hm0.
  - intros o Ho. exact (stop_selecting_true _ _ _ _ _ (Hat o Ho)).
  - intros ->. cbn. eexists. reflexivity.
Qed.

(** C4.  The tail of the search branch of [do_search], on any pool: it
    returns without an error and writes the first [k] poses of the pool,
    in order, where none of these meets one of the three stop
    conditions (the count of modes selected so far has reached
    [num_modes]; [not_max] fails on the energy of the pose, the test
    for the invalid energy; the energy of the pose exceeds the energy of
    the first pose plus [energy_range], the sum being the binary64 sum
    [fl_add] that the source computes) and the pose at index [k], if
    the pool has one, meets one of them; and when [k] is zero the log
    ends with the warning that no conformation lies completely within
    the search space. *)
Theorem report_modes_selects {T : Types} {K : Collab}
    m ref nc out_cont out_name energy_range num_modes verbosity log evs :
  let r := report_modes m ref nc out_cont out_name energy_range num_modes
             verbosity log evs in
  exists k written,
    s_ok r = true /\
    s_files r = [(out_name, F_models written)] /\
    List.length written = k /\
    (k <= List.length out_cont)%nat /\
    (forall j o, (j < k)%nat -> nth_error out_cont j = Some o ->
       ((j < num_modes)%nat /\ not_max (e o) = true /\
        (e o <= fl_add (front_e out_cont) energy_range)%Q) /\
       exists lb ub m0,
         nth_error written j
         = Some (S j, vina_remark (e o) lb ub, model_set m0 (c o))) /\
    (forall o, nth_error out_cont k = Some o ->
       (num_modes <= k)%nat \/ not_max (e o) = false \/
       (fl_add (front_e out_cont) energy_range < e o)%Q) /\
    (k = 0%nat -> exists l, s_log r = l ++ warning_no_conformation).
Proof.
  exact (report_modes_spec m ref nc out_cont out_name energy_range num_modes
           verbosity log evs).
Qed.

(** C2.  With [max_fl] an energy on which [not_max] fails: a pose that
    [refine_structure] leaves outside the box at each of its five passes
    comes back with the energy [max_fl]; and in whatever pool a pose with
    that energy stands, at index [i], the selection stops at or before
    it: fewer than [i + 1] models are written, so that the pose is not
    among them. *)
Theorem rejected_pose_not_selected {T : Types} {K : Collab}
    (Hmax : not_max max_fl = false) m prec nc out max_steps :
  Forall (fun a => a_within a = false)
    (snd (refine_structure m prec nc out max_steps)) ->
  e (st_out (fst (refine_structure m prec nc out max_steps))) = max_fl /\
  forall m' ref nc' out_cont out_name energy_range num_modes verbosity log
         evs i o,
    nth_error out_cont i = Some o -> e o = max_fl ->
    exists written,
      s_files (report_modes m' ref nc' out_cont out_name energy_range
                 num_modes verbosity log evs)
      = [(out_name, F_models written)] /\
      (List.length written <= i)%nat.
Proof.
  intros Hall. split.
  - apply RefineFacts.refine_structure_rejects. exact Hall.
  - intros m' ref nc' out_cont out_name energy_range num_modes verbosity log
      evs i o Hi He.
    destruct (report_modes_spec m' ref nc' out_cont out_name energy_range
                num_modes verbosity log evs)
      as (k & written & _ & Hf & Hl & _ & Hbefore & _).
    exists written. split; [exact Hf|].
    rewrite Hl. destruct (Nat.le_gt_cases k i) as [Hle|Hgt]; [exact Hle|].
    destruct (Hbefore i o Hgt Hi) as ((_ & Hnm & _) & _).
    rewrite He, Hmax in Hnm. discriminate.
Qed.

End SelectFacts.

(** ** The thinning of the pool: [remove_redundant] *)

Module PoolFacts.

Import Docking.

Section Facts.

Context {T : Types} {K : Collab}.

Variable min_rmsd : fl.

Local Abbreviation far t a := (min_rmsd <= rmsd (coords t) (coords a))%Q.

Lemma accepts_iff (out : output_container) (t : output_type) :
  forallb (fun a => fl_ge (rmsd (coords t) (coords a)) min_rmsd) out = true
  <-> forall a, In a out -> far t a.
Proof.
  rewrite forallb_forall. split; intros H a Ha.
  - apply fl_ge_true. apply H. exact Ha.
  - apply fl_ge_true. apply H. exact Ha.
Qed.

Lemma rejects_iff (out : output_container) (t : output_type) :
  forallb (fun a => fl_ge (rmsd (coords t) (coords a)) min_rmsd) out = false
  -> exists a, In a out /\ close min_rmsd t a.
Proof.
  induction out as [|a out IH]; cbn [forallb]; [discriminate|].
  intros H. apply andb_false_iff in H. destruct H as [H|H].
  - exists a. split; [left; reflexivity | apply fl_ge_false; exact H].
  - destruct (IH H) as (b & Hb & Hc). exists b. split; [right|]; auto.
Qed.

Lemma spaced_nil : spaced min_rmsd [].
Proof. intros i j a b _ Hi. destruct i; discriminate. Qed.

Lemma spaced_snoc (l : output_container) (t : output_type) :
  spaced min_rmsd (l ++ [t]) <->
  spaced min_rmsd l /\ forall a, In a l -> far t a.
Proof.
  split.
  - intros H. split.
    + intros i j a b Hij Hi Hj. apply (H i j a b Hij).
      * rewrite nth_error_app1; [exact Hi|].
        apply nth_error_Some. congruence.
      * rewrite nth_error_app1; [exact Hj|].
        apply nth_error_Some. congruence.
    + intros a Ha. apply In_nth_error in Ha. destruct Ha as [i Hi].
      assert (i < List.length l)%nat as Hlt
        by (apply nth_error_Some; congruence).
      apply (H i (List.length l) a t Hlt).
      * rewrite nth_error_app1; [exact Hi | exact Hlt].
      * rewrite nth_error_app2, Nat.sub_diag; [reflexivity | lia].
  - intros [Hl Ht] i j a b Hij Hi Hj.
    assert (j < List.length (l ++ [t]))%nat as Hj'
      by (apply nth_error_Some; congruence).
    rewrite length_app in Hj'. cbn in Hj'.
    destruct (Nat.eq_dec j (List.length l)) as [->|Hne].
    + rewrite nth_error_app2, Nat.sub_diag in Hj by lia.
      injection Hj as <-. apply Ht.
      rewrite nth_error_app1 in Hi by lia.
      apply nth_error_In in Hi. exact Hi.
    + rewrite nth_error_app1 in Hi by lia.
      rewrite nth_error_app1 in Hj by lia.
      apply (Hl i j a b Hij Hi Hj).
Qed.

Lemma spaced_prefix (l1 l2 : output_container) :
  spaced min_rmsd (l1 ++ l2) -> spaced min_rmsd l1.
Proof.
  intros H i j a b Hij Hi Hj. apply (H i j a b Hij).
  - rewrite nth_error_app1; [exact Hi|]. apply nth_error_Some. congruence.
  - rewrite nth_error_app1; [exact Hj|]. apply nth_error_Some. congruence.
Qed.

(** What [add_to_output_container] does to a pool below its cap. *)
Lemma add_below_cap (out : output_container) (t : output_type) (size : sz) :
  (List.length out < size)%nat ->
  (add_to_output_container out t min_rmsd size = out ++ [t] /\
   forall a, In a out -> far t a) \/
  (add_to_output_container out t min_rmsd size = out /\
   exists a, In a out /\ close min_rmsd t a).
Proof.
  intros Hlt. unfold add_to_output_container.
  destruct (forallb _ out) eqn:E.
  - left. apply Nat.ltb_lt in Hlt. rewrite Hlt. split; [reflexivity|].
    apply accepts_iff. exact E.
  - right. split; [reflexivity|]. apply rejects_iff. exact E.
Qed.

Lemma add_spaced (out : output_container) (t : output_type) (size : sz) :
  spaced min_rmsd out ->
  spaced min_rmsd (add_to_output_container out t min_rmsd size).
Proof.
  intros H. unfold add_to_output_container.
  destruct (forallb _ out) eqn:E; [|exact H].
  destruct (List.length out <? size)%nat; [|exact H].
  apply spaced_snoc. split; [exact H|]. apply accepts_iff. exact E.
Qed.

Lemma remove_redundant_from_spaced rest :
  forall size tmp, spaced min_rmsd tmp ->
  spaced min_rmsd (remove_redundant_from rest min_rmsd size tmp).
Proof.
  induction rest as [|t rest IH]; intros size tmp H; cbn.
  - exact H.
  - apply IH. apply add_spaced. exact H.
Qed.

(** A pool that is already spaced passes unchanged. *)
Lemma remove_redundant_from_fixed rest :
  forall size tmp,
  spaced min_rmsd (tmp ++ rest) ->
  (List.length (tmp ++ rest) <= size)%nat ->
  remove_redundant_from rest min_rmsd size tmp = tmp ++ rest.
Proof.
  induction rest as [|t rest IH]; intros size tmp Hs Hl; cbn.
  - rewrite app_nil_r. reflexivity.
  - replace (tmp ++ t :: rest) with ((tmp ++ [t]) ++ rest) in *
      by (rewrite <- app_assoc; reflexivity).
    assert (add_to_output_container tmp t min_rmsd size = tmp ++ [t]) as ->.
    { unfold add_to_output_container.
      apply spaced_prefix in Hs. apply spaced_snoc in Hs. destruct Hs as [_ Hs].
      apply accepts_iff in Hs. rewrite Hs.
      rewrite !length_app in Hl. cbn in Hl.
      replace (List.length tmp <? size)%nat with true; [reflexivity|].
      symmetry. apply Nat.ltb_lt. lia. }
    apply IH; assumption.
Qed.

(** Every candidate is kept, or is closer than [min_rmsd] to a pose
    that is kept and that stood before it. *)
Lemma remove_redundant_from_cover rest :
  forall size pre tmp,
  incl tmp pre ->
  (List.length tmp + List.length rest <= size)%nat ->
  (exists l, remove_redundant_from rest min_rmsd size tmp = tmp ++ l) /\
  forall i x, nth_error rest i = Some x ->
    In x (remove_redundant_from rest min_rmsd size tmp) \/
    exists j a, (j < List.length pre + i)%nat /\
      nth_error (pre ++ rest) j = Some a /\
      In a (remove_redundant_from rest min_rmsd size tmp) /\
      close min_rmsd x a.
Proof.
  induction rest as [|t rest IH]; intros size pre tmp Hincl Hlen.
  - cbn. split; [exists []; rewrite app_nil_r; reflexivity|].
    intros i x Hi. destruct i; discriminate.
  - cbn [remove_redundant_from]. cbn [List.length] in Hlen.
    set (tmp' := add_to_output_container tmp t min_rmsd size).
    assert (incl tmp' (pre ++ [t])) as Hincl'.
    { unfold tmp', add_to_output_container.
      destruct (forallb _ tmp); [destruct (List.length tmp <? size)%nat|];
        intros a Ha; try (apply in_or_app; left; apply Hincl; exact Ha).
      apply in_app_or in Ha. apply in_or_app.
      destruct Ha as [Ha|Ha]; [left; apply Hincl; exact Ha | right; exact Ha]. }
    assert (List.length tmp' <= S (List.length tmp))%nat as Hlen'.
    { unfold tmp', add_to_output_container.
      destruct (forallb _ tmp); [destruct (List.length tmp <? size)%nat|];
        rewrite ?length_app; cbn; lia. }
    destruct (IH size (pre ++ [t]) tmp' Hincl') as [(l & Hl) Hcov]; [lia|].
    destruct (add_below_cap tmp t size) as [[Hadd Hfar]|[Hadd Hclose]]; [lia| |].
    + (* accepted *)
      fold tmp' in Hadd. split.
      * exists ([t] ++ l). rewrite Hl, Hadd, <- app_assoc. reflexivity.
      * intros i x Hi. destruct i as [|i]; cbn [nth_error] in Hi.
        -- injection Hi as <-. left. rewrite Hl, Hadd.
           apply in_or_app. left. apply in_or_app. right. left. reflexivity.
        -- destruct (Hcov i x Hi) as [Hin|(j & a & Hj & Ha & Hina & Hc)];
             [left; exact Hin|].
           right. exists j, a. rewrite length_app in Hj. cbn in Hj.
           rewrite <- app_assoc in Ha. cbn in Ha.
           repeat split; [lia | exact Ha | exact Hina | exact Hc].
    + (* discarded: a kept pose is too close *)
      fold tmp' in Hadd. split.
      * exists l. rewrite Hl, Hadd. reflexivity.
      * intros i x Hi. destruct i as [|i]; cbn [nth_error] in Hi.
        -- injection Hi as <-. right.
           destruct Hclose as (a & Ha & Hc).
           pose proof (Hincl a Ha) as Hpre.
           apply In_nth_error in Hpre. destruct Hpre as [j Hj].
           assert (j < List.length pre)%nat as Hjlt
             by (apply nth_error_Some; congruence).
           exists j, a. repeat split.
           ++ lia.
           ++ rewrite nth_error_app1; [exact Hj | exact Hjlt].
           ++ rewrite Hl, Hadd. apply in_or_app. left. exact Ha.
           ++ exact Hc.
        -- destruct (Hcov i x Hi) as [Hin|(j & a & Hj & Ha & Hina & Hc)];
             [left; exact Hin|].
           right. exists j, a. rewrite length_app in Hj. cbn in Hj.
           rewrite <- app_assoc in Ha. cbn in Ha.
           repeat split; [lia | exact Ha | exact Hina | exact Hc].
Qed.

Lemma remove_redundant_spaced (in_ : output_container) :
  spaced min_rmsd (remove_redundant in_ min_rmsd).
Proof.
  unfold remove_redundant. apply remove_redundant_from_spaced.
  apply spaced_nil.
Qed.

(** C3.  With a symmetric RMSD: in the pool [remove_redundant] returns,
    any two poses at different places are at least [min_rmsd] apart
    ([do_search] calls it with [min_rmsd = 1]); and when the candidates
    come in ascending order of energy, every candidate is kept or is
    closer than [min_rmsd] to a kept pose whose energy is not greater
    than its own, so that what is kept of a cluster of close poses is its
    member of least energy. *)
Theorem remove_redundant_keeps_lowest (in_ : output_container)
    (Hsym : forall u v, (rmsd u v == rmsd v u)%Q) :
  (forall i j a b, i <> j ->
     nth_error (remove_redundant in_ min_rmsd) i = Some a ->
     nth_error (remove_redundant in_ min_rmsd) j = Some b ->
     (min_rmsd <= rmsd (coords a) (coords b))%Q) /\
  (ascending in_ ->
   forall x, In x in_ ->
     In x (remove_redundant in_ min_rmsd) \/
     exists a, In a (remove_redundant in_ min_rmsd) /\
       close min_rmsd x a /\ (e a <= e x)%Q).
Proof.
  split.
  - intros i j a b Hij Hi Hj.
    pose proof (remove_redundant_spaced in_) as Hs.
    destruct (Nat.lt_total i j) as [Hlt|[Heq|Hgt]]; [| contradiction |].
    + rewrite Hsym. apply (Hs i j a b Hlt Hi Hj).
    + apply (Hs j i b a Hgt Hj Hi).
  - intros Hasc x Hx. apply In_nth_error in Hx. destruct Hx as [i Hi].
    destruct (remove_redundant_from_cover in_ (List.length in_) [] [])
      as [_ Hcov]; [intros a [] | cbn; lia |].
    destruct (Hcov i x Hi) as [Hin|(j & a & Hj & Ha & Hina & Hc)];
      [left; exact Hin|].
    right. exists a. cbn in Hj, Ha. repeat split; [exact Hina | exact Hc |].
    apply (Hasc j i a x); [lia | exact Ha | exact Hi].
Qed.

(** C9.  [remove_redundant] applied to a pool it returned, with the same
    [min_rmsd], returns that pool. *)
Theorem remove_redundant_idempotent (in_ : output_container) :
  remove_redundant (remove_redundant in_ min_rmsd) min_rmsd
  = remove_redundant in_ min_rmsd.
Proof.
  unfold remove_redundant at 1.
  apply (remove_redundant_from_fixed (remove_redundant in_ min_rmsd)
           (List.length (remove_redundant in_ min_rmsd)) []).
  - cbn. apply remove_redundant_spaced.
  - cbn. lia.
Qed.

End Facts.

End PoolFacts.

(** ** [main_procedure] and the scoring grid *)

Module MainFacts.

Import Docking.

Section Facts.

Context {T : Types} {K : Collab}.

Lemma refine_all_events prec max_steps out_cont :
  forall m nc ev,
  In ev (snd (refine_all m prec nc max_steps out_cont)) ->
  is_populate ev = false.
Proof.
  induction out_cont as [|o rest IH]; intros m nc ev; cbn [refine_all].
  - cbn. intros [].
  - destruct (refine_all _ prec _ max_steps rest) as [[[m' nc'] rest'] evs] eqn:E.
    cbn [snd]. intros [<-|Hin]; [reflexivity|].
    apply (IH (st_m (fst (refine_structure m prec nc o max_steps)))
              (st_nc (fst (refine_structure m prec nc o max_steps)))).
    rewrite E. exact Hin.
Qed.

Lemma report_modes_events m ref nc out_cont out_name energy_range num_modes
    verbosity log evs :
  s_events (report_modes m ref nc out_cont out_name energy_range num_modes
              verbosity log evs) = evs.
Proof.
  unfold report_modes.
  destruct (write_all_output _ _ _ _ _) as [[m1 f]|]; reflexivity.
Qed.

(** The refinement loop of [do_search]: the slope of the evaluator is
    kept, and so are the number of poses. *)
Lemma refine_all_spec (prec : precalculate) (max_steps : Z)
    (out_cont : output_container) :
  forall (m : model) (nc : non_cache),
  let r := refine_all m prec nc max_steps out_cont in
  slope (snd (fst (fst r))) = slope nc /\
  List.length (snd (fst r)) = List.length out_cont /\
  List.length (snd r) = List.length out_cont /\
  forall ev, In ev (snd r) ->
    exists nc0, ev = Ev_refine nc0 /\ slope nc0 = slope nc.
Proof.
  induction out_cont as [|o rest IH]; intros m nc; cbn zeta.
  - cbn. repeat split. intros ev [].
  - cbn [refine_all].
    set (s := fst (refine_structure m prec nc o max_steps)).
    assert (slope (st_nc s) = slope nc) as Hs
      by (unfold s; rewrite (RefineFacts.refine_structure_eq max_steps prec);
          reflexivity).
    specialize (IH (st_m s) (st_nc s)). cbn zeta in IH.
    destruct (refine_all (st_m s) prec (st_nc s) max_steps rest)
      as [[[m' nc'] rest'] evs].
    cbn [fst snd] in *. destruct IH as (H1 & H2 & H3 & H4).
    split; [congruence|]. split; [cbn; lia|]. split; [cbn; lia|].
    intros ev [<-|Hin].
    + exists nc. auto.
    + destruct (H4 ev Hin) as (nc0 & -> & H0). exists nc0. split; congruence.
Qed.

(** What [do_search] drives: the score-only evaluation, or one
    refinement through the [non_cache] it was given, or the search on the
    two grids followed by refinements. *)
Lemma do_search_events m ref sf prec ig prec_widened ig_widened nc out_name
    corner1 corner2 par energy_range num_modes seed verbosity score_only
    local_only log t weights :
  let evs := s_events (do_search m ref sf prec ig prec_widened ig_widened nc
                         out_name corner1 corner2 par energy_range num_modes
                         seed verbosity score_only local_only log t weights) in
  (score_only = true -> evs = [Ev_score]) /\
  (score_only = false -> local_only = true -> evs = [Ev_refine nc]) /\
  (forall ev, In ev evs -> is_populate ev = false).
Proof.
  unfold do_search. destruct score_only.
  - destruct (score_only_report _ _ _ _ _ _) as [[m1 log1] ok]. cbn.
    repeat split; try discriminate. intros ev [<-|[]]. reflexivity.
  - destruct local_only.
    + destruct (eval_intramolecular _ _ _) as [x m1].
      destruct (eval_adjusted _ _ _ _ _ _) as [e1 m2].
      destruct (write_all_output _ _ _ _ _) as [[m3 f]|]; cbn;
        (repeat split; try discriminate; intros ev [<-|[]]; reflexivity).
    + destruct (par_search _ _ _ _ _ _ _ _ _ _) as [[m1 out1] g].
      pose proof (refine_all_events prec (ssd_evals par) out1 m1 nc) as Hev.
      destruct (refine_all _ _ _ _ _) as [[[m2 nc2] out2] evs].
      cbn [snd] in Hev.
      assert (forall m3 out3 l,
                s_events (report_modes m3 ref nc2 out3 out_name energy_range
                            num_modes verbosity l (Ev_search ig ig_widened :: evs))
                = Ev_search ig ig_widened :: evs) as Hrep
        by (intros; apply report_modes_events).
      destruct out2 as [|o out2];
        [| destruct (sort (o :: out2)) as [|o0 sorted];
           [| destruct (eval_intramolecular _ _ _) as [x ma];
              destruct (rescore _ _ _ _ _ _) as [mb rescored]]];
        rewrite Hrep; (repeat split; try discriminate;
          intros ev [<-|Hin]; [reflexivity | apply Hev; exact Hin]).
Qed.

(** The plain search of [do_search]: it runs the search on the two
    grids it was given and then refines, and drives nothing else. *)
Lemma do_search_plain_events m ref sf prec ig prec_widened ig_widened nc
    out_name corner1 corner2 par energy_range num_modes seed verbosity log
    t weights :
  exists refinements,
    s_events (do_search m ref sf prec ig prec_widened ig_widened nc out_name
                corner1 corner2 par energy_range num_modes seed verbosity
                false false log t weights)
    = Ev_search ig ig_widened :: refinements /\
    Forall (fun ev => exists nc0, ev = Ev_refine nc0 /\ slope nc0 = slope nc)
      refinements.
Proof.
  unfold do_search.
  destruct (par_search _ _ _ _ _ _ _ _ _ _) as [[m1 out1] g].
  pose proof (refine_all_spec prec (ssd_evals par) out1 m1 nc) as Hall.
  cbv zeta in Hall.
  destruct (refine_all _ _ _ _ _) as [[[m2 nc2] out2] evs].
  cbn [fst snd] in Hall. destruct Hall as (_ & _ & _ & Hev).
  exists evs. split.
  - destruct out2 as [|o out2];
      [| destruct (sort (o :: out2)) as [|o0 sorted];
         [| destruct (eval_intramolecular _ _ _) as [x ma];
            destruct (rescore _ _ _ _ _ _) as [mb rescored]]];
      apply report_modes_events.
  - apply Forall_forall. exact Hev.
Qed.

(** The populate event, and the one refinement of a local search, with
    the mode switches as they come. *)
Lemma main_procedure_events_by_mode m ref out_name score_only local_only
    randomize_only no_cache gd exhaustiveness weights cpu seed verbosity
    num_modes energy_range log :
  List.length weights = 6%nat ->
  let o := main_procedure m ref out_name score_only local_only randomize_only
             no_cache gd exhaustiveness weights cpu seed verbosity num_modes
             energy_range log in
  (existsb is_populate (o_events o) = true <->
   no_cache = false /\ score_only = false /\ local_only = false /\
   randomize_only = false) /\
  (local_only = true -> score_only = false -> randomize_only = false ->
   o_events o =
   [Ev_refine (mk_non_cache gd
                 (mk_precalculate (weighted_terms everything weights))
                 (inject_Z 1000000))]).
Proof.
  intros Hw. unfold main_procedure. rewrite Hw. cbn [Nat.eqb negb].
  destruct gd as [[gd0 gd1] gd2].
  set (prec := mk_precalculate (weighted_terms everything weights)).
  set (nc := mk_non_cache (gd0, gd1, gd2) prec (inject_Z 1000000)).
  destruct randomize_only.
  - destruct (do_randomization _ _ _ _ _ _ _) as [[m1 log3] f]. cbn.
    split; [|discriminate].
    split; [discriminate | intros (_ & _ & _ & H); discriminate].
  - destruct no_cache.
    + match goal with |- context [do_search ?a ?b ?c ?d ?e ?f ?g ?h ?i ?j ?k ?l ?m ?n ?o ?p ?q ?r ?s ?t ?u] =>
        destruct (do_search_events a b c d e f g h i j k l m n o p q r s t u)
          as (Hs & Hl & Hnp);
        set (r0 := do_search a b c d e f g h i j k l m n o p q r s t u) in *
      end.
      unfold outcome_of. cbn [o_events app]. split.
      * split; [|intros (H & _); discriminate].
        intros H. apply existsb_exists in H. destruct H as (ev & Hin & Hp).
        rewrite (Hnp ev Hin) in Hp. discriminate.
      * intros -> -> _. apply Hl; reflexivity.
    + match goal with |- context [do_search ?a ?b ?c ?d ?e ?f ?g ?h ?i ?j ?k ?l ?m ?n ?o ?p ?q ?r ?s ?t ?u] =>
        destruct (do_search_events a b c d e f g h i j k l m n o p q r s t u)
          as (Hs & Hl & Hnp);
        set (r0 := do_search a b c d e f g h i j k l m n o p q r s t u) in *
      end.
      unfold outcome_of. cbn [o_events]. split.
      * destruct score_only, local_only; cbn [orb negb app existsb is_populate].
        4: (split; [intros _; repeat split | reflexivity]).
        all: (split; [| intros (_ & H1 & H2 & _); discriminate]).
        all: intros H; exfalso.
        all: apply existsb_exists in H; destruct H as (ev & Hin & Hp).
        all: rewrite (Hnp ev Hin) in Hp; discriminate.
      * intros -> -> _. cbn [orb negb app]. apply Hl; reflexivity.
Qed.

(** C10.  [main_procedure], called with the six weights it checks for.
    Whatever the four switches, [cache::populate] is called exactly when
    [no_cache] is unset and none of [score_only], [local_only] and
    [randomize_only] is set; the cache of the cached path ends populated
    in that case and as it was constructed in the others.  When it is
    called, [populate] comes first, on the cache built from the grid
    dimensions and the slope 10^6, and the cache it leaves is the grid
    the search then receives, for both of its passes; the refinements
    follow.  A run that only does the local
    search, with or without [no_cache], drives nothing but one
    refinement, through the [non_cache] evaluator built from the grid
    dimensions, the precalculated terms and the slope 10^6; a score-only
    run drives nothing but the scoring, and a randomize-only run nothing
    but the randomization. *)
Theorem main_procedure_populates m ref out_name gd exhaustiveness weights
    cpu seed verbosity num_modes energy_range log :
  List.length weights = 6%nat ->
  let prec := mk_precalculate (weighted_terms everything weights) in
  let slope0 : fl := inject_Z 1000000 in
  let c0 := mk_cache gd slope0 in
  let nc := mk_non_cache gd prec slope0 in
  let run := fun score_only local_only randomize_only no_cache =>
    main_procedure m ref out_name score_only local_only randomize_only
      no_cache gd exhaustiveness weights cpu seed verbosity num_modes
      energy_range log in
  (forall score_only local_only randomize_only no_cache,
     (existsb is_populate
        (o_events (run score_only local_only randomize_only no_cache))
      = true <->
      no_cache = false /\ score_only = false /\ local_only = false /\
      randomize_only = false) /\
     o_cache (run score_only local_only randomize_only no_cache)
     = if randomize_only || no_cache then None
       else Some (if score_only || local_only then c0
                  else populate c0 m prec)) /\
  (exists refinements,
     o_events (run false false false false)
     = Ev_populate c0
       :: Ev_search (Ig_cache (populate c0 m prec))
            (Ig_cache (populate c0 m prec))
       :: refinements /\
     Forall (fun ev => exists nc0, ev = Ev_refine nc0 /\ slope nc0 = slope0)
       refinements) /\
  (forall no_cache,
     o_events (run false true false no_cache) = [Ev_refine nc]) /\
  (forall local_only no_cache,
     o_events (run true local_only false no_cache) = [Ev_score]) /\
  (forall score_only local_only no_cache,
     o_events (run score_only local_only true no_cache) = [Ev_randomize]).
Proof.
  intros Hw. cbv zeta.
  split; [|split; [|split; [|split]]].
  - intros score_only local_only randomize_only no_cache. split.
    + apply (main_procedure_events_by_mode m ref out_name score_only
               local_only randomize_only no_cache gd exhaustiveness weights
               cpu seed verbosity num_modes energy_range log Hw).
    + unfold main_procedure. rewrite Hw. cbn [Nat.eqb negb].
      destruct gd as [[gd0 gd1] gd2].
      destruct randomize_only;
        [destruct (do_randomization _ _ _ _ _ _ _) as [[m1 log3] f];
         reflexivity|].
      destruct no_cache; [reflexivity|].
      unfold outcome_of. cbn [o_cache orb].
      destruct score_only, local_only; reflexivity.
  - unfold main_procedure. rewrite Hw. cbn [Nat.eqb negb orb].
    destruct gd as [[gd0 gd1] gd2]. unfold outcome_of. cbn [o_events].
    match goal with |- context [do_search ?a ?b ?c ?d ?e ?f ?g ?h ?i ?j ?k ?l ?m ?n ?o ?p false false ?s ?t ?u] =>
      destruct (do_search_plain_events a b c d e f g h i j k l m n o p s t u)
        as (refinements & Hev & Hall)
    end.
    exists refinements. split; [|exact Hall].
    cbn [app]. rewrite Hev. reflexivity.
  - intros no_cache.
    apply (main_procedure_events_by_mode m ref out_name false true false
             no_cache gd exhaustiveness weights cpu seed verbosity num_modes
             energy_range log Hw); reflexivity.
  - intros local_only no_cache.
    unfold main_procedure. rewrite Hw. cbn [Nat.eqb negb orb].
    destruct gd as [[gd0 gd1] gd2].
    destruct no_cache; unfold outcome_of, do_search; cbn [orb negb];
      destruct (score_only_report _ _ _ _ _ _) as [[m1 log1] ok];
      reflexivity.
  - intros score_only local_only no_cache.
    unfold main_procedure. rewrite Hw. cbn [Nat.eqb negb].
    destruct gd as [[gd0 gd1] gd2].
    destruct (do_randomization _ _ _ _ _ _ _) as [[m1 log3] f]. reflexivity.
Qed.

End Facts.

End MainFacts.

(** ** The job file as a stream *)

Module StreamFacts.

Import Stream.

Lemma drop_length n : forall s,
  String.length (drop n s) = (String.length s - n)%nat.
Proof.
  induction n as [|n IH]; intros s.
  - cbn. destruct s; cbn; lia.
  - destruct s as [|ch s]; cbn; [reflexivity | apply IH].
Qed.

Lemma drop_add a : forall b s, drop (a + b) s = drop b (drop a s).
Proof.
  induction a as [|a IH]; intros b s.
  - cbn. destruct s; reflexivity.
  - destruct s as [|ch s]; cbn [Nat.add drop].
    + destruct b; reflexivity.
    + apply IH.
Qed.

(** [read_line] extracts no more than there is, and at least one
    character unless it meets the end at once. *)
Lemma read_line_count s :
  forall l n at_end, read_line s = (l, n, at_end) ->
  (n <= String.length s)%nat /\
  (l <> EmptyString -> 1 <= n)%nat /\
  (at_end = false -> 1 <= n)%nat.
Proof.
  induction s as [|ch s IH]; intros l n at_end; cbn [read_line].
  - intros [= <- <- <-]. cbn. repeat split; try lia; congruence.
  - destruct (is_newline ch).
    + intros [= <- <- <-]. cbn. repeat split; lia.
    + destruct (read_line s) as [[l' n'] e'] eqn:E.
      intros [= <- <- <-]. destruct (IH l' n' e' eq_refl) as (H1 & _ & _).
      cbn. repeat split; lia.
Qed.

(** A [getline] that yields a line and does not meet the end of the file
    leaves a good stream with less to read. *)
Lemma getline_progress f f' path :
  getline f = (f', path) ->
  eof f' = false -> path <> EmptyString ->
  (remaining f' < remaining f)%nat.
Proof.
  unfold getline, eof. destruct (eofbit f || failbit f).
  - intros [= <- <-]. congruence.
  - destruct (read_line (drop (pos f) (content f))) as [[l n] at_end] eqn:E.
    intros [= <- <-]. cbn [eofbit]. intros -> Hl.
    destruct (read_line_count _ _ _ _ E) as (Hn & Hl1 & _).
    specialize (Hl1 Hl). unfold remaining. cbn [pos content].
    rewrite drop_add. rewrite (drop_length n). lia.
Qed.

End StreamFacts.

(** ** The fork based fan-out *)

Module ForkFacts.

Import Stream Fork.




Section Facts.

Variables (o : fork_oracle) (N : Z) (batch_out : string).





(** The loop does not run out of fuel when it has more fuel than there
    are bytes left to read. *)
Lemma scheduler_fuel use_fork fuel :
  forall s, (remaining (infile s) < fuel)%nat ->
  fst (scheduler o use_fork N batch_out fuel s) <> Out_of_fuel.
Proof.
  induction fuel as [|fuel IH]; intros s Hrem; [lia|].
  cbn [scheduler]. destruct (getline (infile s)) as [f1 path] eqn:Eg.
  destruct (eof f1 || String.eqb path EmptyString) eqn:Eend;
    [cbn; discriminate|].
  apply orb_false_iff in Eend. destruct Eend as [Heof Hpath].
  assert (remaining f1 < fuel)%nat as Hrem1.
  { assert (path <> EmptyString) as Hne
      by (intros ->; rewrite String.eqb_refl in Hpath; discriminate).
    pose proof (StreamFacts.getline_progress _ _ _ Eg Heof Hne). lia. }
  cbn [n_fork n_rand n_wait pid_queue children trace i infile].
  destruct use_fork.
  - destruct (fork_result o (n_fork s) =? 0)%Z; [cbn; discriminate|].
    destruct (0 <? fork_result o (n_fork s))%Z; [|cbn; discriminate].
    apply IH.
    match goal with |- context [if ?b then wait_and_pop o ?s4 else _] =>
      destruct b; [unfold wait_and_pop; destruct (wait _ _ _) as [[r st] ch]|]
    end; cbn [infile]; exact Hrem1.
  - unfold log_event.
    destruct (dock_throws o path); apply IH; cbn [infile]; exact Hrem1.
Qed.

End Facts.




(** C7, at the input where the source departs from it: a fan-out of
    two, two ligands, and the younger child (102) finishing before the
    older (101).  When the queue [101; 102] reaches the bound, [wait]
    returns for child 102; the parent removes the front identifier, 101,
    and goes on to the next job, while child 101 is reaped only by the
    drain at the end of the file. *)
Theorem admission_wait_takes_any_child :
  trace (snd (run younger_first true 2 "out"
                (Some ("a" ++ nl ++ "b" ++ nl)%string)))
  = [Forked 101 "a"; Pushed [101%Z];
     Forked 102 "b"; Pushed [101%Z; 102%Z];
     Waited 102 [101%Z; 102%Z]; Popped [102%Z];
     End_of_file;
     Waited 101 [102%Z]; Popped []].
Proof. vm_compute. reflexivity. Qed.

End ForkFacts.

(** ** The MPI farm *)

Module FarmFacts.

Import Stream Farm.

Lemma append_length (a b : string) :
  String.length (a ++ b) = (String.length a + String.length b)%nat.
Proof. induction a as [|ch a IH]; cbn; [reflexivity | rewrite IH; reflexivity]. Qed.

Lemma append_assoc (a b c : string) : ((a ++ b) ++ c = a ++ (b ++ c))%string.
Proof. induction a as [|ch a IH]; cbn; [reflexivity | rewrite IH; reflexivity]. Qed.

Lemma drop_append (a b : string) : drop (String.length a) (a ++ b) = b.
Proof.
  induction a as [|ch a IH]; cbn; [destruct b; reflexivity | exact IH].
Qed.

Lemma read_line_of_path (p rest : string) :
  no_newline p = true ->
  read_line (p ++ nl ++ rest) = (p, S (String.length p), false).
Proof.
  induction p as [|ch p IH]; cbn [no_newline]; intros H.
  - reflexivity.
  - apply andb_true_iff in H. destruct H as [Hch Hp].
    apply negb_true_iff in Hch. cbn [append read_line]. rewrite Hch.
    rewrite (IH Hp). reflexivity.
Qed.

(** [getline] on a good stream that stands at the start of a line. *)
Lemma getline_of_path (pre p rest : string) :
  no_newline p = true ->
  getline (mk_ifstream (pre ++ (p ++ nl ++ rest)) (String.length pre) false false)
  = (mk_ifstream (pre ++ (p ++ nl ++ rest))
       (String.length (pre ++ p ++ nl)) false false, p).
Proof.
  intros Hp. unfold getline. cbn [eofbit failbit orb content pos].
  rewrite drop_append, (read_line_of_path p rest Hp).
  cbn [andb]. rewrite !append_length. cbn [String.length nl].
  replace (String.length pre + S (String.length p))%nat
    with (String.length pre + (String.length p + 1))%nat by lia.
  reflexivity.
Qed.

(** [getline] on a good stream that stands at the end of the file. *)
Lemma getline_at_end (pre : string) :
  getline (mk_ifstream pre (String.length pre) false false)
  = (mk_ifstream pre (String.length pre + 0) true true, EmptyString).
Proof.
  unfold getline. cbn [eofbit failbit orb content pos].
  replace (drop (String.length pre) pre) with EmptyString.
  - reflexivity.
  - pose proof (drop_append pre EmptyString) as H.
    replace (pre ++ EmptyString)%string with pre in H; [congruence|].
    clear H. induction pre as [|ch pre IH]; cbn; [reflexivity | congruence].
Qed.

Lemma lines_from_of_path (p rest cur : string) :
  no_newline p = true ->
  lines_from cur (p ++ nl ++ rest) = (cur ++ p)%string :: lines_from EmptyString rest.
Proof.
  revert cur. induction p as [|ch p IH]; intros cur; cbn [no_newline]; intros H.
  - cbn. replace (cur ++ EmptyString)%string with cur; [reflexivity|].
    induction cur as [|x cur IHc]; cbn; [reflexivity | congruence].
  - apply andb_true_iff in H. destruct H as [Hch Hp].
    apply negb_true_iff in Hch. cbn [append lines_from]. rewrite Hch.
    rewrite (IH _ Hp), append_assoc. reflexivity.
Qed.

Lemma count_non_blank_job_lines (paths : list string) :
  Forall ligand_path paths ->
  count_non_blank (job_lines paths) = List.length paths.
Proof.
  unfold count_non_blank, lines.
  induction 1 as [|p paths [Hnl Hb] _ IH]; cbn [job_lines].
  - reflexivity.
  - rewrite (lines_from_of_path p (job_lines paths) EmptyString Hnl).
    cbn [append filter]. rewrite Hb. cbn [negb List.length]. rewrite IH.
    reflexivity.
Qed.

Lemma append_nil_r (a : string) : (a ++ EmptyString)%string = a.
Proof. induction a as [|ch a IH]; cbn; [reflexivity | congruence]. Qed.

Lemma to_int_small z : (0 <= z < 2 ^ 31)%Z -> to_int z = z.
Proof.
  intros H. unfold to_int. rewrite Z.mod_small by lia. lia.
Qed.

Lemma sends_app tr tr' : sends (tr ++ tr') = sends tr ++ sends tr'.
Proof.
  induction tr as [|ev tr IH]; cbn; [reflexivity|].
  destruct ev; cbn; rewrite IH; reflexivity.
Qed.

Lemma ligand_path_not_empty p :
  ligand_path p -> String.eqb p EmptyString = false.
Proof.
  intros [_ Hb]. destruct p; [discriminate | reflexivity].
Qed.

(** The data-bound loop over a file of [k] ligand lines, each ended by a
    newline: it sends [k + 1] assignments, the last one for the offset of
    the end of the file. *)
Lemma governor_loop_on_lines (o : farm_oracle) (paths : list string) :
  forall pre fuel count n tr,
  Forall ligand_path paths ->
  (List.length paths < fuel)%nat ->
  (Z.of_nat (String.length (pre ++ job_lines paths)) < 2 ^ 31)%Z ->
  exists f c tr',
    governor_loop o fuel
      (mk_ifstream (pre ++ job_lines paths) (String.length pre) false false)
      count n tr = Some (f, c, tr ++ tr') /\
    List.length (sends tr') = S (List.length paths) /\
    Forall (fun dp => (0 <= seek_offset (snd dp))%Z) (sends tr').
Proof.
  induction paths as [|p paths IH]; intros pre fuel count n tr Hp Hfuel Hsize;
    (destruct fuel as [|fuel]; [cbn in Hfuel; lia|]); cbn [governor_loop].
  - cbn [job_lines] in *. rewrite append_nil_r in *.
    rewrite getline_at_end. cbn [eof eofbit orb].
    eexists _, _, _. split; [reflexivity|]. cbn. split; [reflexivity|].
    repeat constructor. cbn. unfold tellg. cbn.
    rewrite to_int_small; lia.
  - inversion Hp as [|? ? Hp1 Hp2]; subst. cbn [job_lines] in *.
    rewrite (getline_of_path pre p (job_lines paths) (proj1 Hp1)).
    cbn [eof eofbit orb]. rewrite (ligand_path_not_empty p Hp1).
    rewrite (proj2 Hp1). cbn [orb].
    rewrite <- (append_assoc pre p (nl ++ job_lines paths)) in *.
    rewrite <- (append_assoc (pre ++ p) nl (job_lines paths)) in *.
    rewrite (append_assoc pre p nl) in *.
    match goal with |- context [governor_loop o fuel _ ?c (S n) ?t] =>
      destruct (IH (pre ++ p ++ nl)%string fuel c (S n) t Hp2)
        as (f & c' & tr' & Hrun & Hlen & Hoff)
    end; [cbn in Hfuel; lia | exact Hsize |].
    rewrite Hrun. eexists _, _, _. split.
    + rewrite <- app_assoc. reflexivity.
    + cbn. split; [rewrite Hlen; reflexivity|].
      constructor; [|exact Hoff]. cbn. unfold tellg. cbn.
      rewrite to_int_small; [lia|].
      rewrite !append_length in Hsize. lia.
Qed.

Lemma sends_governor_drain (o : farm_oracle) (world_size : nat) :
  sends (governor_drain o world_size)
  = map (fun j => (j, end_code o)) (seq 1 (world_size - 1)).
Proof.
  unfold governor_drain. induction (seq 1 (world_size - 1)) as [|j l IH];
    cbn; [reflexivity | rewrite IH; reflexivity].
Qed.

Lemma job_lines_length (paths : list string) :
  (List.length paths <= String.length (job_lines paths))%nat.
Proof.
  induction paths as [|p paths IH]; cbn [job_lines List.length]; [lia|].
  rewrite !append_length. cbn [String.length nl]. lia.
Qed.

(** What the governor sends over a job file of [k] ligand lines, each
    ended by a newline, shorter than 2^31 bytes: [k + 1] assignments
    with offsets that are not negative, then the end signal to each of
    the ranks [1, ..., world_size - 1] in turn. *)
Lemma governor_sends_on_lines (o : farm_oracle) (world_size : nat)
    (paths : list string) :
  Forall ligand_path paths ->
  (Z.of_nat (String.length (job_lines paths)) < 2 ^ 31)%Z ->
  exists tr data,
    governor o world_size (Some (job_lines paths)) = Some tr /\
    sends tr = data ++ map (fun j => (j, end_code o)) (seq 1 (world_size - 1)) /\
    List.length data = S (List.length paths) /\
    Forall (fun dp => (0 <= seek_offset (snd dp))%Z) data.
Proof.
  intros Hp Hsize. unfold governor. cbn [open content].
  destruct (governor_loop_on_lines o paths EmptyString
              (S (String.length (job_lines paths))) 0%Z 0%nat [] Hp)
    as (f & c & tr' & Hrun & Hlen & Hoff).
  { pose proof (job_lines_length paths). lia. }
  { exact Hsize. }
  cbn [append String.length app] in Hrun. rewrite Hrun.
  eexists _, (sends tr'). split; [reflexivity|].
  rewrite sends_app, sends_governor_drain. auto.
Qed.

Lemma filter_data (data : list (nat * run_param)) :
  Forall (fun dp => (0 <= seek_offset (snd dp))%Z) data ->
  filter (fun dp => negb (is_sentinel (snd dp))) data = data /\
  filter (fun dp => is_sentinel (snd dp)) data = [].
Proof.
  induction 1 as [|dp l Hdp _ [IH1 IH2]]; cbn [filter]; [auto|].
  assert (is_sentinel (snd dp) = false) as ->
    by (unfold is_sentinel; apply Z.eqb_neq; lia).
  cbn [negb]. rewrite IH1. split; [reflexivity | exact IH2].
Qed.

Lemma filter_end_codes (o : farm_oracle) (l : list nat) :
  filter (fun dp => is_sentinel (snd dp)) (map (fun j => (j, end_code o)) l)
  = map (fun j => (j, end_code o)) l /\
  filter (fun dp => negb (is_sentinel (snd dp)))
    (map (fun j => (j, end_code o)) l) = [].
Proof.
  induction l as [|j l [IH1 IH2]]; cbn; [auto|].
  rewrite IH1. split; [reflexivity | exact IH2].
Qed.

(** The counts of the farm on such a file: [k + 1] assignments for [k]
    lines, and one end signal for each worker. *)
Lemma governor_on_lines (o : farm_oracle) (world_size : nat)
    (paths : list string) :
  Forall ligand_path paths ->
  (Z.of_nat (String.length (job_lines paths)) < 2 ^ 31)%Z ->
  exists tr,
    governor o world_size (Some (job_lines paths)) = Some tr /\
    count_non_blank (job_lines paths) = List.length paths /\
    List.length (assignments tr) = S (List.length paths) /\
    Forall (fun dp => (0 <= seek_offset (snd dp))%Z) (assignments tr) /\
    sentinels tr = map (fun j => (j, end_code o)) (seq 1 (world_size - 1)).
Proof.
  intros Hp Hsize.
  destruct (governor_sends_on_lines o world_size paths Hp Hsize)
    as (tr & data & Hrun & Hsends & Hlen & Hoff).
  exists tr. split; [exact Hrun|].
  split; [apply count_non_blank_job_lines; exact Hp|].
  destruct (filter_data data Hoff) as [Hd1 Hd2].
  destruct (filter_end_codes o (seq 1 (world_size - 1))) as [He1 He2].
  unfold assignments, sentinels.
  rewrite Hsends, !filter_app, Hd1, Hd2, He1, He2, app_nil_r. cbn [app].
  auto.
Qed.

Lemma filter_rank_seq (rank : nat) : forall n a,
  (a <= rank < a + n)%nat ->
  filter (fun j => j =? rank)%nat (seq a n) = [rank].
Proof.
  induction n as [|n IH]; intros a Ha; [lia|]. cbn [seq filter].
  destruct (Nat.eqb_spec a rank) as [->|Hne].
  - f_equal. clear IH Ha.
    assert (forall m b, (rank < b)%nat ->
              filter (fun j => j =? rank)%nat (seq b m) = []) as Hnone.
    { induction m as [|m IHm]; intros b Hb; cbn; [reflexivity|].
      destruct (Nat.eqb_spec b rank); [lia | apply IHm; lia]. }
    apply Hnone. lia.
  - apply IH. lia.
Qed.

(** A worker that is sent jobs and then the end signal docks each job,
    leaves its loop on the end signal, and reads nothing after it. *)
Lemma worker_loop_until_end (batch_out : string) (end_ : run_param)
    (rest : list run_param) (jobs : list run_param) :
  forall f counter tr,
  Forall (fun p => is_sentinel p = false) jobs ->
  is_sentinel end_ = true ->
  exists tr',
    worker_loop batch_out (jobs ++ end_ :: rest) f counter tr
    = (W_finished, tr', rest).
Proof.
  induction jobs as [|p jobs IH]; intros f counter tr Hjobs Hend;
    cbn [app worker_loop].
  - unfold is_sentinel in Hend. rewrite Hend. eexists. reflexivity.
  - inversion Hjobs as [|? ? Hp Hjobs']; subst.
    unfold is_sentinel in Hp. rewrite Hp.
    destruct (getline (seekg f (seek_offset p))) as [f2 path].
    apply IH; assumption.
Qed.

(** Each worker of the farm, over such a job file: the messages the
    governor sends it are jobs followed by one end signal, on which it
    leaves its loop with no message left unread. *)
Lemma farm_worker_finishes (o : farm_oracle) (world_size rank : nat)
    (batch_out : string) (paths : list string) :
  Forall ligand_path paths ->
  (Z.of_nat (String.length (job_lines paths)) < 2 ^ 31)%Z ->
  (1 <= rank < world_size)%nat ->
  exists tr jobs done,
    governor o world_size (Some (job_lines paths)) = Some tr /\
    inbox rank tr = jobs ++ [end_code o] /\
    Forall (fun p => is_sentinel p = false) jobs /\
    worker batch_out (Some (job_lines paths)) (inbox rank tr)
    = (W_finished, done, []).
Proof.
  intros Hp Hsize Hrank.
  destruct (governor_sends_on_lines o world_size paths Hp Hsize)
    as (tr & data & Hrun & Hsends & _ & Hoff).
  set (jobs := map snd (filter (fun dp => fst dp =? rank)%nat data)).
  assert (inbox rank tr = jobs ++ [end_code o]) as Hin.
  { unfold inbox. rewrite Hsends, filter_app, map_app. fold jobs. f_equal.
    assert (forall l, filter (fun dp : nat * run_param => fst dp =? rank)%nat
                        (map (fun j => (j, end_code o)) l)
                      = map (fun j => (j, end_code o))
                          (filter (fun j => j =? rank)%nat l)) as Hcomm.
    { induction l as [|j l IHl]; cbn; [reflexivity|].
      destruct (j =? rank)%nat; cbn; rewrite IHl; reflexivity. }
    rewrite Hcomm, (filter_rank_seq rank (world_size - 1) 1) by lia.
    reflexivity. }
  assert (Forall (fun p => is_sentinel p = false) jobs) as Hjobs.
  { unfold jobs. clear Hsends Hin. induction Hoff as [|dp l Hdp _ IHl]; cbn;
      [constructor|].
    destruct (fst dp =? rank)%nat; cbn; [|exact IHl].
    constructor; [|exact IHl]. unfold is_sentinel. apply Z.eqb_neq. lia. }
  destruct (worker_loop_until_end batch_out (end_code o) [] jobs
              (open (Some (job_lines paths))) 0%Z [] Hjobs eq_refl)
    as (done & Hdone).
  exists tr, jobs, done. split; [exact Hrun|]. split; [exact Hin|].
  split; [exact Hjobs|]. unfold worker. rewrite Hin. exact Hdone.
Qed.

(** The data-bound loop returns on every job file: it is run with more
    fuel than the file has bytes. *)
Lemma governor_loop_fuel (o : farm_oracle) (fuel : nat) :
  forall f count n tr, (remaining f < fuel)%nat ->
  governor_loop o fuel f count n tr <> None.
Proof.
  induction fuel as [|fuel IH]; intros f count n tr Hrem; [lia|].
  cbn [governor_loop]. destruct (getline f) as [f1 path] eqn:Eg.
  destruct (eof f1 || String.eqb path EmptyString || only_blanks path) eqn:Eend;
    [discriminate|].
  apply orb_false_iff in Eend. destruct Eend as [Eend _].
  apply orb_false_iff in Eend. destruct Eend as [Heof Hpath].
  apply IH.
  assert (path <> EmptyString) as Hne
    by (intros ->; rewrite String.eqb_refl in Hpath; discriminate).
  pose proof (StreamFacts.getline_progress _ _ _ Eg Heof Hne). lia.
Qed.

(** X20.  The governor comes to the end of its data-bound loop on every job
    file, whatever it holds: each pass that does not end the loop has
    read at least one byte. *)
Lemma governor_returns (o : farm_oracle) (world_size : nat)
    (job_file : option string) :
  exists tr, governor o world_size job_file = Some tr.
Proof.
  unfold governor.
  pose proof (governor_loop_fuel o
                (S (String.length (content (open job_file))))
                (open job_file) 0%Z 0%nat []) as H.
  destruct (governor_loop _ _ _ _ _ _) as [[[f c] tr]|].
  - eexists. reflexivity.
  - exfalso. apply H; [|reflexivity].
    unfold remaining. rewrite StreamFacts.drop_length. lia.
Qed.

(** The offset of an assignment is the read position narrowed to [int]:
    from 2^31 bytes on it is negative, and at 2^32 - 1 it is the end
    signal itself. *)
Lemma offset_wraps :
  to_int (2 ^ 31) = (- 2 ^ 31)%Z /\ to_int (2 ^ 32 - 1) = (-1)%Z.
Proof. split; reflexivity. Qed.

(** C5, at the input where the source departs from it: a job file of one
    ligand line ended by a newline, one worker.  The governor answers a
    first request with the offset 0 of that line and, the line read
    without meeting the end of the file, a second request with the
    offset 2, where nothing is left to read; only then does it send the
    end signal.  Two assignments are issued for one line. *)
Theorem governor_assigns_past_last_line :
  count_non_blank ("a" ++ nl) = 1%nat /\
  governor one_worker 2 (Some ("a" ++ nl)%string)
  = Some [G_recv 1; G_send 1 (mk_run_param 2 0 0);
          G_recv 1; G_send 1 (mk_run_param 3 2 1);
          G_recv 1; G_send 1 (mk_run_param 0 (-1) 0)] /\
  List.length
    (assignments [G_recv 1; G_send 1 (mk_run_param 2 0 0);
                  G_recv 1; G_send 1 (mk_run_param 3 2 1);
                  G_recv 1; G_send 1 (mk_run_param 0 (-1) 0)]) = 2%nat.
Proof. vm_compute. repeat split. Qed.

End FarmFacts.

(** ** The statements at work on the small instance *)

Module LineFacts.

Import Docking Example.

(** A pose at 50 is brought into the box at the third pass, with the
    slopes 100, 10^4 and 10^6, and keeps the slope of the evaluator. *)
Example refine_pose_at_50 :
  let r := refine_structure 50%Z tt evaluator (mk_output 50%Z 0%Q 0%Z) 8 in
  map (fun a => (a_p a, slope (st_nc (a_call a)), a_within a)) (snd r)
  = [(0%nat, inject_Z 100, false); (1%nat, inject_Z 10000, false);
     (2%nat, inject_Z 1000000, true)] /\
  c (st_out (fst r)) = 5%Z /\
  slope (st_nc (fst r)) = inject_Z 1000000.
Proof. vm_compute. repeat split. Qed.

(** The whole of [main_procedure] on the instance, with an energy range
    of 10: the grid is populated, four candidates are refined, and two
    modes are written, of energies 9 and 16; the candidate of energy 25
    is beyond the range and the one left outside the box comes last. *)
Example main_procedure_on_the_line :
  let o := main_procedure 0%Z None "out.pdbqt" false false false false box 8
             [1%Q; 1%Q; 1%Q; 1%Q; 1%Q; 1%Q] 1 42 0 9 (inject_Z 10) [] in
  o_ok o = true /\
  map is_populate (o_events o) = [true; false; false; false; false; false] /\
  map (fun f => match snd f with
                | F_models l => map (fun x => snd x) l
                | F_structure _ => []
                end) (o_files o) = [[3%Z; 4%Z]].
Proof. vm_compute. repeat split. Qed.

(** The sum of the selection is the binary64 one.  With the energies
    0.1 and 0.30000000000000004 and an energy range of 0.2, the second
    energy is above the exact sum of 0.1 and 0.2 but equal to their
    binary64 sum, so that the second pose is within the range and both
    poses are written. *)
Example selection_adds_in_binary64 :
  let pool := [mk_output 0%Z tenth 0%Z; mk_output 1%Z above_three_tenths 1%Z] in
  let r := report_modes 0%Z None evaluator pool "out.pdbqt" fifth 9 0 [] [] in
  (tenth + fifth < above_three_tenths)%Q /\
  (fl_add tenth fifth == above_three_tenths)%Q /\
  stop_selecting pool 9 fifth 1 (mk_output 1%Z above_three_tenths 1%Z) = false /\
  map (fun f => match snd f with
                | F_models l => map (fun x => snd x) l
                | F_structure _ => []
                end) (s_files r) = [[0%Z; 1%Z]].
Proof.
  split; [reflexivity|]. split; [reflexivity|].
  split; vm_compute; reflexivity.
Qed.

(** C2 on a pose at 200, which the minimizer of the instance never
    moves. *)
Lemma rejected_pose_not_selected_witness :
  not_max max_fl = false /\
  Forall (fun a => a_within a = false)
    (snd (refine_structure 200%Z tt evaluator (mk_output 200%Z 0%Q 0%Z) 8)) /\
  (e (st_out (fst (refine_structure 200%Z tt evaluator
                     (mk_output 200%Z 0%Q 0%Z) 8))) = max_fl /\
   forall m' ref nc' out_cont out_name energy_range num_modes verbosity log
          evs i o,
     nth_error out_cont i = Some o -> e o = max_fl ->
     exists written,
       s_files (report_modes m' ref nc' out_cont out_name energy_range
                  num_modes verbosity log evs)
       = [(out_name, F_models written)] /\
       (List.length written <= i)%nat).
Proof.
  assert (not_max max_fl = false) as Hmax by (vm_compute; reflexivity).
  assert (Forall (fun a => a_within a = false)
            (snd (refine_structure 200%Z tt evaluator
                    (mk_output 200%Z 0%Q 0%Z) 8))) as Hall
    by (vm_compute; repeat constructor).
  split; [exact Hmax|]. split; [exact Hall|].
  exact (SelectFacts.rejected_pose_not_selected Hmax 200%Z tt evaluator
           (mk_output 200%Z 0%Q 0%Z) 8 Hall).
Defined.

Lemma rmsd_on_the_line_symmetric (u v : vecv) : (rmsd u v == rmsd v u)%Q.
Proof.
  cbn. replace (v - u)%Z with (- (u - v))%Z by lia.
  rewrite Z.abs_opp. reflexivity.
Qed.

Lemma pool_ascending :
  ascending [pose 0 1; pose 0 2; pose 2 3; pose 3 4].
Proof.
  intros i j a b Hij Hi Hj.
  destruct i as [|[|[|[|i]]]]; cbn in Hi;
    try (destruct i; discriminate);
    destruct j as [|[|[|[|j]]]]; cbn in Hj;
    try (destruct j; discriminate); try lia;
    injection Hi as <-; injection Hj as <-;
    unfold Qle; cbn; lia.
Qed.

(** C3 on a pool of four candidates, two of them at the same place. *)
Lemma remove_redundant_keeps_lowest_witness :
  let pool := [pose 0 1; pose 0 2; pose 2 3; pose 3 4] in
  (forall u v : vecv, (rmsd u v == rmsd v u)%Q) /\
  ascending pool /\
  remove_redundant pool 1%Q = [pose 0 1; pose 2 3; pose 3 4] /\
  (forall i j a b, i <> j ->
     nth_error (remove_redundant pool 1%Q) i = Some a ->
     nth_error (remove_redundant pool 1%Q) j = Some b ->
     (1 <= rmsd (coords a) (coords b))%Q) /\
  (ascending pool ->
   forall x, In x pool ->
     In x (remove_redundant pool 1%Q) \/
     exists a, In a (remove_redundant pool 1%Q) /\
       close 1%Q x a /\ (e a <= e x)%Q).
Proof.
  split; [exact rmsd_on_the_line_symmetric|].
  split; [exact pool_ascending|].
  split; [vm_compute; reflexivity|].
  exact (PoolFacts.remove_redundant_keeps_lowest 1%Q
           [pose 0 1; pose 0 2; pose 2 3; pose 3 4]
           rmsd_on_the_line_symmetric).
Defined.

(** A local search on the instance, where a cache is [true] once
    populated: the cache is left as it was constructed, and the one
    refinement goes through the evaluator of the box. *)
Example local_search_on_the_line :
  let o := main_procedure 0%Z None "out.pdbqt" false true false false box 8
             [1%Q; 1%Q; 1%Q; 1%Q; 1%Q; 1%Q] 1 42 0 9 (inject_Z 10) [] in
  o_ok o = true /\
  o_events o = [Ev_refine evaluator] /\
  o_cache o = Some false.
Proof. vm_compute. repeat split. Qed.

(** C10 on the instance, where a cache is [true] once populated. *)
Lemma main_procedure_populates_witness :
  let weights : flv := [1%Q; 1%Q; 1%Q; 1%Q; 1%Q; 1%Q] in
  List.length weights = 6%nat /\
  let prec := mk_precalculate (weighted_terms everything weights) in
  let slope0 : fl := inject_Z 1000000 in
  let c0 := mk_cache box slope0 in
  let nc := mk_non_cache box prec slope0 in
  let run := fun score_only local_only randomize_only no_cache =>
    main_procedure 0%Z None "out.pdbqt" score_only local_only randomize_only
      no_cache box 8 weights 1 42 0 9 (inject_Z 10) [] in
  (forall score_only local_only randomize_only no_cache,
     (existsb is_populate
        (o_events (run score_only local_only randomize_only no_cache))
      = true <->
      no_cache = false /\ score_only = false /\ local_only = false /\
      randomize_only = false) /\
     o_cache (run score_only local_only randomize_only no_cache)
     = if randomize_only || no_cache then None
       else Some (if score_only || local_only then c0
                  else populate c0 0%Z prec)) /\
  (exists refinements,
     o_events (run false false false false)
     = Ev_populate c0
       :: Ev_search (Ig_cache (populate c0 0%Z prec))
            (Ig_cache (populate c0 0%Z prec))
       :: refinements /\
     Forall (fun ev => exists nc0, ev = Ev_refine nc0 /\ slope nc0 = slope0)
       refinements) /\
  (forall no_cache,
     o_events (run false true false no_cache) = [Ev_refine nc]) /\
  (forall local_only no_cache,
     o_events (run true local_only false no_cache) = [Ev_score]) /\
  (forall score_only local_only no_cache,
     o_events (run score_only local_only true no_cache) = [Ev_randomize]).
Proof.
  split; [reflexivity|].
  exact (MainFacts.main_procedure_populates 0%Z None "out.pdbqt" box 8
           [1%Q; 1%Q; 1%Q; 1%Q; 1%Q; 1%Q] 1 42 0 9 (inject_Z 10) [] eq_refl).
Defined.

End LineFacts.

(** ** The default output name and the occurrence of options *)

Module OptionsFacts.

Import Options.

Lemma substring_prefix (a b : string) :
  substring 0 (String.length a) (a ++ b) = a.
Proof.
  induction a as [|ch a IH]; cbn.
  - destruct b; reflexivity.
  - rewrite IH. reflexivity.
Qed.

Lemma substring_suffix (a b : string) :
  substring (String.length a) (String.length b) (a ++ b) = b.
Proof.
  induction a as [|ch a IH]; cbn; [|exact IH].
  induction b as [|ch b IHb]; cbn; [reflexivity | rewrite IHb; reflexivity].
Qed.

Lemma substring_split (s : string) :
  forall n, (n <= String.length s)%nat ->
  s = (substring 0 n s ++ substring n (String.length s - n) s)%string.
Proof.
  induction s as [|ch s IH]; intros n Hn.
  - cbn in Hn. destruct n; [reflexivity | lia].
  - destruct n as [|n].
    + cbn [substring append String.length Nat.sub].
      f_equal. clear IH Hn.
      induction s as [|x s IHs]; cbn; [reflexivity | f_equal; exact IHs].
    + cbn [substring append String.length Nat.sub]. f_equal.
      apply IH. cbn in Hn. lia.
Qed.

Lemma length_append (a b : string) :
  String.length (a ++ b) = (String.length a + String.length b)%nat.
Proof. induction a as [|ch a IH]; cbn; [reflexivity | rewrite IH; reflexivity]. Qed.

(** X1.  The default output name: a final [.pdbqt] of the input name, and
    only a final one, is replaced by [_out.pdbqt]; any other name gets
    [_out.pdbqt] appended. *)
Theorem default_output_spec (input_name : string) :
  (exists base, input_name = (base ++ ".pdbqt")%string /\
                default_output input_name = (base ++ "_out.pdbqt")%string) \/
  ((forall base, input_name <> (base ++ ".pdbqt")%string) /\
   default_output input_name = (input_name ++ "_out.pdbqt")%string).
Proof.
  unfold default_output.
  destruct ((6 <=? String.length input_name)%nat
            && String.eqb (substring (String.length input_name - 6) 6 input_name)
                 ".pdbqt") eqn:E.
  - left. apply andb_true_iff in E. destruct E as [Hlen Hsuf].
    apply Nat.leb_le in Hlen. apply String.eqb_eq in Hsuf.
    exists (substring 0 (String.length input_name - 6) input_name).
    split; [|reflexivity].
    rewrite (substring_split input_name (String.length input_name - 6)) at 1
      by lia.
    replace (String.length input_name - (String.length input_name - 6))%nat
      with 6%nat by lia.
    rewrite Hsuf. reflexivity.
  - right. split; [|reflexivity]. intros base ->.
    rewrite length_append in E. cbn [String.length] in E.
    replace (String.length base + 6 - 6)%nat with (String.length base) in E
      by lia.
    pose proof (substring_suffix base ".pdbqt") as Hs.
    cbn [String.length] in Hs. rewrite Hs in E.
    replace (6 <=? String.length base + 6)%nat with true in E
      by (symmetry; apply Nat.leb_le; lia).
    cbn in E. discriminate.
Qed.

Lemma get_occurrence_from_spec (vm : variables_map) (d : options_description) :
  forall tmp,
  some (get_occurrence_from vm d tmp)
  = some tmp || existsb (fun name => negb (vm name =? 0)%nat) d /\
  all (get_occurrence_from vm d tmp)
  = all tmp && forallb (fun name => negb (vm name =? 0)%nat) d.
Proof.
  induction d as [|name d IH]; intros tmp; cbn.
  - rewrite orb_false_r, andb_true_r. auto.
  - destruct (vm name =? 0)%nat; cbn [negb];
      destruct (IH (mk_occurrence true (all tmp))) as [H1 H2];
      destruct (IH (mk_occurrence (some tmp) false)) as [H3 H4];
      cbn [some all] in *.
    + rewrite H3, H4. cbn. rewrite andb_false_r. auto.
    + rewrite H1, H2. cbn. rewrite orb_true_r. auto.
Qed.

(** X2.  [get_occurrence]: [some] says that one of the described options is
    in the map, [all] that each of them is; and [check_occurrence]
    names, in order, exactly the options that are missing, so that it is
    silent exactly when [all] is set. *)
Theorem get_occurrence_spec (vm : variables_map) (d : options_description) :
  (some (get_occurrence vm d) = true <->
   exists name, In name d /\ vm name <> 0%nat) /\
  (all (get_occurrence vm d) = true <->
   forall name, In name d -> vm name <> 0%nat) /\
  check_occurrence vm d
  = flat_map (fun name =>
                ["Required parameter --"; name; line " is missing!"]%string)
      (filter (fun name => (vm name =? 0)%nat) d) /\
  (check_occurrence vm d = [] <-> all (get_occurrence vm d) = true).
Proof.
  unfold get_occurrence.
  destruct (get_occurrence_from_spec vm d no_occurrence) as [Hs Ha].
  cbn [some all no_occurrence orb andb] in Hs, Ha. rewrite Hs, Ha.
  assert (forallb (fun name => negb (vm name =? 0)%nat) d = true <->
          forall name, In name d -> vm name <> 0%nat) as Hall.
  { rewrite forallb_forall. split; intros H name Hin.
    - specialize (H name Hin). apply negb_true_iff in H.
      apply Nat.eqb_neq. exact H.
    - apply negb_true_iff. apply Nat.eqb_neq. apply H. exact Hin. }
  split; [|split; [exact Hall | split]].
  - rewrite existsb_exists. split; intros (name & Hin & H); exists name;
      (split; [exact Hin|]).
    + apply negb_true_iff in H. apply Nat.eqb_neq. exact H.
    + apply negb_true_iff. apply Nat.eqb_neq. exact H.
  - clear Hs Ha Hall. induction d as [|name d IH]; cbn; [reflexivity|].
    destruct (vm name =? 0)%nat; cbn; rewrite IH; reflexivity.
  - rewrite Hall. clear Hs Ha Hall.
    induction d as [|name d IH]; cbn.
    + split; [intros _ n [] | reflexivity].
    + destruct (vm name =? 0)%nat eqn:E.
      * split; [discriminate|]. intros H. exfalso.
        apply Nat.eqb_eq in E. apply (H name); [left; reflexivity | exact E].
      * rewrite IH. split; intros H n.
        -- intros [<-|Hn]; [apply Nat.eqb_neq; exact E | apply H; exact Hn].
        -- intros Hn. apply H. right. exact Hn.
Qed.

Lemma get_occurrence_from_plus (vm : variables_map) (d : options_description) :
  forall tmp,
  get_occurrence_from vm d tmp = plus tmp (get_occurrence vm d).
Proof.
  unfold get_occurrence.
  induction d as [|name d IH]; intros [s a]; unfold no_occurrence;
    cbn [get_occurrence_from some all].
  - unfold plus. cbn. rewrite orb_false_r, andb_true_r. reflexivity.
  - destruct (negb (vm name =? 0)%nat).
    + rewrite (IH (mk_occurrence true a)), (IH (mk_occurrence true true)).
      unfold plus. cbn. rewrite orb_true_r. reflexivity.
    + rewrite (IH (mk_occurrence s false)), (IH (mk_occurrence false false)).
      unfold plus. cbn. rewrite andb_false_r. reflexivity.
Qed.

Lemma get_occurrence_from_app (vm : variables_map) (d d' : options_description) :
  forall tmp,
  get_occurrence_from vm (d ++ d') tmp
  = get_occurrence_from vm d' (get_occurrence_from vm d tmp).
Proof.
  induction d as [|name d IH]; intros tmp; cbn [app get_occurrence_from];
    [reflexivity|].
  destruct (negb (vm name =? 0)%nat); apply IH.
Qed.

(** X3.  [operator+=] is how occurrences combine: the occurrence of the
    options of two descriptions put together is the sum of their
    occurrences, and the default occurrence, that of no option at all, is
    neutral on both sides. *)
Theorem get_occurrence_sum (vm : variables_map) (d d' : options_description)
    (x : options_occurrence) :
  get_occurrence vm (d ++ d')
  = plus (get_occurrence vm d) (get_occurrence vm d') /\
  get_occurrence vm [] = no_occurrence /\
  plus no_occurrence x = x /\ plus x no_occurrence = x.
Proof.
  split; [|split; [reflexivity|]].
  - unfold get_occurrence at 1.
    rewrite get_occurrence_from_app, get_occurrence_from_plus. reflexivity.
  - destruct x as [s a]. unfold plus, no_occurrence. cbn.
    rewrite orb_false_r, andb_true_r. split; reflexivity.
Qed.

End OptionsFacts.

(** ** More on the docking pipeline *)

Module PipelineFacts.

Import Docking Randomization.

Section Facts.

Context {T : Types} {K : Collab}.

(** X4.  What [write_all_output] writes: it throws exactly when there are
    fewer remarks than models to write; otherwise the file has the name
    it was given and holds the first [min how_many out.size()] poses,
    numbered from 1, each with its remark and the model set to its
    conformation. *)
Theorem write_all_output_spec (m : model) (out : output_container)
    (how_many : sz) (output_name : string) (remarks : list remark) :
  let n := Nat.min how_many (List.length out) in
  (write_all_output m out how_many output_name remarks = None <->
   (List.length remarks < n)%nat) /\
  forall m' f,
    write_all_output m out how_many output_name remarks = Some (m', f) ->
    exists written,
      f = (output_name, F_models written) /\
      map (fun x => fst (fst x)) written = seq 1 n /\
      forall j o r, (j < n)%nat ->
        nth_error out j = Some o -> nth_error remarks j = Some r ->
        exists m0, nth_error written j = Some (S j, r, model_set m0 (c o)).
Proof.
  cbn zeta. unfold write_all_output.
  assert ((if (List.length out <? how_many)%nat then List.length out
           else how_many) = Nat.min how_many (List.length out)) as ->.
  { destruct (Nat.ltb_spec (List.length out) how_many); lia. }
  set (n := Nat.min how_many (List.length out)).
  destruct (Nat.leb_spec n (List.length remarks)) as [Hle|Hgt].
  - destruct (write_models m 0 n out remarks) as [m1 l] eqn:E.
    split; [split; [discriminate | lia]|].
    intros m' f [= <- <-].
    destruct (SelectFacts.write_models_spec n out remarks m 0) as [Hl Hn];
      [unfold n; lia | exact Hle |].
    rewrite E in Hl, Hn. cbn [snd] in Hl, Hn.
    exists l. split; [reflexivity|]. split; [|exact Hn].
    (* the numbers *)
    clear Hn. revert Hl E. generalize 0%nat as i. generalize m.
    assert (n <= List.length out)%nat as Ho by (unfold n; lia).
    clearbody n. revert out remarks l m1 Ho Hle.
    induction n as [|k IH]; intros out remarks l m1 Ho Hle m0 i Hl E.
    + destruct l; [reflexivity | discriminate].
    + destruct out as [|o out]; [cbn in Ho; lia|].
      destruct remarks as [|r remarks]; [cbn in Hle; lia|].
      cbn [write_models] in E.
      destruct (write_models (model_set m0 (c o)) (S i) k out remarks)
        as [m2 l2] eqn:E2.
      injection E as <- <-. cbn [map seq fst]. f_equal.
      cbn [List.length] in *.
      apply (IH out remarks l2 m2) with (m := model_set m0 (c o)) (i := S i);
        [lia | lia | lia | exact E2].
  - split; [split; [intros _; exact Hgt | reflexivity]|]. discriminate.
Qed.

Section Randomize.

Variables (init_conf : conf) (corner1 corner2 : vec).

(** The passes of the loop after the first: the penalty kept does not
    grow, is no greater than the penalty of any conformation drawn, and
    belongs to the conformation kept. *)
Lemma randomize_loop_later n :
  forall k m g best_conf best,
  (0 < k)%nat ->
  let r := randomize_loop init_conf corner1 corner2 (seq k n) m g
             best_conf best in
  (snd r <= best)%Q /\
  (forall cp, In cp (randomized init_conf corner1 corner2 n m g) ->
     (snd r <= snd cp)%Q) /\
  ((snd (fst r), snd r) = (best_conf, best) \/
   In (snd (fst r), snd r) (randomized init_conf corner1 corner2 n m g)).
Proof.
  induction n as [|n IH]; intros k m g best_conf best Hk; cbn zeta.
  - cbn. split; [apply Qle_refl|]. split; [intros cp [] | left; reflexivity].
  - cbn [seq randomize_loop randomized].
    destruct (conf_randomize init_conf corner1 corner2 g) as [c1 g1].
    replace (k =? 0)%nat with false by (symmetry; apply Nat.eqb_neq; lia).
    cbn [orb].
    destruct (fl_lt (clash_penalty (model_set m c1)) best) eqn:E.
    + apply fl_lt_true in E.
      destruct (IH (S k) (model_set m c1) g1 c1
                  (clash_penalty (model_set m c1))) as (H1 & H2 & H3); [lia|].
      cbn zeta in H1, H2, H3. split; [|split].
      * apply Qle_trans with (clash_penalty (model_set m c1));
          [exact H1 | apply Qlt_le_weak; exact E].
      * intros cp [<-|Hin]; [exact H1 | apply H2; exact Hin].
      * right. destruct H3 as [H3|H3]; [left; symmetry; exact H3 | right; exact H3].
    + apply fl_lt_false in E.
      destruct (IH (S k) (model_set m c1) g1 best_conf best)
        as (H1 & H2 & H3); [lia|].
      cbn zeta in H1, H2, H3. split; [exact H1|]. split.
      * intros cp [<-|Hin]; [|apply H2; exact Hin].
        cbn [snd]. apply Qle_trans with best; assumption.
      * destruct H3 as [H3|H3]; [left; exact H3 | right; right; exact H3].
Qed.

End Randomize.

(** X5.  [do_randomization] keeps the best of its 10000 draws: the structure
    it writes, under the name it was given, is the model set to a
    conformation that was drawn, whose clash penalty is no greater than
    that of any conformation drawn; and with a verbosity of at most 1 it
    logs nothing. *)
Theorem do_randomization_keeps_best (m : model) (out_name : string)
    (corner1 corner2 : vec) (seed verbosity : Z) (log : tee) :
  let draws := randomized (get_initial_conf m) corner1 corner2 (100 * 100) m
                 (rng_seeded seed) in
  let r := do_randomization m out_name corner1 corner2 seed verbosity log in
  exists best_conf best m0,
    In (best_conf, best) draws /\
    (forall cp, In cp draws -> (best <= snd cp)%Q) /\
    fst (fst r) = model_set m0 best_conf /\
    snd r = (out_name, F_structure (model_set m0 best_conf)) /\
    ((verbosity <= 1)%Z -> snd (fst r) = log).
Proof.
  intros draws r. subst r draws. unfold do_randomization.
  set (init_conf := get_initial_conf m).
  set (n := (100 * 100)%nat).
  assert (exists n', n = S n') as [n' Hn]
    by (exists (Nat.pred (100 * 100)); reflexivity).
  rewrite Hn. clearbody n. clear Hn n.
  cbn [seq randomize_loop randomized Nat.eqb orb].
  destruct (conf_randomize init_conf corner1 corner2 (rng_seeded seed))
    as [c1 g1].
  pose proof (randomize_loop_later init_conf corner1 corner2 n' 1
                (model_set m c1) g1 c1
                (clash_penalty (model_set m c1)) Nat.lt_0_1) as H.
  cbn zeta in H.
  destruct (randomize_loop init_conf corner1 corner2 (seq 1 n')
              (model_set m c1) g1 c1 (clash_penalty (model_set m c1)))
    as [[[m1 g2] best_conf] best].
  cbn [fst snd] in H. destruct H as (H1 & H2 & H3).
  exists best_conf, best, m1. cbn [fst snd].
  split; [|split; [|split; [reflexivity | split; [reflexivity|]]]].
  - destruct H3 as [H3|H3]; [left; symmetry; exact H3 | right; exact H3].
  - intros cp [<-|Hin]; [exact H1 | apply H2; exact Hin].
  - intros Hv. replace (1 <? verbosity)%Z with false
      by (symmetry; apply Z.ltb_ge; exact Hv).
    reflexivity.
Qed.

(** X6.  What [refine_structure] hands back: the conformation and the
    gradient are those the minimizer left at the last pass, the model is
    set to that conformation, the coordinates are those of the model,
    and the energy is the one the minimizer left when the last [within]
    test succeeded and [max_fl] when it failed. *)
Theorem refine_structure_result (m : model) (prec : precalculate)
    (nc : non_cache) (out : output_type) (max_steps : Z) :
  let r := refine_structure m prec nc out max_steps in
  exists a,
    nth_error (snd r) (List.length (snd r) - 1) = Some a /\
    c (st_out (fst r)) = c (st_out (a_ret a)) /\
    st_g (fst r) = st_g (a_ret a) /\
    st_m (fst r) = model_set (st_m (a_ret a)) (c (st_out (fst r))) /\
    coords (st_out (fst r)) = get_heavy_atom_movable_coords (st_m (fst r)) /\
    e (st_out (fst r)) = (if a_within a then e (st_out (a_ret a)) else max_fl).
Proof.
  cbn zeta. rewrite (RefineFacts.refine_structure_eq max_steps prec).
  cbn zeta. cbn [fst snd].
  set (s0 := mk_state m nc out (change_zero m)).
  destruct (RefineFacts.anneal_last max_steps prec 4 0 s0) as (a & Hn & Hf & Hw).
  destruct (RefineFacts.anneal_nth max_steps prec 5 0 s0 _ a Hn)
    as (s1 & Ha & _).
  assert (a_end a = with_m (a_ret a)
                      (model_set (st_m (a_ret a)) (c (st_out (a_ret a)))))
    as Hend by (rewrite Ha; reflexivity).
  clear Ha. set (r := anneal max_steps prec (seq 0 5) s0) in *.
  clearbody r. exists a. split; [exact Hn|].
  rewrite Hf, Hw, Hend. cbn [with_m st_out st_m st_g].
  destruct (a_within a); cbn; repeat split.
Qed.

Lemma last_of_cons {A : Type} (l : list A) :
  forall a d d', last (a :: l) d = last (a :: l) d'.
Proof.
  induction l as [|b l IH]; intros a d d'; [reflexivity|].
  change (last (a :: b :: l) d) with (last (b :: l) d).
  change (last (a :: b :: l) d') with (last (b :: l) d').
  apply IH.
Qed.

(** X7.  The refinement loop of [do_search] refines every pose of the
    container once, in order: pose [i] comes back as [refine_structure]
    leaves it when it is called on that pose with the model and the
    evaluator as the refinement of the pose before left them (the
    caller's, for the first pose).  The model and the evaluator that
    come back are those the last refinement left, each evaluator on the
    way has the slope the caller passed, and nothing else is driven. *)
Theorem refine_all_refines_each (prec : precalculate) (max_steps : Z)
    (out_cont : output_container) :
  forall (m : model) (nc : non_cache),
  let r := refine_all m prec nc max_steps out_cont in
  exists ss : list state,
    let ms := m :: map st_m ss in
    let ncs := nc :: map st_nc ss in
    List.length ss = List.length out_cont /\
    (forall i o, nth_error out_cont i = Some o ->
       nth_error ss i
       = Some (fst (refine_structure (nth i ms m) prec (nth i ncs nc) o
                      max_steps))) /\
    snd (fst r) = map st_out ss /\
    fst (fst (fst r)) = last ms m /\
    snd (fst (fst r)) = last ncs nc /\
    snd r = map Ev_refine (removelast ncs) /\
    Forall (fun nc0 => slope nc0 = slope nc) ncs.
Proof.
  induction out_cont as [|o rest IH]; intros m nc; cbv zeta.
  - exists []. cbn. repeat split.
    + intros i o Hi. destruct i; discriminate.
    + repeat constructor.
  - cbn [refine_all].
    set (s := fst (refine_structure m prec nc o max_steps)).
    assert (slope (st_nc s) = slope nc) as Hs
      by (unfold s; rewrite (RefineFacts.refine_structure_eq max_steps prec);
          reflexivity).
    specialize (IH (st_m s) (st_nc s)). cbv zeta in IH.
    destruct (refine_all (st_m s) prec (st_nc s) max_steps rest)
      as [[[m' nc'] rest'] evs].
    cbn [fst snd] in IH |- *.
    destruct IH as (ss & Hlen & Hnth & Hout & Hm & Hnc & Hev & Hsl).
    exists (s :: ss). cbn [map List.length].
    split; [rewrite Hlen; reflexivity|].
    split; [|split; [|split; [|split; [|split]]]].
    + intros i o' Hi. destruct i as [|i]; cbn [nth_error] in Hi |- *.
      * injection Hi as <-. reflexivity.
      * change (nth (S i) (m :: st_m s :: map st_m ss) m)
          with (nth i (st_m s :: map st_m ss) m).
        change (nth (S i) (nc :: st_nc s :: map st_nc ss) nc)
          with (nth i (st_nc s :: map st_nc ss) nc).
        rewrite (Hnth i o' Hi).
        assert (i < List.length rest)%nat as Hi'
          by (apply nth_error_Some; congruence).
        rewrite (nth_indep (st_m s :: map st_m ss) (st_m s) m)
          by (cbn [List.length]; rewrite length_map, Hlen; lia).
        rewrite (nth_indep (st_nc s :: map st_nc ss) (st_nc s) nc)
          by (cbn [List.length]; rewrite length_map, Hlen; lia).
        reflexivity.
    + rewrite Hout. reflexivity.
    + rewrite Hm.
      change (last (m :: st_m s :: map st_m ss) m)
        with (last (st_m s :: map st_m ss) m).
      apply last_of_cons.
    + rewrite Hnc.
      change (last (nc :: st_nc s :: map st_nc ss) nc)
        with (last (st_nc s :: map st_nc ss) nc).
      apply last_of_cons.
    + rewrite Hev. reflexivity.
    + constructor; [reflexivity|].
      eapply Forall_impl; [|exact Hsl]. cbn. intros nc0 H0. congruence.
Qed.

(** X8.  The rescoring loop of [do_search] leaves every conformation and
    every coordinate vector as it was, and never touches a pose on whose
    energy [not_max] fails. *)
Theorem rescore_keeps_rejected (sf : scoring) (prec : precalculate)
    (nc : non_cache) (intramolecular : fl) (out_cont : output_container) :
  forall (m : model),
  let r := rescore m sf prec nc intramolecular out_cont in
  List.length (snd r) = List.length out_cont /\
  forall i o, nth_error out_cont i = Some o ->
    exists o', nth_error (snd r) i = Some o' /\
      c o' = c o /\ coords o' = coords o /\
      (not_max (e o) = false -> o' = o).
Proof.
  induction out_cont as [|o rest IH]; intros m; cbn zeta.
  - cbn. split; [reflexivity|]. intros i o Hi. destruct i; discriminate.
  - cbn [rescore]. destruct (not_max (e o)) eqn:E.
    + destruct (eval_adjusted m sf prec nc (c o) intramolecular) as [x m1].
      specialize (IH m1). cbn zeta in IH.
      destruct (rescore m1 sf prec nc intramolecular rest) as [m2 rest'].
      cbn [snd] in *. destruct IH as [Hl Hn]. split; [cbn; lia|].
      intros i o' Hi. destruct i as [|i]; cbn [nth_error] in *.
      * injection Hi as <-. eexists. split; [reflexivity|].
        cbn. repeat split. congruence.
      * apply Hn. exact Hi.
    + specialize (IH m). cbn zeta in IH.
      destruct (rescore m sf prec nc intramolecular rest) as [m2 rest'].
      cbn [snd] in *. destruct IH as [Hl Hn]. split; [cbn; lia|].
      intros i o' Hi. destruct i as [|i]; cbn [nth_error] in *.
      * injection Hi as <-. eexists. repeat split.
      * apply Hn. exact Hi.
Qed.

(** The file [do_search] writes without [score_only]. *)
Lemma do_search_writes_aux (m : model) (ref : option model) (sf : scoring)
    (prec : precalculate) (ig : igrid) (prec_widened : precalculate)
    (ig_widened : igrid) (nc : non_cache) (out_name : string)
    (corner1 corner2 : vec) (par : parallel_mc) (energy_range : fl)
    (num_modes : sz) (seed verbosity : Z) (local_only : bool) (log : tee)
    (t : terms) (weights : flv) :
  let r := do_search m ref sf prec ig prec_widened ig_widened nc out_name
             corner1 corner2 par energy_range num_modes seed verbosity
             false local_only log t weights in
  s_ok r = true /\
  exists written,
    s_files r = [(out_name, F_models written)] /\
    (local_only = true -> List.length written = 1%nat) /\
    (local_only = false -> (List.length written <= num_modes)%nat).
Proof.
  cbn zeta. unfold do_search. destruct local_only.
  - destruct (eval_intramolecular _ _ _) as [x m1].
    destruct (eval_adjusted _ _ _ _ _ _) as [e1 m2].
    unfold write_all_output. cbn.
    split; [reflexivity|]. eexists. split; [reflexivity|].
    split; [reflexivity | discriminate].
  - destruct (par_search _ _ _ _ _ _ _ _ _ _) as [[m1 out1] g].
    destruct (refine_all _ _ _ _ _) as [[[m2 nc2] out2] evs].
    assert (forall m3 out3 l evs',
              let r := report_modes m3 ref nc2 out3 out_name energy_range
                         num_modes verbosity l evs' in
              s_ok r = true /\
              exists written,
                s_files r = [(out_name, F_models written)] /\
                (false = true -> List.length written = 1%nat) /\
                (false = false -> (List.length written <= num_modes)%nat))
      as Hrep.
    { intros m3 out3 l evs'. cbn zeta.
      destruct (SelectFacts.report_modes_spec m3 ref nc2 out3 out_name
                  energy_range num_modes verbosity l evs')
        as (k & written & Hok & Hf & Hl & Hk & Hbefore & _).
      split; [exact Hok|]. exists written. split; [exact Hf|].
      split; [discriminate|]. intros _. rewrite Hl.
      destruct (Nat.le_gt_cases k num_modes) as [Hle|Hgt]; [exact Hle|].
      exfalso.
      destruct (nth_error out3 num_modes) as [o|] eqn:E.
      - destruct (Hbefore num_modes o Hgt E) as ((Hlt & _) & _). lia.
      - apply nth_error_None in E. lia. }
    destruct out2 as [|o out2];
      [| destruct (sort (o :: out2)) as [|o0 sorted];
         [| destruct (eval_intramolecular _ _ _) as [x ma];
            destruct (rescore _ _ _ _ _ _) as [mb rescored]]];
      apply Hrep.
Qed.

(** X9.  [do_search] without [score_only] never throws: the check of
    [write_all_output] holds on every path.  It writes one file, under
    the name it was given: one model for a local search, and at most
    [num_modes] models otherwise. *)
Theorem do_search_writes (m : model) (ref : option model) (sf : scoring)
    (prec : precalculate) (ig : igrid) (prec_widened : precalculate)
    (ig_widened : igrid) (nc : non_cache) (out_name : string)
    (corner1 corner2 : vec) (par : parallel_mc) (energy_range : fl)
    (num_modes : sz) (seed verbosity : Z) (local_only : bool) (log : tee)
    (t : terms) (weights : flv) :
  let r := do_search m ref sf prec ig prec_widened ig_widened nc out_name
             corner1 corner2 par energy_range num_modes seed verbosity
             false local_only log t weights in
  s_ok r = true /\
  exists written,
    s_files r = [(out_name, F_models written)] /\
    (local_only = true -> List.length written = 1%nat) /\
    (local_only = false -> (List.length written <= num_modes)%nat).
Proof.
  exact (do_search_writes_aux m ref sf prec ig prec_widened ig_widened nc
           out_name corner1 corner2 par energy_range num_modes seed verbosity
           local_only log t weights).
Qed.

Lemma do_randomization_file (m : model) (out_name : string)
    (corner1 corner2 : vec) (seed verbosity : Z) (log : tee) :
  fst (snd (do_randomization m out_name corner1 corner2 seed verbosity log))
  = out_name.
Proof.
  unfold do_randomization.
  destruct (randomize_loop _ _ _ _ _ _ _ _) as [[[m1 g] bc] bp]. reflexivity.
Qed.


(** X10.  [main_procedure] without [score_only] returns normally exactly when
    it is given six weights.  With another number of weights it stops
    after its first log message, before any file is written or any
    collaborator driven; with six it writes one file, under the name it
    was given. *)
Theorem main_procedure_returns (m : model) (ref : option model)
    (out_name : string) (local_only randomize_only no_cache : bool)
    (gd : grid_dims) (exhaustiveness : Z) (weights : flv)
    (cpu seed verbosity : Z) (num_modes : sz) (energy_range : fl)
    (log : tee) :
  let o := main_procedure m ref out_name false local_only randomize_only
             no_cache gd exhaustiveness weights cpu seed verbosity num_modes
             energy_range log in
  (o_ok o = true <-> List.length weights = 6%nat) /\
  (List.length weights <> 6%nat ->
   o_files o = [] /\ o_events o = [] /\
   o_log o = doing verbosity "Setting up the scoring function" log) /\
  (List.length weights = 6%nat ->
   exists body, o_files o = [(out_name, body)]).
Proof.
  cbn zeta. unfold main_procedure.
  destruct (Nat.eqb_spec (List.length weights) 6) as [Hw|Hw]; cbn [negb].
  - destruct gd as [[gd0 gd1] gd2].
    assert (forall s : searched,
              s_ok s = true /\
              (exists written, s_files s = [(out_name, F_models written)]) ->
              forall evs c,
              (o_ok (outcome_of evs c s) = true <->
               List.length weights = 6%nat) /\
              (List.length weights <> 6%nat ->
               o_files (outcome_of evs c s) = [] /\
               o_events (outcome_of evs c s) = [] /\
               o_log (outcome_of evs c s)
               = doing verbosity "Setting up the scoring function" log) /\
              (List.length weights = 6%nat ->
               exists body, o_files (outcome_of evs c s) = [(out_name, body)]))
      as Hout.
    { intros s (Hok & written & Hf) evs c0. unfold outcome_of.
      cbn [o_ok o_files]. rewrite Hok, Hf.
      split; [tauto|]. split; [contradiction|]. intros _. eexists. reflexivity. }
    destruct randomize_only.
    + destruct (do_randomization _ _ _ _ _ _ _) as [[m1 log3] f] eqn:E.
      pose proof (do_randomization_file m out_name
                    (gd_begin gd0, gd_begin gd1, gd_begin gd2)
                    (gd_end gd0, gd_end gd1, gd_end gd2) seed verbosity
                    (done verbosity
                       (doing verbosity "Setting up the scoring function" log)))
        as Hname.
      rewrite E in Hname. cbn [snd fst] in Hname. cbn [o_ok o_files].
      split; [tauto|]. split; [contradiction|]. intros _.
      destruct f as [name body]. cbn in Hname. subst name.
      eexists. reflexivity.
    + destruct no_cache; apply Hout;
        match goal with |- context [do_search ?a ?b ?c ?d ?e ?f ?g ?h ?i ?j ?k ?l ?m ?n ?o ?p false ?r ?s ?t ?u] =>
          destruct (do_search_writes_aux a b c d e f g h i j k l m n o p r s t u)
            as (Hok & written & Hf & _)
        end; (split; [exact Hok | exists written; exact Hf]).
  - cbn [o_ok o_files o_events o_log].
    split; [split; [discriminate | contradiction]|].
    split; [auto | contradiction].
Qed.

(** X11.  The order in which [main_procedure] looks at the modes, for six
    weights: [randomize_only] comes first, and such a run only
    randomizes and writes a structure, whatever the other switches;
    [score_only] comes next, and such a run only scores: it drives no
    search, no refinement and no population of the grid, and writes no
    file, even if [local_only] is set too. *)
Theorem main_procedure_mode_order (m : model) (ref : option model)
    (out_name : string) (score_only local_only randomize_only no_cache : bool)
    (gd : grid_dims) (exhaustiveness : Z) (weights : flv)
    (cpu seed verbosity : Z) (num_modes : sz) (energy_range : fl)
    (log : tee) :
  List.length weights = 6%nat ->
  let o := main_procedure m ref out_name score_only local_only randomize_only
             no_cache gd exhaustiveness weights cpu seed verbosity num_modes
             energy_range log in
  (randomize_only = true ->
   o_events o = [Ev_randomize] /\ o_ok o = true /\
   exists ms, o_files o = [(out_name, F_structure ms)]) /\
  (randomize_only = false -> score_only = true ->
   o_events o = [Ev_score] /\ o_files o = []).
Proof.
  intros Hw. cbn zeta. unfold main_procedure. rewrite Hw. cbn [Nat.eqb negb].
  destruct gd as [[gd0 gd1] gd2]. destruct randomize_only.
  - split; [|discriminate]. intros _.
    unfold do_randomization.
    destruct (randomize_loop _ _ _ _ _ _ _ _) as [[[m1 g] bc] bp].
    cbn. repeat split. eexists. reflexivity.
  - split; [discriminate|]. intros _ ->.
    destruct no_cache; unfold outcome_of, do_search; cbn [orb negb];
      destruct (score_only_report _ _ _ _ _ _) as [[m1 log1] ok];
      cbn; split; reflexivity.
Qed.

(** X12.  A plain docking run of [main_procedure] (none of the three mode
    switches), for six weights, in the order of what it drives: with the
    cache, the grid is populated first, and the search then runs on that
    one grid, for its widened pass too; with [no_cache] nothing is
    populated and the search runs on the two direct evaluators, the
    second with the widened precalculation.  After the search come the
    refinements and nothing else, each through an evaluator of slope
    10^6. *)
Theorem main_procedure_docking_order (m : model) (ref : option model)
    (out_name : string) (no_cache : bool)
    (gd : grid_dims) (exhaustiveness : Z) (weights : flv)
    (cpu seed verbosity : Z) (num_modes : sz) (energy_range : fl)
    (log : tee) :
  List.length weights = 6%nat ->
  let o := main_procedure m ref out_name false false false no_cache gd
             exhaustiveness weights cpu seed verbosity num_modes
             energy_range log in
  let prec := mk_precalculate (weighted_terms everything weights) in
  let slope0 : fl := inject_Z 1000000 in
  let c1 := populate (mk_cache gd slope0) m prec in
  exists refinements,
    o_events o
    = (if no_cache
       then [Ev_search (Ig_non_cache (mk_non_cache gd prec slope0))
               (Ig_non_cache
                  (mk_non_cache gd (widen prec (1 # 4)%Q (1 # 4)%Q) slope0))]
       else [Ev_populate (mk_cache gd slope0);
             Ev_search (Ig_cache c1) (Ig_cache c1)])
      ++ refinements /\
    Forall (fun ev => exists nc0, ev = Ev_refine nc0 /\ slope nc0 = slope0)
      refinements.
Proof.
  intros Hw. cbn zeta. unfold main_procedure. rewrite Hw. cbn [Nat.eqb negb].
  destruct gd as [[gd0 gd1] gd2].
  set (prec := mk_precalculate (weighted_terms everything weights)).
  set (nc := mk_non_cache (gd0, gd1, gd2) prec (inject_Z 1000000)).
  assert (forall ig igw par corner1 corner2 l,
            exists refinements,
              s_events (do_search m ref (weighted_terms everything weights)
                          prec ig (if no_cache then widen prec (1 # 4)%Q (1 # 4)%Q else prec)
                          igw nc out_name corner1 corner2 par energy_range
                          num_modes seed verbosity false false l everything
                          weights)
              = Ev_search ig igw :: refinements /\
              Forall (fun ev => exists nc0, ev = Ev_refine nc0 /\
                                  slope nc0 = inject_Z 1000000) refinements)
    as Hsearch.
  { intros ig igw par corner1 corner2 l. unfold do_search.
    destruct (par_search _ _ _ _ _ _ _ _ _ _) as [[m1 out1] g].
    pose proof (MainFacts.refine_all_spec prec (ssd_evals par) out1 m1 nc) as Hall.
    cbn zeta in Hall.
    destruct (refine_all _ _ _ _ _) as [[[m2 nc2] out2] evs].
    cbn [fst snd] in Hall. destruct Hall as (_ & _ & _ & Hev).
    exists evs. split.
    - destruct out2 as [|o out2];
        [| destruct (sort (o :: out2)) as [|o0 sorted];
           [| destruct (eval_intramolecular _ _ _) as [x ma];
              destruct (rescore _ _ _ _ _ _) as [mb rescored]]];
        apply MainFacts.report_modes_events.
    - apply Forall_forall. exact Hev. }
  destruct no_cache; cbn [orb negb]; unfold outcome_of; cbn [o_events].
  - match goal with |- context [do_search _ _ _ _ ?ig _ ?igw _ _ ?c1 ?c2 ?par _ _ _ _ _ _ ?l _ _] =>
      destruct (Hsearch ig igw par c1 c2 l) as (refinements & Hev & Hall)
    end.
    exists refinements. split; [|exact Hall].
    cbn [app]. exact Hev.
  - match goal with |- context [do_search _ _ _ _ ?ig _ ?igw _ _ ?c1 ?c2 ?par _ _ _ _ _ _ ?l _ _] =>
      destruct (Hsearch ig igw par c1 c2 l) as (refinements & Hev & Hall)
    end.
    exists refinements. split; [|exact Hall].
    cbn [app]. rewrite Hev. reflexivity.
Qed.

End Facts.

End PipelineFacts.

(** ** The pipeline on the instance *)

Module LineRuns.

Import Docking Example.

(** The order of the modes on the instance, with every switch set. *)
Lemma main_procedure_mode_order_witness :
  let weights : flv := [1%Q; 1%Q; 1%Q; 1%Q; 1%Q; 1%Q] in
  List.length weights = 6%nat /\
  let o := main_procedure 0%Z None "out.pdbqt"%string true true true false box 8
             weights 1 42 0 9 (inject_Z 10) [] in
  (true = true ->
   o_events o = [Ev_randomize] /\ o_ok o = true /\
   exists ms, o_files o = [("out.pdbqt"%string, F_structure ms)]) /\
  (true = false -> true = true ->
   o_events o = [Ev_score] /\ o_files o = []).
Proof.
  split; [reflexivity|].
  exact (PipelineFacts.main_procedure_mode_order 0%Z None "out.pdbqt"%string true
           true true false box 8 [1%Q; 1%Q; 1%Q; 1%Q; 1%Q; 1%Q] 1 42 0 9
           (inject_Z 10) [] eq_refl).
Defined.

(** The order of a plain docking run on the instance. *)
Lemma main_procedure_docking_order_witness :
  let weights : flv := [1%Q; 1%Q; 1%Q; 1%Q; 1%Q; 1%Q] in
  List.length weights = 6%nat /\
  let o := main_procedure 0%Z None "out.pdbqt"%string false false false false
             box 8 weights 1 42 0 9 (inject_Z 10) [] in
  let prec := mk_precalculate (weighted_terms everything weights) in
  let slope0 : fl := inject_Z 1000000 in
  let c1 := populate (mk_cache box slope0) 0%Z prec in
  exists refinements,
    o_events o
    = [Ev_populate (mk_cache box slope0);
       Ev_search (Ig_cache c1) (Ig_cache c1)]
      ++ refinements /\
    Forall (fun ev => exists nc0, ev = Ev_refine nc0 /\ slope nc0 = slope0)
      refinements.
Proof.
  split; [reflexivity|].
  exact (PipelineFacts.main_procedure_docking_order 0%Z None
           "out.pdbqt"%string false box 8 [1%Q; 1%Q; 1%Q; 1%Q; 1%Q; 1%Q]
           1 42 0 9 (inject_Z 10) [] eq_refl).
Defined.

End LineRuns.

(** ** The batch loop over the lines of a job file *)

Module BatchFacts.

Import Stream Fork Farm Batch.

Lemma job_lines_app (l l' : list string) :
  job_lines (l ++ l') = (job_lines l ++ job_lines l')%string.
Proof.
  induction l as [|p l IH]; cbn [app job_lines]; [reflexivity|].
  rewrite IH, !FarmFacts.append_assoc. reflexivity.
Qed.

Lemma read_line_no_newline (s : string) :
  no_newline s = true -> read_line s = (s, String.length s, true).
Proof.
  induction s as [|ch s IH]; cbn [no_newline read_line]; intros H;
    [reflexivity|].
  apply andb_true_iff in H. destruct H as [Hch Hs].
  apply negb_true_iff in Hch. rewrite Hch, (IH Hs). reflexivity.
Qed.

(** [getline] at the start of a line that a newline ends. *)
Lemma getline_at_line (f : ifstream) (pre p rest : string) :
  no_newline p = true ->
  at_line f pre (p ++ nl ++ rest) ->
  exists f', getline f = (f', p) /\ eof f' = false /\
             at_line f' (pre ++ p ++ nl) rest.
Proof.
  intros Hp ->. rewrite (FarmFacts.getline_of_path pre p rest Hp).
  eexists. split; [reflexivity|]. split; [reflexivity|].
  unfold at_line. f_equal.
  rewrite !FarmFacts.append_assoc. reflexivity.
Qed.

(** [getline] at the start of a last line that no newline ends: the line
    is extracted, and the end of the file is met. *)
Lemma getline_at_last (f : ifstream) (pre last : string) :
  no_newline last = true ->
  at_line f pre last ->
  exists f', getline f = (f', last) /\ eof f' = true.
Proof.
  intros Hl ->. unfold getline. cbn [eofbit failbit orb content pos].
  rewrite FarmFacts.drop_append, (read_line_no_newline last Hl).
  eexists. split; reflexivity.
Qed.

Lemma job_line_not_empty (p : string) :
  job_line p -> String.eqb p EmptyString = false.
Proof.
  intros [_ Hne]. apply String.eqb_neq. exact Hne.
Qed.

Section Facts.

Variables (o : fork_oracle) (N : Z) (batch_out : string).

Lemma forks_snoc tr evs :
  forks (tr ++ evs) = forks tr ++ forks evs.
Proof. apply flat_map_app. Qed.

Lemma dockings_snoc tr evs :
  dockings (tr ++ evs) = dockings tr ++ dockings evs.
Proof. apply flat_map_app. Qed.

(** A [wait] and [pop] touches neither the stream nor the counters of
    the forks and the draws, and shows no fork and no docking. *)
Lemma wait_and_pop_keeps s :
  infile (wait_and_pop o s) = infile s /\
  i (wait_and_pop o s) = i s /\
  n_fork (wait_and_pop o s) = n_fork s /\
  n_rand (wait_and_pop o s) = n_rand s /\
  forks (trace (wait_and_pop o s)) = forks (trace s) /\
  dockings (trace (wait_and_pop o s)) = dockings (trace s).
Proof.
  unfold wait_and_pop. destruct (wait o (n_wait s) (children s)) as [[r st] ch].
  cbn [infile i n_fork n_rand trace].
  rewrite forks_snoc, dockings_snoc. cbn. rewrite !app_nil_r.
  repeat split; reflexivity.
Qed.

Lemma drain_keeps use_fork k : forall s,
  infile (drain o use_fork k s) = infile s /\
  i (drain o use_fork k s) = i s /\
  n_fork (drain o use_fork k s) = n_fork s /\
  n_rand (drain o use_fork k s) = n_rand s /\
  forks (trace (drain o use_fork k s)) = forks (trace s) /\
  dockings (trace (drain o use_fork k s)) = dockings (trace s).
Proof.
  induction k as [|k IH]; intros s; cbn [drain]; [repeat split; reflexivity|].
  destruct (use_fork && negb (List.length (pid_queue s) =? 0)); [|repeat split; reflexivity].
  destruct (IH (wait_and_pop o s)) as (H1 & H2 & H3 & H4 & H5 & H6).
  destruct (wait_and_pop_keeps s) as (K1 & K2 & K3 & K4 & K5 & K6).
  rewrite H1, H2, H3, H4, H5, H6. repeat split; assumption.
Qed.

Lemma drain_sequential k s : drain o false k s = s.
Proof. destruct k; reflexivity. Qed.

(** The sequential loop over lines that newlines end: each is docked in
    turn, with the second of the two draws made for it as its seed; a
    docking that throws leaves the ligand counter where it was. *)
Lemma scheduler_sequential : forall paths a pre rest fuel s,
  Forall job_line paths ->
  at_line (infile s) pre (job_lines paths ++ rest) ->
  n_rand s = (2 * a)%nat ->
  exists s',
    scheduler o false N batch_out (List.length paths + fuel) s
    = scheduler o false N batch_out fuel s' /\
    at_line (infile s') (pre ++ job_lines paths) rest /\
    trace s' = trace s ++
      map (fun kp => Docked (snd kp) (outname batch_out (snd kp))
                       (random_int o (2 * fst kp + 1)))
          (numbered_from a paths) /\
    n_rand s' = (2 * (a + List.length paths))%nat /\
    n_fork s' = n_fork s /\ n_wait s' = n_wait s /\
    pid_queue s' = pid_queue s /\ children s' = children s /\
    ((0 <= i s)%Z ->
     (i s + Z.of_nat (List.length paths) < 2 ^ 31)%Z ->
     i s' = (i s + Z.of_nat (List.length
                     (filter (fun p => negb (dock_throws o p)) paths)))%Z).
Proof.
  induction paths as [|p paths IH]; intros a pre rest fuel s Hp Hat Hr.
  - exists s. cbn [List.length Nat.add job_lines append] in *.
    rewrite FarmFacts.append_nil_r. unfold numbered_from. cbn.
    rewrite app_nil_r, Nat.add_0_r, Z.add_0_r. repeat split; auto.
  - inversion Hp as [|? ? Hp1 Hp2]; subst.
    cbn [job_lines] in Hat. rewrite !FarmFacts.append_assoc in Hat.
    destruct (getline_at_line _ _ _ _ (proj1 Hp1) Hat)
      as (f1 & Hg & Heof & Hat1).
    cbn [List.length Nat.add scheduler]. rewrite Hg, Heof.
    rewrite (job_line_not_empty p Hp1). cbn [orb].
    cbn [n_fork n_rand n_wait pid_queue children trace i infile].
    unfold log_event.
    cbn [n_fork n_rand n_wait pid_queue children trace i infile].
    match goal with
    | |- context [if dock_throws o p then scheduler _ _ _ _ _ ?sa
                  else scheduler _ _ _ _ _ ?sb] =>
        set (s_thrown := sa); set (s_ok := sb)
    end.
    set (s1 := if dock_throws o p then s_thrown else s_ok).
    assert (scheduler o false N batch_out (List.length paths + fuel) s1
            = if dock_throws o p
              then scheduler o false N batch_out (List.length paths + fuel) s_thrown
              else scheduler o false N batch_out (List.length paths + fuel) s_ok)
      as Hs1 by (unfold s1; destruct (dock_throws o p); reflexivity).
    rewrite <- Hs1.
    assert (at_line (infile s1) (pre ++ p ++ nl) (job_lines paths ++ rest))
      as Hat2 by (unfold s1, s_thrown, s_ok; destruct (dock_throws o p);
                  exact Hat1).
    assert (n_rand s1 = (2 * S a)%nat) as Hr1
      by (unfold s1, s_thrown, s_ok; destruct (dock_throws o p);
          cbn [n_rand]; lia).
    destruct (IH (S a) _ rest fuel s1 Hp2 Hat2 Hr1)
      as (s' & Hrun & Hat' & Htr & Hrand & Hf & Hw & Hq & Hc & Hi).
    exists s'. split; [exact Hrun|].
    split.
    { cbn [job_lines]. unfold at_line in *. rewrite Hat'.
      rewrite !FarmFacts.append_assoc. reflexivity. }
    assert (trace s1 = trace s ++ [Docked p (outname batch_out p)
                                     (random_int o (S (n_rand s)))]) as Htr1
      by (unfold s1, s_thrown, s_ok; destruct (dock_throws o p); reflexivity).
    split.
    { rewrite Htr, Htr1, <- app_assoc. f_equal.
      unfold numbered_from. cbn [List.length seq combine map fst snd app].
      f_equal. f_equal. f_equal. lia. }
    split; [rewrite Hrand; cbn [List.length]; lia|].
    split; [rewrite Hf; unfold s1, s_thrown, s_ok;
            destruct (dock_throws o p); reflexivity|].
    split; [rewrite Hw; unfold s1, s_thrown, s_ok;
            destruct (dock_throws o p); reflexivity|].
    split; [rewrite Hq; unfold s1, s_thrown, s_ok;
            destruct (dock_throws o p); reflexivity|].
    split; [rewrite Hc; unfold s1, s_thrown, s_ok;
            destruct (dock_throws o p); reflexivity|].
    intros Hi0 Hi1. cbn [List.length] in Hi1. cbn [filter].
    unfold s1, s_thrown, s_ok in Hi.
    destruct (dock_throws o p); cbn [negb i] in *.
    + rewrite Hi by lia. reflexivity.
    + rewrite FarmFacts.to_int_small in Hi by lia.
      rewrite Hi by lia. cbn [List.length]. lia.
Qed.

(** The loop of the parent over lines that newlines end, when every
    [fork] succeeds: one child is forked for each line, in turn, and the
    parent docks nothing. *)
Lemma scheduler_forks : forall paths a pre rest fuel s,
  Forall job_line paths ->
  at_line (infile s) pre (job_lines paths ++ rest) ->
  n_fork s = a ->
  (forall n, (a <= n < a + List.length paths)%nat ->
             (0 < fork_result o n)%Z) ->
  exists s',
    scheduler o true N batch_out (List.length paths + fuel) s
    = scheduler o true N batch_out fuel s' /\
    at_line (infile s') (pre ++ job_lines paths) rest /\
    forks (trace s') = forks (trace s) ++
      map (fun kp => (fork_result o (fst kp), snd kp))
          (numbered_from a paths) /\
    dockings (trace s') = dockings (trace s) /\
    n_fork s' = (a + List.length paths)%nat /\
    n_rand s' = (n_rand s + 2 * List.length paths)%nat /\
    i s' = i s.
Proof.
  induction paths as [|p paths IH]; intros a pre rest fuel s Hp Hat Ha Hpos.
  - exists s. cbn [List.length Nat.add job_lines append] in *.
    rewrite FarmFacts.append_nil_r. unfold numbered_from. cbn.
    rewrite app_nil_r. repeat split; auto; lia.
  - inversion Hp as [|? ? Hp1 Hp2]; subst.
    cbn [job_lines] in Hat. rewrite !FarmFacts.append_assoc in Hat.
    destruct (getline_at_line _ _ _ _ (proj1 Hp1) Hat)
      as (f1 & Hg & Heof & Hat1).
    cbn [List.length Nat.add scheduler]. rewrite Hg, Heof.
    rewrite (job_line_not_empty p Hp1). cbn [orb].
    cbn [n_fork n_rand n_wait pid_queue children trace i infile].
    assert (0 < fork_result o (n_fork s))%Z as Hpid
      by (apply Hpos; cbn [List.length]; lia).
    assert ((fork_result o (n_fork s) =? 0)%Z = false) as ->
      by (apply Z.eqb_neq; lia).
    assert ((0 <? fork_result o (n_fork s))%Z = true) as ->
      by (apply Z.ltb_lt; lia).
    match goal with
    | |- context [scheduler _ _ _ _ (List.length paths + fuel) ?sx] =>
        set (s1 := sx)
    end.
    assert (infile s1 = f1 /\ i s1 = i s /\ n_fork s1 = S (n_fork s) /\
            n_rand s1 = (2 + n_rand s)%nat /\
            forks (trace s1)
            = forks (trace s) ++ [(fork_result o (n_fork s), p)] /\
            dockings (trace s1) = dockings (trace s))
      as (K1 & K2 & K3 & K4 & K5 & K6).
    { unfold s1.
      match goal with |- context [if ?b then _ else _] => destruct b end.
      - match goal with |- context [wait_and_pop o ?s4] =>
          destruct (wait_and_pop_keeps s4) as (W1 & W2 & W3 & W4 & W5 & W6)
        end.
        rewrite W1, W2, W3, W4, W5, W6.
        cbn [infile i n_fork n_rand trace].
        rewrite forks_snoc, dockings_snoc. cbn. rewrite app_nil_r. repeat split; reflexivity.
      - cbn [infile i n_fork n_rand trace].
        rewrite forks_snoc, dockings_snoc. cbn. rewrite app_nil_r. repeat split; reflexivity. }
    rewrite <- K1 in Hat1.
    destruct (IH (S (n_fork s)) _ rest fuel s1 Hp2 Hat1 K3)
      as (s' & Hrun & Hat' & Hfk & Hdk & Hnf & Hnr & Hi).
    { intros n Hn. apply Hpos. cbn [List.length]. lia. }
    exists s'. split; [exact Hrun|].
    split.
    { cbn [job_lines]. unfold at_line in *. rewrite Hat'.
      rewrite !FarmFacts.append_assoc. reflexivity. }
    split.
    { rewrite Hfk, K5, <- app_assoc. reflexivity. }
    split; [rewrite Hdk; exact K6|].
    split; [rewrite Hnf; cbn [List.length]; lia|].
    split; [rewrite Hnr, K4; cbn [List.length]; lia|].
    rewrite Hi. exact K2.
Qed.

Lemma wait_and_pop_same s1 s2 :
  same_but_infile s1 s2 ->
  same_but_infile (wait_and_pop o s1) (wait_and_pop o s2).
Proof.
  destruct s1, s2. unfold same_but_infile. cbn.
  intros (-> & -> & -> & -> & -> & -> & ->).
  unfold wait_and_pop. cbn.
  destruct (wait o _ _) as [[r st] ch]. cbn. repeat split; reflexivity.
Qed.

Lemma drain_same use_fork k : forall s1 s2,
  same_but_infile s1 s2 ->
  same_but_infile (drain o use_fork k s1) (drain o use_fork k s2).
Proof.
  induction k as [|k IH]; intros s1 s2 H; cbn [drain]; [exact H|].
  pose proof H as (_ & H2 & _). rewrite H2.
  destruct (use_fork && negb (List.length (pid_queue s2) =? 0)).
  - apply IH, wait_and_pop_same. exact H.
  - exact H.
Qed.

(** The loop on two streams that hold the same lines ended by newlines,
    one of them with a last line that no newline ends: the same is done
    on both, whatever the mode and the environment. *)
Lemma scheduler_ignores_last use_fork : forall paths pre last fuel1 fuel2 s1 s2,
  Forall job_line paths -> no_newline last = true ->
  at_line (infile s1) pre (job_lines paths ++ last) ->
  at_line (infile s2) pre (job_lines paths) ->
  same_but_infile s1 s2 ->
  (List.length paths < fuel1)%nat -> (List.length paths < fuel2)%nat ->
  fst (scheduler o use_fork N batch_out fuel1 s1)
  = fst (scheduler o use_fork N batch_out fuel2 s2) /\
  same_but_infile (snd (scheduler o use_fork N batch_out fuel1 s1))
                  (snd (scheduler o use_fork N batch_out fuel2 s2)).
Proof.
  induction paths as [|p paths IH];
    intros pre last fuel1 fuel2 s1 s2 Hp Hl Hat1 Hat2 Hsame Hf1 Hf2;
    (destruct fuel1 as [|fuel1]; [cbn in Hf1; lia|]);
    (destruct fuel2 as [|fuel2]; [cbn in Hf2; lia|]);
    cbn [scheduler].
  - cbn [job_lines append] in Hat1, Hat2.
    destruct (getline_at_last _ _ _ Hl Hat1) as (f1 & Hg1 & He1).
    destruct (getline_at_last _ _ EmptyString eq_refl Hat2) as (f2 & Hg2 & He2).
    rewrite Hg1, Hg2, He1, He2. cbn [orb fst snd].
    destruct s1, s2. unfold same_but_infile in Hsame. cbn in Hsame.
    destruct Hsame as (-> & -> & -> & -> & -> & -> & ->).
    unfold log_event. cbn [infile i pid_queue children n_fork n_wait n_rand trace].
    split; [reflexivity|]. apply drain_same.
    unfold same_but_infile. cbn. repeat split; reflexivity.
  - inversion Hp as [|? ? Hp1 Hp2]; subst.
    cbn [job_lines] in Hat1, Hat2.
    rewrite !FarmFacts.append_assoc in Hat1.
    destruct (getline_at_line _ _ _ _ (proj1 Hp1) Hat1)
      as (f1 & Hg1 & He1 & Hn1).
    destruct (getline_at_line _ _ _ _ (proj1 Hp1) Hat2)
      as (f2 & Hg2 & He2 & Hn2).
    rewrite Hg1, Hg2, He1, He2, (job_line_not_empty p Hp1). cbn [orb].
    destruct s1, s2. unfold same_but_infile in Hsame. cbn in Hsame.
    destruct Hsame as (-> & -> & -> & -> & -> & -> & ->).
    cbn [infile i pid_queue children n_fork n_wait n_rand trace].
    unfold log_event.
    cbn [infile i pid_queue children n_fork n_wait n_rand trace].
    destruct use_fork.
    + destruct (fork_result o _ =? 0)%Z.
      { cbn [fst snd]. split; [reflexivity|].
        unfold same_but_infile. cbn. repeat split; reflexivity. }
      destruct (0 <? fork_result o _)%Z.
      2:{ cbn [fst snd]. split; [reflexivity|].
          unfold same_but_infile. cbn. repeat split; reflexivity. }
      match goal with |- context [if ?b then _ else _] => destruct b end.
      * eapply IH; try eassumption; try (cbn in Hf1, Hf2; lia).
        -- match goal with |- at_line (infile (wait_and_pop o ?s4)) _ _ =>
             rewrite (proj1 (wait_and_pop_keeps s4)) end.
           exact Hn1.
        -- match goal with |- at_line (infile (wait_and_pop o ?s4)) _ _ =>
             rewrite (proj1 (wait_and_pop_keeps s4)) end.
           exact Hn2.
        -- apply wait_and_pop_same. unfold same_but_infile. cbn.
           repeat split; reflexivity.
      * eapply IH; try eassumption; try (cbn in Hf1, Hf2; lia).
        unfold same_but_infile. cbn. repeat split; reflexivity.
    + destruct (dock_throws o p).
      * eapply IH; try eassumption; try (cbn in Hf1, Hf2; lia).
        unfold same_but_infile. cbn. repeat split; reflexivity.
      * eapply IH; try eassumption; try (cbn in Hf1, Hf2; lia).
        unfold same_but_infile. cbn. repeat split; reflexivity.
Qed.

End Facts.

Lemma job_lines_fuel (paths : list string) (last : string) :
  exists fuel,
    S (String.length (job_lines paths ++ last))
    = (List.length paths + S fuel)%nat.
Proof.
  pose proof (FarmFacts.job_lines_length paths) as H.
  rewrite FarmFacts.append_length.
  exists (String.length (job_lines paths) + String.length last
          - List.length paths)%nat.
  lia.
Qed.

(** X13.  The loop of the batch mode ends on every job file, in either mode,
    for every fan-out and whatever the environment does: each pass that
    does not leave the loop has read at least one byte of the file. *)
Theorem batch_loop_ends (o : fork_oracle) (use_fork_parallelism : bool)
    (forknbr : Z) (batch_out : string) (job_file : option string) :
  let r := run o use_fork_parallelism forknbr batch_out job_file in
  fst r = Parent_done \/ fst r = Child_done \/ fst r = Fork_failed.
Proof.
  cbn zeta.
  assert (fst (run o use_fork_parallelism forknbr batch_out job_file)
          <> Out_of_fuel) as H.
  { unfold run. apply ForkFacts.scheduler_fuel. cbn [infile].
    unfold remaining. rewrite StreamFacts.drop_length. lia. }
  destruct (fst (run o use_fork_parallelism forknbr batch_out job_file));
    auto. contradiction.
Qed.

(** X14.  A sequential batch run ([--fork-parallelism] off) over a job file of
    lines ended by newlines: the loop ends with the file, every line is
    docked in turn, into [batchoutdir/<base name>.out.pdbqt], with the
    second of the two draws made for that line as its seed, whether or
    not an earlier docking threw; no process is forked; and the ligand
    counter ends at the number of dockings that did not throw. *)
Theorem sequential_run_docks_each_line (o : fork_oracle) (forknbr : Z)
    (batch_out : string) (paths : list string) :
  Forall job_line paths ->
  let r := run o false forknbr batch_out (Some (job_lines paths)) in
  fst r = Parent_done /\
  trace (snd r)
  = map (fun kp => Docked (snd kp) (outname batch_out (snd kp))
                     (random_int o (2 * fst kp + 1)))
        (numbered_from 0 paths) ++ [End_of_file] /\
  n_fork (snd r) = 0%nat /\
  ((Z.of_nat (List.length paths) < 2 ^ 31)%Z ->
   i (snd r) = Z.of_nat (List.length
                 (filter (fun p => negb (dock_throws o p)) paths))).
Proof.
  intros Hp. cbn zeta. unfold run. cbn [open content].
  destruct (job_lines_fuel paths EmptyString) as (fuel & Hfuel).
  rewrite FarmFacts.append_nil_r in Hfuel. rewrite Hfuel.
  destruct (scheduler_sequential o forknbr batch_out paths 0 EmptyString
              EmptyString (S fuel)
              (mk_sched (mk_ifstream (job_lines paths) 0 false false)
                 0 [] [] 0 0 0 []) Hp)
    as (s' & Hrun & Hat & Htr & Hrand & Hf & Hw & Hq & Hc & Hi).
  { unfold at_line. cbn. rewrite FarmFacts.append_nil_r. reflexivity. }
  { reflexivity. }
  rewrite Hrun. cbn [scheduler].
  destruct (getline_at_last _ _ EmptyString eq_refl Hat) as (f1 & Hg & He).
  rewrite Hg, He. cbn [orb fst snd]. rewrite drain_sequential.
  unfold log_event. cbn [trace n_fork i].
  split; [reflexivity|]. split; [rewrite Htr; reflexivity|].
  split; [exact Hf|].
  intros Hlen. rewrite Hi; cbn [i]; lia.
Qed.

(** X15.  A last line of the job file that no newline ends is never docked
    and never forked for: in either mode and whatever the environment
    does, the run ends the same way, with the same trace and the same
    ligand counter, as on the file without that line. *)
Theorem unterminated_last_line_dropped (o : fork_oracle)
    (use_fork_parallelism : bool) (forknbr : Z) (batch_out : string)
    (paths : list string) (last : string) :
  Forall job_line paths -> no_newline last = true ->
  let r := run o use_fork_parallelism forknbr batch_out
             (Some (job_lines paths ++ last)%string) in
  let r' := run o use_fork_parallelism forknbr batch_out
              (Some (job_lines paths)) in
  fst r = fst r' /\ trace (snd r) = trace (snd r') /\ i (snd r) = i (snd r').
Proof.
  intros Hp Hl. cbn zeta. unfold run. cbn [open content].
  destruct (scheduler_ignores_last o forknbr batch_out use_fork_parallelism
              paths EmptyString last
              (S (String.length (job_lines paths ++ last)))
              (S (String.length (job_lines paths)))
              (mk_sched (mk_ifstream (job_lines paths ++ last) 0 false false)
                 0 [] [] 0 0 0 [])
              (mk_sched (mk_ifstream (job_lines paths) 0 false false)
                 0 [] [] 0 0 0 []) Hp Hl) as (H1 & H2).
  - reflexivity.
  - reflexivity.
  - unfold same_but_infile. cbn. repeat split; reflexivity.
  - pose proof (FarmFacts.job_lines_length paths).
    rewrite FarmFacts.append_length. lia.
  - pose proof (FarmFacts.job_lines_length paths). lia.
  - split; [exact H1|]. destruct H2 as (Hi & _ & _ & _ & _ & _ & Htr).
    split; [exact Htr | exact Hi].
Qed.

(** X16.  A fork based batch run in the parent, when every [fork] succeeds:
    the loop ends with the file, one child is forked for each line of the
    job file, in turn, and the parent itself docks nothing. *)
Theorem fork_run_forks_each_line (o : fork_oracle) (forknbr : Z)
    (batch_out : string) (paths : list string) :
  Forall job_line paths ->
  (forall n, (n < List.length paths)%nat -> (0 < fork_result o n)%Z) ->
  let r := run o true forknbr batch_out (Some (job_lines paths)) in
  fst r = Parent_done /\
  forks (trace (snd r))
  = map (fun kp => (fork_result o (fst kp), snd kp)) (numbered_from 0 paths) /\
  dockings (trace (snd r)) = [] /\
  n_fork (snd r) = List.length paths.
Proof.
  intros Hp Hpos. cbn zeta. unfold run. cbn [open content].
  destruct (job_lines_fuel paths EmptyString) as (fuel & Hfuel).
  rewrite FarmFacts.append_nil_r in Hfuel. rewrite Hfuel.
  destruct (scheduler_forks o forknbr batch_out paths 0 EmptyString
              EmptyString (S fuel)
              (mk_sched (mk_ifstream (job_lines paths) 0 false false)
                 0 [] [] 0 0 0 []) Hp)
    as (s' & Hrun & Hat & Hfk & Hdk & Hnf & Hnr & Hi).
  { unfold at_line. cbn. rewrite FarmFacts.append_nil_r. reflexivity. }
  { reflexivity. }
  { intros n Hn. apply Hpos. lia. }
  rewrite Hrun. cbn [scheduler].
  destruct (getline_at_last _ _ EmptyString eq_refl Hat) as (f1 & Hg & He).
  rewrite Hg, He. cbn [orb fst snd].
  match goal with |- context [drain o true ?k ?s2] =>
    destruct (drain_keeps o true k s2) as (_ & _ & D3 & _ & D5 & D6)
  end.
  rewrite D3, D5, D6. unfold log_event. cbn [trace n_fork].
  rewrite forks_snoc, dockings_snoc, Hfk, Hdk. cbn.
  rewrite app_nil_r. auto.
Qed.

Lemma split_at_line (paths : list string) (k : nat) (p : string) :
  nth_error paths k = Some p ->
  paths = firstn k paths ++ p :: skipn (S k) paths /\
  List.length (firstn k paths) = k.
Proof.
  revert k. induction paths as [|x paths IH]; intros k H.
  - destruct k; discriminate.
  - destruct k as [|k]; cbn in H.
    + injection H as ->. split; reflexivity.
    + destruct (IH k H) as [H1 H2]. cbn [firstn skipn app List.length].
      split; [f_equal; exact H1 | f_equal; exact H2].
Qed.

(** The state of a fork based run when it comes to line [k], the forks
    for the lines before it having succeeded, and what the loop does at
    that line. *)
Lemma run_at_line (o : fork_oracle) (forknbr : Z) (batch_out : string)
    (paths : list string) (k : nat) (p : string) :
  Forall job_line paths ->
  nth_error paths k = Some p ->
  (forall n, (n < k)%nat -> (0 < fork_result o n)%Z) ->
  exists s' f1 fuel,
    run o true forknbr batch_out (Some (job_lines paths))
    = scheduler o true forknbr batch_out (S fuel) s' /\
    getline (infile s') = (f1, p) /\ eof f1 = false /\
    String.eqb p EmptyString = false /\
    forks (trace s')
    = map (fun kp => (fork_result o (fst kp), snd kp))
          (numbered_from 0 (firstn k paths)) /\
    dockings (trace s') = [] /\
    n_fork s' = k /\ n_rand s' = (2 * k)%nat /\ i s' = 0%Z.
Proof.
  intros Hp Hk Hpos.
  destruct (split_at_line paths k p Hk) as [Hsplit Hlen].
  assert (Forall job_line (firstn k paths)) as Hp1.
  { rewrite Hsplit in Hp. apply Forall_app in Hp. apply Hp. }
  assert (job_line p) as Hp2.
  { rewrite Hsplit in Hp. apply Forall_app in Hp.
    destruct Hp as [_ Hp]. inversion Hp; assumption. }
  unfold run. cbn [open content].
  assert (exists fuel, S (String.length (job_lines paths)) = (k + S fuel)%nat)
    as (fuel & Hfuel).
  { pose proof (FarmFacts.job_lines_length paths) as H.
    assert (k < List.length paths)%nat
      by (apply nth_error_Some; congruence).
    exists (String.length (job_lines paths) - k)%nat. lia. }
  rewrite Hfuel.
  destruct (scheduler_forks o forknbr batch_out (firstn k paths) 0
              EmptyString (job_lines (p :: skipn (S k) paths)) (S fuel)
              (mk_sched (mk_ifstream (job_lines paths) 0 false false)
                 0 [] [] 0 0 0 []) Hp1)
    as (s' & Hrun & Hat & Hfk & Hdk & Hnf & Hnr & Hi).
  { unfold at_line. cbn [infile append String.length].
    rewrite <- job_lines_app, <- Hsplit. reflexivity. }
  { reflexivity. }
  { intros n Hn. apply Hpos. lia. }
  rewrite Hlen in Hrun. cbn [job_lines] in Hat.
  destruct (getline_at_line _ _ _ _ (proj1 Hp2) Hat) as (f1 & Hg & He & _).
  exists s', f1, fuel. split; [exact Hrun|].
  split; [exact Hg|]. split; [exact He|].
  split; [apply job_line_not_empty; exact Hp2|].
  split; [rewrite Hfk; reflexivity|]. split; [exact Hdk|].
  split; [rewrite Hnf, Hlen; reflexivity|].
  split; [rewrite Hnr, Hlen; cbn [n_rand]; lia|].
  rewrite Hi. reflexivity.
Qed.

(** X17.  The child forked for line [k] of the job file docks that line and
    nothing else, into [batchoutdir/<base name>.out.pdbqt], with the seed
    the parent drew for the line before the fork, and then leaves the
    loop.  Its ligand counter [i], which it prints as the number of the
    ligand, is 0 whatever the line: the parent never advances it. *)
Theorem fork_child_docks_its_line (o : fork_oracle) (forknbr : Z)
    (batch_out : string) (paths : list string) (k : nat) (p : string) :
  Forall job_line paths ->
  nth_error paths k = Some p ->
  (forall n, (n < k)%nat -> (0 < fork_result o n)%Z) ->
  fork_result o k = 0%Z ->
  let r := run o true forknbr batch_out (Some (job_lines paths)) in
  fst r = Child_done /\
  dockings (trace (snd r))
  = [(p, outname batch_out p, random_int o (2 * k + 1))] /\
  i (snd r) = 0%Z /\
  exists tr, trace (snd r)
             = tr ++ [Docked p (outname batch_out p) (random_int o (2 * k + 1))].
Proof.
  intros Hp Hk Hpos Hzero. cbn zeta.
  destruct (run_at_line o forknbr batch_out paths k p Hp Hk Hpos)
    as (s' & f1 & fuel & Hrun & Hg & He & Hne & Hfk & Hdk & Hnf & Hnr & Hi).
  rewrite Hrun. cbn [scheduler]. rewrite Hg, He, Hne. cbn [orb].
  cbn [n_fork n_rand n_wait pid_queue children trace i infile].
  rewrite Hnf, Hzero. cbn [Z.eqb fst snd]. unfold log_event. cbn [trace i].
  rewrite dockings_snoc, Hdk, Hnr.
  replace (S (2 * k)) with (2 * k + 1)%nat by lia.
  split; [reflexivity|]. split; [reflexivity|]. split; [exact Hi|].
  eexists. reflexivity.
Qed.

(** X18.  A [fork] that fails at line [k] ends the run at once ([return 10]):
    no child is forked for that line or a later one, the parent docks
    nothing, and it does not wait for the children it has. *)
Theorem fork_failure_ends_the_run (o : fork_oracle) (forknbr : Z)
    (batch_out : string) (paths : list string) (k : nat) (p : string) :
  Forall job_line paths ->
  nth_error paths k = Some p ->
  (forall n, (n < k)%nat -> (0 < fork_result o n)%Z) ->
  (fork_result o k < 0)%Z ->
  let r := run o true forknbr batch_out (Some (job_lines paths)) in
  fst r = Fork_failed /\
  forks (trace (snd r))
  = map (fun kp => (fork_result o (fst kp), snd kp))
        (numbered_from 0 (firstn k paths)) /\
  dockings (trace (snd r)) = [] /\
  n_fork (snd r) = S k.
Proof.
  intros Hp Hk Hpos Hneg. cbn zeta.
  destruct (run_at_line o forknbr batch_out paths k p Hp Hk Hpos)
    as (s' & f1 & fuel & Hrun & Hg & He & Hne & Hfk & Hdk & Hnf & Hnr & Hi).
  rewrite Hrun. cbn [scheduler]. rewrite Hg, He, Hne. cbn [orb].
  cbn [n_fork n_rand n_wait pid_queue children trace i infile].
  rewrite Hnf.
  assert ((fork_result o k =? 0)%Z = false) as -> by (apply Z.eqb_neq; lia).
  assert ((0 <? fork_result o k)%Z = false) as -> by (apply Z.ltb_ge; lia).
  cbn [fst snd trace n_fork]. auto.
Qed.

Lemma base_from_no_sep (n : string) : forall cur,
  no_sep n = true -> base_from cur n = (cur ++ n)%string.
Proof.
  induction n as [|ch n IH]; intros cur; cbn [no_sep base_from]; intros H.
  - rewrite FarmFacts.append_nil_r. reflexivity.
  - apply andb_true_iff in H. destruct H as [Hch Hn].
    apply negb_true_iff in Hch. unfold is_sep in Hch. rewrite Hch.
    rewrite (IH _ Hn), FarmFacts.append_assoc. reflexivity.
Qed.

Lemma base_from_after_sep (d : string) (sep : ascii) (n : string) :
  is_sep sep = true ->
  forall cur, base_from cur (d ++ String sep n) = base_from EmptyString n.
Proof.
  intros Hsep. induction d as [|ch d IH]; intros cur; cbn [append base_from].
  - unfold is_sep in Hsep. rewrite Hsep. reflexivity.
  - destruct (Ascii.eqb ch "/" || Ascii.eqb ch (ascii_of_nat 92)); apply IH.
Qed.

(** X19.  The output of a batch docking is named after the file name of the
    ligand alone: what stands before the last [/] or backslash of the
    path is dropped, so that two ligands of the same file name in
    different directories are written to the same file. *)
Theorem outname_ignores_directory (batch_out d d' n : string)
    (sep sep' : ascii) :
  is_sep sep = true -> is_sep sep' = true -> no_sep n = true ->
  base_filename (d ++ String sep n) = n /\
  base_filename n = n /\
  outname batch_out (d ++ String sep n)
  = (batch_out ++ "/" ++ n ++ ".out.pdbqt")%string /\
  outname batch_out (d ++ String sep n)
  = outname batch_out (d' ++ String sep' n).
Proof.
  intros Hsep Hsep' Hn.
  assert (forall e s, is_sep s = true -> base_filename (e ++ String s n) = n)
    as Hbase.
  { intros e s Hs. unfold base_filename.
    rewrite (base_from_after_sep e s n Hs), (base_from_no_sep n _ Hn).
    reflexivity. }
  split; [apply Hbase; exact Hsep|].
  split; [unfold base_filename; rewrite (base_from_no_sep n _ Hn); reflexivity|].
  unfold outname. rewrite (Hbase d sep Hsep), (Hbase d' sep' Hsep').
  split; reflexivity.
Qed.

End BatchFacts.

(** ** The batch loop on small job files *)

Module BatchRuns.

Import Stream Fork Farm Batch.

Lemma three_job_lines : Forall job_line ["a"; "b"; "c"]%string.
Proof. repeat constructor; discriminate. Qed.

(** Three ligands docked in turn, with the seeds 2, 4 and 6. *)
Lemma sequential_run_docks_each_line_witness :
  let paths := ["a"; "b"; "c"]%string in
  Forall job_line paths /\
  let r := run younger_first false 2 "out" (Some (job_lines paths)) in
  fst r = Parent_done /\
  trace (snd r)
  = map (fun kp => Docked (snd kp) (outname "out" (snd kp))
                     (random_int younger_first (2 * fst kp + 1)))
        (numbered_from 0 paths) ++ [End_of_file] /\
  n_fork (snd r) = 0%nat /\
  ((Z.of_nat (List.length paths) < 2 ^ 31)%Z ->
   i (snd r) = Z.of_nat (List.length
                 (filter (fun p => negb (dock_throws younger_first p)) paths))).
Proof.
  split; [exact three_job_lines|].
  exact (BatchFacts.sequential_run_docks_each_line younger_first 2 "out"
           ["a"; "b"; "c"]%string three_job_lines).
Defined.

(** A fourth ligand on a last line without a newline. *)
Lemma unterminated_last_line_dropped_witness :
  let paths := ["a"; "b"; "c"]%string in
  Forall job_line paths /\ no_newline "d" = true /\
  let r := run younger_first true 2 "out"
             (Some (job_lines paths ++ "d")%string) in
  let r' := run younger_first true 2 "out" (Some (job_lines paths)) in
  fst r = fst r' /\ trace (snd r) = trace (snd r') /\ i (snd r) = i (snd r').
Proof.
  split; [exact three_job_lines|]. split; [reflexivity|].
  exact (BatchFacts.unterminated_last_line_dropped younger_first true 2 "out"
           ["a"; "b"; "c"]%string "d" three_job_lines eq_refl).
Defined.

Lemma younger_first_forks (n : nat) :
  (n < 3)%nat -> (0 < fork_result younger_first n)%Z.
Proof. intros _. unfold younger_first. cbn [fork_result]. lia. Qed.

Lemma fork_run_forks_each_line_witness :
  let paths := ["a"; "b"; "c"]%string in
  Forall job_line paths /\
  (forall n, (n < List.length paths)%nat ->
             (0 < fork_result younger_first n)%Z) /\
  let r := run younger_first true 2 "out" (Some (job_lines paths)) in
  fst r = Parent_done /\
  forks (trace (snd r))
  = map (fun kp => (fork_result younger_first (fst kp), snd kp))
        (numbered_from 0 paths) /\
  dockings (trace (snd r)) = [] /\
  n_fork (snd r) = List.length paths.
Proof.
  split; [exact three_job_lines|]. split; [exact younger_first_forks|].
  exact (BatchFacts.fork_run_forks_each_line younger_first 2 "out"
           ["a"; "b"; "c"]%string three_job_lines younger_first_forks).
Defined.

Lemma first_fork_succeeds (o : fork_oracle) :
  fork_result o 0 = 101%Z ->
  forall n, (n < 1)%nat -> (0 < fork_result o n)%Z.
Proof.
  intros H n Hn. replace n with 0%nat by lia. rewrite H. lia.
Qed.

(** The child forked for the second line docks ["b"] with the seed 4. *)
Lemma fork_child_docks_its_line_witness :
  let paths := ["a"; "b"; "c"]%string in
  Forall job_line paths /\
  nth_error paths 1 = Some "b"%string /\
  (forall n, (n < 1)%nat -> (0 < fork_result second_child n)%Z) /\
  fork_result second_child 1 = 0%Z /\
  let r := run second_child true 2 "out" (Some (job_lines paths)) in
  fst r = Child_done /\
  dockings (trace (snd r))
  = [("b"%string, outname "out" "b", random_int second_child (2 * 1 + 1))] /\
  i (snd r) = 0%Z /\
  exists tr, trace (snd r)
             = tr ++ [Docked "b" (outname "out" "b")
                        (random_int second_child (2 * 1 + 1))].
Proof.
  split; [exact three_job_lines|]. split; [reflexivity|].
  split; [exact (first_fork_succeeds second_child eq_refl)|].
  split; [reflexivity|].
  exact (BatchFacts.fork_child_docks_its_line second_child 2 "out"
           ["a"; "b"; "c"]%string 1 "b" three_job_lines eq_refl
           (first_fork_succeeds second_child eq_refl) eq_refl).
Defined.

Lemma fork_failure_ends_the_run_witness :
  let paths := ["a"; "b"; "c"]%string in
  Forall job_line paths /\
  nth_error paths 1 = Some "b"%string /\
  (forall n, (n < 1)%nat -> (0 < fork_result second_fork_fails n)%Z) /\
  (fork_result second_fork_fails 1 < 0)%Z /\
  let r := run second_fork_fails true 2 "out" (Some (job_lines paths)) in
  fst r = Fork_failed /\
  forks (trace (snd r))
  = map (fun kp => (fork_result second_fork_fails (fst kp), snd kp))
        (numbered_from 0 (firstn 1 paths)) /\
  dockings (trace (snd r)) = [] /\
  n_fork (snd r) = 2%nat.
Proof.
  split; [exact three_job_lines|]. split; [reflexivity|].
  split; [exact (first_fork_succeeds second_fork_fails eq_refl)|].
  split; [reflexivity|].
  exact (BatchFacts.fork_failure_ends_the_run second_fork_fails 2 "out"
           ["a"; "b"; "c"]%string 1 "b" three_job_lines eq_refl
           (first_fork_succeeds second_fork_fails eq_refl) eq_refl).
Defined.

(** [lig.pdbqt] of two libraries. *)
Lemma outname_ignores_directory_witness :
  is_sep "/" = true /\ is_sep "/" = true /\ no_sep "lig.pdbqt" = true /\
  (base_filename ("lib1" ++ String "/" "lig.pdbqt") = "lig.pdbqt"%string /\
   base_filename "lig.pdbqt" = "lig.pdbqt"%string /\
   outname "out" ("lib1" ++ String "/" "lig.pdbqt")
   = ("out" ++ "/" ++ "lig.pdbqt" ++ ".out.pdbqt")%string /\
   outname "out" ("lib1" ++ String "/" "lig.pdbqt")
   = outname "out" ("lib2" ++ String "/" "lig.pdbqt")).
Proof.
  split; [reflexivity|]. split; [reflexivity|]. split; [reflexivity|].
  exact (BatchFacts.outname_ignores_directory "out" "lib1" "lib2" "lig.pdbqt"
           "/" "/" eq_refl eq_refl eq_refl).
Defined.

End BatchRuns.

(** ** The farm over the lines of a job file *)

Module AssignFacts.

Import Stream Farm Assign.

Lemma flat_map_shift {A : Type} (f : nat -> list A) (a n : nat) :
  flat_map f (seq (S a) n) = flat_map (fun j => f (S j)) (seq a n).
Proof.
  revert a. induction n as [|n IH]; intros a; cbn; [reflexivity|].
  rewrite IH. reflexivity.
Qed.

Lemma line_offset_next (p : string) (paths : list string) (j : nat) :
  line_offset (p :: paths) (S j)
  = (Z.of_nat (String.length p + 1) + line_offset paths j)%Z.
Proof.
  unfold line_offset. cbn [firstn job_lines].
  rewrite !FarmFacts.append_length. cbn [String.length nl]. lia.
Qed.

Lemma line_offset_bound (paths : list string) (j : nat) :
  (0 <= line_offset paths j <= Z.of_nat (String.length (job_lines paths)))%Z.
Proof.
  unfold line_offset. split; [lia|]. apply inj_le.
  revert j. induction paths as [|p paths IH]; intros j.
  - destruct j; cbn; lia.
  - destruct j as [|j]; cbn [firstn job_lines]; [cbn; lia|].
    rewrite !FarmFacts.append_length. specialize (IH j). lia.
Qed.

(** The data-bound loop, entered at the start of a line after [n]
    passes: pass by pass, what it hears and sends. *)
Lemma governor_loop_passes (o : farm_oracle) : forall paths pre fuel count n tr,
  Forall ligand_path paths ->
  (List.length paths < fuel)%nat ->
  (Z.of_nat (String.length (pre ++ job_lines paths)) < 2 ^ 31)%Z ->
  (0 <= count)%Z ->
  (count + Z.of_nat (List.length paths) < 2 ^ 31)%Z ->
  exists f c,
    governor_loop o fuel
      (mk_ifstream (pre ++ job_lines paths) (String.length pre) false false)
      count n tr
    = Some (f, c,
            tr ++ flat_map
                    (fun j =>
                       [G_recv (ready_source o (n + j));
                        G_send (ready_source o (n + j))
                          (mk_run_param (gov_random_int o (S (n + j)))
                             (Z.of_nat (String.length pre)
                              + line_offset paths j)
                             (count + Z.of_nat j))])
                    (seq 0 (S (List.length paths)))).
Proof.
  induction paths as [|p paths IH];
    intros pre fuel count n tr Hp Hfuel Hsize Hc0 Hc1;
    (destruct fuel as [|fuel]; [cbn in Hfuel; lia|]); cbn [governor_loop].
  - cbn [job_lines] in *. rewrite FarmFacts.append_nil_r in *.
    rewrite FarmFacts.getline_at_end. cbn [eof eofbit orb].
    eexists _, _. f_equal. f_equal. cbn. unfold tellg. cbn.
    rewrite FarmFacts.to_int_small by lia.
    rewrite !Nat.add_0_r, !Z.add_0_r. reflexivity.
  - inversion Hp as [|? ? Hp1 Hp2]; subst. cbn [job_lines] in *.
    rewrite (FarmFacts.getline_of_path pre p (job_lines paths) (proj1 Hp1)).
    cbn [eof eofbit orb]. rewrite (FarmFacts.ligand_path_not_empty p Hp1).
    rewrite (proj2 Hp1). cbn [orb].
    assert (String.length (pre ++ p ++ nl ++ job_lines paths)
            = (String.length pre + String.length p + 1
               + String.length (job_lines paths))%nat) as Hlen
      by (rewrite !FarmFacts.append_length; cbn [String.length nl]; lia).
    rewrite <- (FarmFacts.append_assoc pre p (nl ++ job_lines paths)) in *.
    rewrite <- (FarmFacts.append_assoc (pre ++ p) nl (job_lines paths)) in *.
    rewrite (FarmFacts.append_assoc pre p nl) in *.
    cbn [List.length] in Hc1.
    rewrite (FarmFacts.to_int_small (count + 1)) by lia.
    match goal with |- context [governor_loop o fuel _ ?c (S n) ?t] =>
      destruct (IH (pre ++ p ++ nl)%string fuel c (S n) t Hp2)
        as (f & c' & Hrun)
    end; [cbn in Hfuel; lia | exact Hsize | lia | lia |].
    rewrite Hrun. eexists _, _. f_equal. f_equal.
    rewrite <- app_assoc. f_equal.
    cbn [List.length].
    change (seq 0 (S (S (List.length paths))))
      with (0%nat :: seq 1 (S (List.length paths))).
    cbn [flat_map]. rewrite flat_map_shift.
    unfold tellg. cbn [eofbit failbit orb pos].
    rewrite FarmFacts.to_int_small by lia.
    cbn [app].
    replace (n + 0)%nat with n by lia.
    replace (Z.of_nat (String.length pre) + line_offset (p :: paths) 0)%Z
      with (Z.of_nat (String.length pre)) by (unfold line_offset; cbn; lia).
    replace (count + Z.of_nat 0)%Z with count by lia.
    do 2 f_equal.
    apply flat_map_ext. intros j.
    rewrite line_offset_next, !FarmFacts.append_length.
    cbn [String.length nl].
    replace (S n + j)%nat with (n + S j)%nat by lia.
    replace (Z.of_nat (String.length pre + (String.length p + 1))
             + line_offset paths j)%Z
      with (Z.of_nat (String.length pre)
            + (Z.of_nat (String.length p + 1) + line_offset paths j))%Z by lia.
    replace (count + 1 + Z.of_nat j)%Z with (count + Z.of_nat (S j))%Z by lia.
    reflexivity.
Qed.

(** X21.  The governor over a job file of [k] ligand lines, each ended by a
    newline, shorter than 2^31 bytes: [k + 1] passes of the data-bound
    loop, pass [j] answering the rank it hears from with a fresh draw,
    the offset at which line [j] starts and the number [j]; the last
    pass gives out the offset of the end of the file.  Then the end
    signal to each of the other ranks in turn. *)
Theorem governor_trace_on_lines (o : farm_oracle) (world_size : nat)
    (paths : list string) :
  Forall ligand_path paths ->
  (Z.of_nat (String.length (job_lines paths)) < 2 ^ 31)%Z ->
  governor o world_size (Some (job_lines paths))
  = Some (flat_map (data_pass o paths) (seq 0 (S (List.length paths)))
          ++ governor_drain o world_size).
Proof.
  intros Hp Hsize. unfold governor. cbn [open content].
  pose proof (FarmFacts.job_lines_length paths) as Hlen.
  destruct (governor_loop_passes o paths EmptyString
              (S (String.length (job_lines paths))) 0%Z 0%nat [] Hp)
    as (f & c & Hrun); [lia | exact Hsize | lia | lia |].
  cbn [append String.length app] in Hrun. rewrite Hrun. reflexivity.
Qed.

Lemma line_of_file (paths : list string) (j : nat) (p : string) :
  nth_error paths j = Some p ->
  job_lines paths
  = (job_lines (firstn j paths) ++ (p ++ nl ++ job_lines (skipn (S j) paths)))%string.
Proof.
  intros H. destruct (BatchFacts.split_at_line paths j p H) as [Hsplit _].
  pose proof (f_equal job_lines Hsplit) as E.
  rewrite BatchFacts.job_lines_app in E. exact E.
Qed.

(** [seekg] to the offset of a line and [getline] there: the line, and
    a stream that is good again. *)
Lemma seek_line (paths : list string) (j : nat) (p : string) (f : ifstream) :
  nth_error paths j = Some p -> no_newline p = true ->
  failbit f = false -> content f = job_lines paths ->
  exists f', getline (seekg f (line_offset paths j)) = (f', p) /\
             failbit f' = false /\ content f' = job_lines paths.
Proof.
  intros Hj Hp Hf Hc. unfold seekg. rewrite Hf.
  assert ((line_offset paths j <? 0)%Z = false) as ->
    by (apply Z.ltb_ge; apply line_offset_bound).
  unfold line_offset. rewrite Nat2Z.id, Hc.
  pose proof (line_of_file paths j p Hj) as E.
  set (pre := job_lines (firstn j paths)) in *.
  rewrite E.
  rewrite (FarmFacts.getline_of_path pre p _ Hp).
  eexists. split; [reflexivity|]. split; reflexivity.
Qed.

(** [seekg] to the end of the file and [getline] there: nothing. *)
Lemma seek_end (paths : list string) (f : ifstream) :
  failbit f = false -> content f = job_lines paths ->
  exists f', getline (seekg f (line_offset paths (List.length paths)))
             = (f', EmptyString) /\ content f' = job_lines paths.
Proof.
  intros Hf Hc. unfold seekg. rewrite Hf.
  assert ((line_offset paths (List.length paths) <? 0)%Z = false) as ->
    by (apply Z.ltb_ge; apply line_offset_bound).
  unfold line_offset. rewrite Nat2Z.id, Hc, firstn_all.
  rewrite FarmFacts.getline_at_end. eexists. split; reflexivity.
Qed.

Lemma docks_snoc tr evs : docks (tr ++ evs) = docks tr ++ docks evs.
Proof. apply flat_map_app. Qed.

Section Worker.

Variables (o : farm_oracle) (rank : nat) (batch_out : string)
  (paths : list string).

Hypothesis Hpaths : Forall ligand_path paths.

Let msg (j : nat) : run_param :=
  mk_run_param (gov_random_int o (S j)) (line_offset paths j) (Z.of_nat j).

Let mine (j : nat) : bool := (ready_source o j =? rank)%nat.

Let docking (j : nat) : string * string * Z :=
  (nth j paths EmptyString, Fork.outname batch_out (nth j paths EmptyString),
   gov_random_int o (S j)).

(** A worker over the assignments of the passes from [a] on that were
    answers to it, followed by the end signal. *)
Lemma worker_loop_passes : forall n a f counter tr,
  (a + n = S (List.length paths))%nat ->
  content f = job_lines paths ->
  failbit f = false \/ filter mine (seq a n) = [] ->
  exists tr',
    worker_loop batch_out (map msg (filter mine (seq a n)) ++ [end_code o])
      f counter tr = (W_finished, tr', []) /\
    docks tr' = docks tr ++ map docking (filter mine (seq a n)).
Proof.
  induction n as [|n IH]; intros a f counter tr Ha Hc Hgood.
  - cbn. eexists. split; [reflexivity|].
    rewrite docks_snoc. cbn. rewrite !app_nil_r. reflexivity.
  - cbn [seq filter]. cbn [seq filter] in Hgood.
    destruct (mine a) eqn:Emine.
    2:{ apply IH; [lia | exact Hc | exact Hgood]. }
    destruct Hgood as [Hgood | Hnil]; [|discriminate].
    cbn [map app worker_loop].
    assert ((seek_offset (msg a) =? -1)%Z = false) as ->
      by (apply Z.eqb_neq; unfold msg; cbn [seek_offset];
          pose proof (line_offset_bound paths a); lia).
    destruct (Nat.eq_dec a (List.length paths)) as [Hlast | Hbefore].
    + (* the pass after the last line *)
      assert (n = 0)%nat as -> by lia. subst a.
      destruct (seek_end paths f Hgood Hc) as (f' & Hg & Hc').
      unfold msg at 1. cbn [seek_offset random_seed]. rewrite Hg.
      cbn [seq filter map app worker_loop end_code seek_offset Z.eqb].
      eexists. split; [reflexivity|].
      rewrite !docks_snoc. cbn. rewrite !app_nil_r.
      unfold docking. rewrite nth_overflow by lia. reflexivity.
    + assert (a < List.length paths)%nat as Hlt by lia.
      destruct (nth_error paths a) as [p|] eqn:Enth;
        [|apply nth_error_None in Enth; lia].
      assert (no_newline p = true) as Hp.
      { rewrite Forall_forall in Hpaths.
        apply (Hpaths p), (nth_error_In _ _ Enth). }
      destruct (seek_line paths a p f Enth Hp Hgood Hc)
        as (f' & Hg & Hf' & Hc').
      unfold msg at 1. cbn [seek_offset random_seed]. rewrite Hg.
      match goal with |- context [worker_loop _ _ f' ?c ?t] =>
        destruct (IH (S a) f' c t) as (tr' & Hrun & Hdocks)
      end; [lia | exact Hc' | left; exact Hf' |].
      exists tr'. split; [exact Hrun|].
      rewrite Hdocks, !docks_snoc. cbn. rewrite !app_nil_r, <- app_assoc.
      cbn [app]. unfold docking at 2.
      rewrite (nth_error_nth _ _ _ Enth). reflexivity.
Qed.

End Worker.

Lemma sends_data_passes (o : farm_oracle) (paths : list string) (l : list nat) :
  sends (flat_map (data_pass o paths) l)
  = map (fun j => (ready_source o j,
                   mk_run_param (gov_random_int o (S j))
                     (line_offset paths j) (Z.of_nat j))) l.
Proof.
  induction l as [|j l IH]; cbn; [reflexivity | rewrite IH; reflexivity].
Qed.

Lemma inbox_on_lines (o : farm_oracle) (world_size rank : nat)
    (paths : list string) :
  (1 <= rank < world_size)%nat ->
  inbox rank (flat_map (data_pass o paths) (seq 0 (S (List.length paths)))
              ++ governor_drain o world_size)
  = map (fun j => mk_run_param (gov_random_int o (S j))
                    (line_offset paths j) (Z.of_nat j))
        (passes_of o rank (List.length paths))
    ++ [end_code o].
Proof.
  intros Hrank. unfold inbox, passes_of.
  rewrite FarmFacts.sends_app, sends_data_passes,
    FarmFacts.sends_governor_drain, filter_app, map_app.
  f_equal.
  - induction (seq 0 (S (List.length paths))) as [|j l IH]; cbn;
      [reflexivity|].
    destruct (ready_source o j =? rank)%nat; cbn; rewrite IH; reflexivity.
  - assert (forall l, filter (fun dp : nat * run_param => fst dp =? rank)%nat
                        (map (fun j => (j, end_code o)) l)
                      = map (fun j => (j, end_code o))
                          (filter (fun j => j =? rank)%nat l)) as Hcomm.
    { induction l as [|j l IHl]; cbn; [reflexivity|].
      destruct (j =? rank)%nat; cbn; rewrite IHl; reflexivity. }
    rewrite Hcomm, (FarmFacts.filter_rank_seq rank (world_size - 1) 1) by lia.
    reflexivity.
Qed.

(** X22.  The farm from end to end, over a job file of [k] ligand lines, each
    ended by a newline, shorter than 2^31 bytes.  A worker reads, at the
    offsets it is sent, the lines of the passes at which the governor
    heard from it, and docks each of them once, with the seed drawn at
    that pass, into [batchoutdir/<base name>.out.pdbqt]; for the pass
    after the last line it reads an empty path, and a docking of that is
    attempted too; it then leaves its loop on the end signal, with no
    message left unread. *)
Theorem farm_docks_each_line (o : farm_oracle) (world_size rank : nat)
    (batch_out : string) (paths : list string) :
  Forall ligand_path paths ->
  (Z.of_nat (String.length (job_lines paths)) < 2 ^ 31)%Z ->
  (1 <= rank < world_size)%nat ->
  exists tr done,
    governor o world_size (Some (job_lines paths)) = Some tr /\
    worker batch_out (Some (job_lines paths)) (inbox rank tr)
    = (W_finished, done, []) /\
    docks done
    = map (fun j => (nth j paths EmptyString,
                     Fork.outname batch_out (nth j paths EmptyString),
                     gov_random_int o (S j)))
          (passes_of o rank (List.length paths)).
Proof.
  intros Hp Hsize Hrank.
  pose proof (FarmFacts.job_lines_length paths) as Hlen.
  destruct (governor_loop_passes o paths EmptyString
              (S (String.length (job_lines paths))) 0%Z 0%nat [] Hp)
    as (f & c & Hrun); [lia | exact Hsize | lia | lia |].
  cbn [append String.length app] in Hrun.
  exists (flat_map (data_pass o paths) (seq 0 (S (List.length paths)))
          ++ governor_drain o world_size).
  destruct (worker_loop_passes o rank batch_out paths Hp
              (S (List.length paths)) 0
              (open (Some (job_lines paths))) 0%Z [])
    as (done & Hw & Hdocks); [reflexivity | reflexivity | left; reflexivity |].
  exists done. split.
  - unfold governor. cbn [open content]. rewrite Hrun. reflexivity.
  - rewrite (inbox_on_lines o world_size rank paths Hrank).
    unfold worker. split; [exact Hw | exact Hdocks].
Qed.

End AssignFacts.

(** ** The farm on a small job file *)

Module FarmRuns.

Import Stream Farm Assign.

Lemma two_ligand_paths : Forall ligand_path ["a"; "b"]%string.
Proof. repeat constructor. Qed.

Lemma small_job_file :
  (Z.of_nat (String.length (job_lines ["a"; "b"]%string)) < 2 ^ 31)%Z.
Proof. cbn. lia. Qed.

Lemma governor_trace_on_lines_witness :
  let paths := ["a"; "b"]%string in
  Forall ligand_path paths /\
  (Z.of_nat (String.length (job_lines paths)) < 2 ^ 31)%Z /\
  governor one_worker 2 (Some (job_lines paths))
  = Some (flat_map (data_pass one_worker paths)
            (seq 0 (S (List.length paths)))
          ++ governor_drain one_worker 2).
Proof.
  split; [exact two_ligand_paths|]. split; [exact small_job_file|].
  exact (AssignFacts.governor_trace_on_lines one_worker 2 ["a"; "b"]%string
           two_ligand_paths small_job_file).
Defined.

Lemma rank_one_of_two : (1 <= 1 < 2)%nat.
Proof. lia. Qed.

(** The one worker docks ["a"], ["b"] and the empty path. *)
Lemma farm_docks_each_line_witness :
  let paths := ["a"; "b"]%string in
  Forall ligand_path paths /\
  (Z.of_nat (String.length (job_lines paths)) < 2 ^ 31)%Z /\
  (1 <= 1 < 2)%nat /\
  exists tr done,
    governor one_worker 2 (Some (job_lines paths)) = Some tr /\
    worker "out" (Some (job_lines paths)) (inbox 1 tr)
    = (W_finished, done, []) /\
    docks done
    = map (fun j => (nth j paths EmptyString,
                     Fork.outname "out" (nth j paths EmptyString),
                     gov_random_int one_worker (S j)))
          (passes_of one_worker 1 (List.length paths)).
Proof.
  split; [exact two_ligand_paths|]. split; [exact small_job_file|].
  split; [exact rank_one_of_two|].
  exact (AssignFacts.farm_docks_each_line one_worker 2 1 "out"
           ["a"; "b"]%string two_ligand_paths small_job_file rank_one_of_two).
Defined.

End FarmRuns.
